(** * natsec-inspector: the template path guard and the pdftk fill lifecycle

    A shallow embedding of [server.js] (the revised server and the original
    one it replaced) and of the parts of Node's POSIX [path] module it calls,
    with the properties of the path validation, the FDF serialisation and the
    temporary file lifecycle.

    JavaScript strings are modelled by [string], read as the UTF-8 bytes of
    the text: every character the code inspects (slash, dot, backslash,
    parentheses, CR, LF) is ASCII, and no byte of a multi-byte UTF-8 sequence
    is an ASCII byte.

    The server runs on a POSIX system: [path] is [path.posix], the separator
    is the slash, and [process.cwd()] is an absolute path. Asynchronous code
    is modelled by running each callback where the event loop would, one
    child process and one promise per call; a promise settles once. *)

From Stdlib Require Import Ascii String ZArith Lia.
From Stdlib Require Import DecimalString DecimalPos DecimalZ.
From stdpp Require Import base option list gmap strings.

Local Open Scope stdpp_scope.

(** ** String methods of the JavaScript runtime *)

Module Js.

(** [s.startsWith(pre)] *)
Fixpoint startsWith (s pre : string) {struct pre} : bool :=
  match pre, s with
  | EmptyString, _ => true
  | String c pre', String d s' => Ascii.eqb c d && startsWith s' pre'
  | String _ _, EmptyString => false
  end.

(** [s.includes(sub)] *)
Fixpoint includes (s sub : string) : bool :=
  startsWith s sub ||
  match s with
  | EmptyString => false
  | String _ s' => includes s' sub
  end.

(** [s.endsWith("/")], written in Node as a test of the last char code. *)
Fixpoint endsWithSlash (s : string) : bool :=
  match s with
  | EmptyString => false
  | String c EmptyString => Ascii.eqb c "/"
  | String _ s' => endsWithSlash s'
  end.

(** [s.split("/")]: never empty, the empty string splits into one empty
    piece. *)
Fixpoint split (s : string) : list string :=
  match s with
  | EmptyString => [EmptyString]
  | String c s' =>
      if Ascii.eqb c "/" then EmptyString :: split s'
      else match split s' with
           | seg :: segs => String c seg :: segs
           | [] => [String c EmptyString]
           end
  end.

(** [parts.join("/")] *)
Definition join (parts : list string) : string := String.concat "/" parts.

(** [String(n)] for an integer [n] (exact below 1e21: decimal digits, with a
    minus sign when negative). *)
Definition string_of_Z (n : Z) : string := NilZero.string_of_int (Z.to_int n).

End Js.

(** [s.startsWith(pre)], with the rest of [s]. *)
Fixpoint drop_prefix (pre s : string) : option string :=
  match pre with
  | EmptyString => Some s
  | String c pre' =>
      match s with
      | String d s' => if Ascii.eqb c d then drop_prefix pre' s' else None
      | EmptyString => None
      end
  end.

(** ** Node's [path] module, POSIX flavour *)

Module path.

(** One round of the loop of [normalizeString], at a separator: [res] is the
    result so far as the list of its segments, last segment first; [seg] is
    the text since the previous separator. Empty and ["."] segments are
    dropped; [".."] removes the last segment unless there is none or it is
    itself [".."], and is then kept only if [allowAboveRoot]. *)
Definition step (allowAboveRoot : bool) (res : list string) (seg : string)
  : list string :=
  if String.eqb seg "" || String.eqb seg "." then res
  else if String.eqb seg ".." then
    match res with
    | top :: below =>
        if String.eqb top ".." then
          (if allowAboveRoot then ".." :: res else res)
        else below
    | [] => if allowAboveRoot then [".."] else []
    end
  else seg :: res.

Definition stack (allowAboveRoot : bool) (segs : list string)
  (res : list string) : list string :=
  fold_left (step allowAboveRoot) segs res.

(** [normalizeString(path, allowAboveRoot, "/", isPosixPathSeparator)] *)
Definition normalizeString (path : string) (allowAboveRoot : bool) : string :=
  Js.join (rev (stack allowAboveRoot (Js.split path) [])).

(** [path.isAbsolute(p)] *)
Definition isAbsolute (p : string) : bool := Js.startsWith p "/".

(** [path.normalize(p)] *)
Definition normalize (p : string) : string :=
  if String.eqb p "" then "."
  else
    let isAbs := isAbsolute p in
    let trailingSeparator := Js.endsWithSlash p in
    let r := normalizeString p (negb isAbs) in
    if String.eqb r "" then
      (if isAbs then "/" else if trailingSeparator then "./" else ".")
    else
      let r := if trailingSeparator then r +:+ "/" else r in
      if isAbs then "/" +:+ r else r.

(** [path.join(a, b)]: empty arguments are skipped. *)
Definition join (args : list string) : string :=
  match filter (λ a, a ≠ "") args with
  | [] => "."
  | parts => normalize (Js.join parts)
  end.

(** [path.resolve(p)] in a process whose working directory is [cwd]. *)
Definition resolve (cwd p : string) : string :=
  let '(resolvedPath, resolvedAbsolute) :=
    if String.eqb p "" then ("", false) else (p +:+ "/", isAbsolute p) in
  let '(resolvedPath, resolvedAbsolute) :=
    if resolvedAbsolute || String.eqb cwd ""
    then (resolvedPath, resolvedAbsolute)
    else (cwd +:+ "/" +:+ resolvedPath, isAbsolute cwd) in
  let r := normalizeString resolvedPath (negb resolvedAbsolute) in
  if resolvedAbsolute then "/" +:+ r
  else if String.eqb r "" then "." else r.

End path.

(** ** Values handed to the server *)

(** A query parameter as express delivers it: absent, a string, or an array
    or object ([?template[]=a]), which is truthy and not a string. *)
Inductive query_value :=
| QUndefined
| QString (s : string)
| QOther.

(** [!!q] *)
Definition truthy (q : query_value) : bool :=
  match q with
  | QUndefined => false
  | QString s => negb (String.eqb s "")
  | QOther => true
  end.

(** A value of the field map ([Object.<string,string>], with the absent
    values that [??] guards against). *)
Inductive jsval :=
| JUndefined
| JNull
| JString (s : string).

(** The field map in the order of [Object.keys]. *)
Definition fields := list (string * jsval).

Inductive error := Error (message : string).

Definition message (e : error) : string := let 'Error m := e in m.

(** A JavaScript computation that returns or throws. *)
Inductive res (A : Type) :=
| Ok (a : A)
| Throw (e : error).
Arguments Ok {A} a.
Arguments Throw {A} e.

(** ** server.js: validateTemplatePath *)

Section Validate.

(** [ORIG_ROOT] is read from the environment at start-up; [cwd] is
    [process.cwd()], which [path.resolve] consults. *)
Variables (ORIG_ROOT cwd : string).

Definition validateTemplatePath (template : query_value) : option string :=
  match template with
  | QString t =>
      if negb (truthy template) then None
      else
        let normalizedTemplate := path.normalize t in
        if Js.startsWith normalizedTemplate ".."
           || Js.includes normalizedTemplate ".." then None
        else if path.isAbsolute normalizedTemplate then None
        else
          let fullPath := path.join [ORIG_ROOT; normalizedTemplate] in
          let resolvedPath := path.resolve cwd fullPath in
          let resolvedRoot := path.resolve cwd ORIG_ROOT in
          if negb (Js.startsWith resolvedPath resolvedRoot) then None
          else Some fullPath
  | _ => None
  end.

End Validate.

(** ** server.js: buildFdf *)

Definition CR : ascii := "013".
Definition LF : ascii := "010".

(** [s.replace(/c/g, rep)] for a single character [c]. *)
Fixpoint replace_char (c : ascii) (rep : string) (s : string) : string :=
  match s with
  | EmptyString => EmptyString
  | String d s' =>
      if Ascii.eqb d c then rep +:+ replace_char c rep s'
      else String d (replace_char c rep s')
  end.

(** [s.replace(/\r?\n/g, rep)] *)
Fixpoint replace_newline (rep : string) (s : string) : string :=
  match s with
  | EmptyString => EmptyString
  | String c s' =>
      if Ascii.eqb c LF then rep +:+ replace_newline rep s'
      else
        match s' with
        | String d s'' =>
            if Ascii.eqb c CR && Ascii.eqb d LF
            then rep +:+ replace_newline rep s''
            else String c (replace_newline rep s')
        | EmptyString => String c EmptyString
        end
  end.

(** The chain of four [replace] calls that computes [esc]. *)
Definition escape (v : string) : string :=
  replace_newline "\r"
    (replace_char ")" "\)"
       (replace_char "(" "\("
          (replace_char "\" "\\" v))).

(** [a ?? b] *)
Definition nullish (a b : jsval) : jsval :=
  match a with
  | JUndefined | JNull => b
  | _ => a
  end.

(** [v.toString()]: a [TypeError] on [null] and [undefined]. *)
Definition toString (v : jsval) : res string :=
  match v with
  | JString s => Ok s
  | JNull => Throw (Error "Cannot read properties of null (reading 'toString')")
  | JUndefined =>
      Throw (Error "Cannot read properties of undefined (reading 'toString')")
  end.

Definition nl : string := String LF EmptyString.

(** One round of the [for] loop: the text appended to [body]. *)
Definition field_line (key : string) (value : jsval) : res string :=
  match toString (nullish value (JString "")) with
  | Throw e => Throw e
  | Ok v => Ok ("<< /T (" +:+ key +:+ ") /V (" +:+ escape v +:+ ") >>" +:+ nl)
  end.

Fixpoint build_body (fieldsObj : fields) (body : string) : res string :=
  match fieldsObj with
  | [] => Ok body
  | (key, value) :: rest =>
      match field_line key value with
      | Throw e => Throw e
      | Ok line => build_body rest (body +:+ line)
      end
  end.

Definition fdf_header : string :=
  "%FDF-1.2" +:+ nl +:+ "%����" +:+ nl +:+ "1 0 obj" +:+ nl +:+
  "<< /FDF << /Fields [" +:+ nl.

Definition fdf_trailer : string :=
  nl +:+ "] >> >>" +:+ nl +:+ "endobj" +:+ nl +:+ "trailer" +:+ nl +:+
  "<< /Root 1 0 R >>" +:+ nl +:+ "%%EOF".

Definition buildFdf (fieldsObj : fields) : res string :=
  match build_body fieldsObj "" with
  | Throw e => Throw e
  | Ok body => Ok (fdf_header +:+ body +:+ fdf_trailer)
  end.

(** ** The reader's side of an FDF string literal

    What a consumer of the file (pdftk) does with a literal string once it
    has read the opening parenthesis, after PDF 32000-1, 7.3.4.2. A backslash
    introduces an escape ([\n \r \t \b \f \( \) \\], one to three octal
    digits, or a line continuation), and a backslash before any other
    character is dropped. A parenthesis that is not escaped opens or closes a
    nested pair and belongs to the string, except the closing parenthesis
    that has no partner: it ends the literal. An end-of-line marker that is
    not escaped (CR, LF or CR LF) reads as one LF. This is not code of the
    repository; it is the other half of the round trip the serialisation is
    meant for. *)

Definition octal_digit (c : ascii) : option N :=
  match c with
  | "0" => Some 0%N | "1" => Some 1%N | "2" => Some 2%N | "3" => Some 3%N
  | "4" => Some 4%N | "5" => Some 5%N | "6" => Some 6%N | "7" => Some 7%N
  | _ => None
  end%char.

Definition octal_char (n : N) : ascii := ascii_of_N (n mod 256)%N.

(** One more character in front of what is read. *)
Definition put (c : ascii) (r : option (string * string))
  : option (string * string) :=
  match r with
  | Some (text, rest) => Some (String c text, rest)
  | None => None
  end.

(** The string read from [s], the text that follows the opening parenthesis,
    and what is left of [s] after the parenthesis that closes the literal;
    [depth] counts the nested pairs that are open. [None] when [s] ends
    before the literal does. *)
Fixpoint read_literal (depth : nat) (s : string) : option (string * string) :=
  match s with
  | EmptyString => None
  | String c rest =>
      if Ascii.eqb c "\" then
        match rest with
        | EmptyString => None
        | String e rest1 =>
            match octal_digit e with
            | Some d1 =>
                match rest1 with
                | String e2 rest2 =>
                    match octal_digit e2 with
                    | Some d2 =>
                        match rest2 with
                        | String e3 rest3 =>
                            match octal_digit e3 with
                            | Some d3 =>
                                put (octal_char (d1 * 64 + d2 * 8 + d3))
                                  (read_literal depth rest3)
                            | None =>
                                put (octal_char (d1 * 8 + d2))
                                  (read_literal depth rest2)
                            end
                        | EmptyString => None
                        end
                    | None => put (octal_char d1) (read_literal depth rest1)
                    end
                | EmptyString => None
                end
            | None =>
                if Ascii.eqb e "n" then put LF (read_literal depth rest1)
                else if Ascii.eqb e "r" then put CR (read_literal depth rest1)
                else if Ascii.eqb e "t" then
                  put "009" (read_literal depth rest1)
                else if Ascii.eqb e "b" then
                  put "008" (read_literal depth rest1)
                else if Ascii.eqb e "f" then
                  put "012" (read_literal depth rest1)
                else if Ascii.eqb e LF then read_literal depth rest1
                else if Ascii.eqb e CR then
                  match rest1 with
                  | String e2 rest2 =>
                      if Ascii.eqb e2 LF then read_literal depth rest2
                      else read_literal depth rest1
                  | EmptyString => None
                  end
                else put e (read_literal depth rest1)
            end
        end
      else if Ascii.eqb c "(" then put "(" (read_literal (S depth) rest)
      else if Ascii.eqb c ")" then
        match depth with
        | O => Some (EmptyString, rest)
        | S depth' => put ")" (read_literal depth' rest)
        end
      else if Ascii.eqb c LF then put LF (read_literal depth rest)
      else if Ascii.eqb c CR then
        match rest with
        | String e rest1 =>
            if Ascii.eqb e LF then put LF (read_literal depth rest1)
            else put LF (read_literal depth rest)
        | EmptyString => None
        end
      else put c (read_literal depth rest)
  end.

(** An entry of the [/Fields] array, read as buildFdf lays it out: the
    [/T] literal, the [/V] literal, and the end of the dictionary. The
    result is the name, the value, and the text after the entry. *)
Definition read_entry (s : string) : option (string * string * string) :=
  match drop_prefix "<< /T (" s with
  | None => None
  | Some s1 =>
      match read_literal 0 s1 with
      | None => None
      | Some (key, s2) =>
          match drop_prefix " /V (" s2 with
          | None => None
          | Some s3 =>
              match read_literal 0 s3 with
              | None => None
              | Some (value, s4) =>
                  match drop_prefix (" >>" +:+ nl) s4 with
                  | None => None
                  | Some rest => Some (key, value, rest)
                  end
              end
          end
      end
  end.

(** ** The world around the server

    The file system is a finite map from paths to contents: every file goes
    by one path, so links and second spellings of a path are outside the
    model. Every call that touches it or starts a process is recorded in
    [trace], oldest first.
    [promise] is the state of the promise returned by the running call (a
    promise settles once; later [resolve] and [reject] calls are ignored) and
    [seen] is the file system at the moment it settled, which is what the
    caller finds when it observes the outcome. [deferred] holds the paths
    handed to the asynchronous [fs.unlink], which runs after the calling turn
    has ended. [uncaught] is set when an ['error'] event finds no listener,
    which ends the process. *)

Inductive io_event :=
| IoExists (p : string)
| IoWrite (p data : string)
| IoSpawn (argv : list string)
| IoRead (p : string)
| IoUnlink (p : string).

Inductive outcome :=
| Resolved (buf : string)
| Rejected (err : error).

Record state := State {
  files : gmap string string;
  trace : list io_event;
  console : list string;
  promise : option outcome;
  seen : option (gmap string string);
  deferred : list string;
  uncaught : option error
}.

Definition set_files (f : gmap string string) (st : state) : state :=
  State f (trace st) (console st) (promise st) (seen st) (deferred st)
    (uncaught st).

Definition add_trace (ev : io_event) (st : state) : state :=
  State (files st) (trace st ++ [ev]) (console st) (promise st) (seen st)
    (deferred st) (uncaught st).

Definition add_console (line : string) (st : state) : state :=
  State (files st) (trace st) (console st ++ [line]) (promise st) (seen st)
    (deferred st) (uncaught st).

Definition set_promise (p : option outcome) (s : option (gmap string string))
  (st : state) : state :=
  State (files st) (trace st) (console st) p s (deferred st) (uncaught st).

Definition set_deferred (d : list string) (st : state) : state :=
  State (files st) (trace st) (console st) (promise st) (seen st) d
    (uncaught st).

Definition set_uncaught (err : error) (st : state) : state :=
  State (files st) (trace st) (console st) (promise st) (seen st)
    (deferred st) (Some err).

(** What becomes of the pdftk [fill_form] child. The call of [spawn] itself
    throws (Node throws every error of the system call but [EACCES],
    [EAGAIN], [EMFILE], [ENFILE] and [ENOENT], and invalid arguments); or the
    child cannot be started (one of those five: an ['error'] event, then
    ['close']); or it runs, leaves an output file or not, and closes with an
    exit code ([None] is JavaScript's [null]: killed by a signal); or it
    runs, leaves an output file or not, and never closes. *)
Inductive child_run :=
| SpawnThrows (err : error)
| LaunchFailure (err : error) (code : option Z)
| Ran (output : option string) (code : option Z)
| Hangs (output : option string).

Inductive child_event :=
| EvError (err : error)
| EvClose (code : option Z).

(** What becomes of the pdftk [dump_data_fields] child: the same four
    ways. *)
Inductive dump_run :=
| DumpSpawnThrows (err : error)
| DumpLaunchFailure (err : error)
| DumpRan (stdout stderr : string) (code : option Z)
| DumpHangs.

(** Everything one request depends on outside the code: configuration, the
    two clock readings of a fill, and which system calls fail. *)
Record env := Env {
  orig_root : string;                       (* ORIG_ROOT *)
  process_cwd : string;                     (* process.cwd() *)
  os_tmpdir : string;                       (* os.tmpdir() *)
  now_fdf : Z;                              (* first Date.now() *)
  now_out : Z;                              (* second Date.now() *)
  write_error : option (error * bool);      (* writeFileSync throws; was the
                                               file created all the same *)
  fill_run : child_run;
  dump : dump_run;
  read_error : option error;                (* readFile fails on a file that
                                               exists *)
  unlink_error : string → option error;     (* unlink fails on this path *)
  match_FieldName : string → option string  (* group 1 of
                                               /^FieldName:\s*(.+)$/ *)
}.

(** ** Computations: state passing with exceptions *)

Definition M (A : Type) : Type := state → res A * state.

#[global] Instance M_ret : MRet M := λ A a st, (Ok a, st).

#[global] Instance M_bind : MBind M := λ A B f m st,
  match m st with
  | (Ok a, st') => f a st'
  | (Throw err, st') => (Throw err, st')
  end.

Definition try_catch {A} (body : M A) (handler : error → M A) : M A := λ st,
  match body st with
  | (Throw err, st') => handler err st'
  | r => r
  end.

Definition lift {A} (r : res A) : M A := λ st, (r, st).

Definition when (b : bool) (m : M unit) : M unit := if b then m else mret tt.

Fixpoint for_each {A} (l : list A) (f : A → M unit) : M unit :=
  match l with
  | [] => mret tt
  | a :: l' => f a ;; for_each l' f
  end.

(** [String(code)] for the exit code handed to ['close']. *)
Definition string_of_code (code : option Z) : string :=
  match code with
  | Some n => Js.string_of_Z n
  | None => "null"
  end.

(** [code !== 0] *)
Definition nonzero (code : option Z) : bool :=
  match code with
  | Some n => negb (Z.eqb n 0)
  | None => true
  end.

(** [output.split(/\r?\n/)] *)
Fixpoint split_lines (s : string) : list string :=
  match s with
  | EmptyString => [EmptyString]
  | String c s' =>
      if Ascii.eqb c LF then EmptyString :: split_lines s'
      else
        match s' with
        | String d s'' =>
            if Ascii.eqb c CR && Ascii.eqb d LF
            then EmptyString :: split_lines s''
            else
              match split_lines s' with
              | l :: ls => String c l :: ls
              | [] => [String c EmptyString]
              end
        | EmptyString => [String c EmptyString]
        end
  end.

(** The names of the two temporary files. *)
Definition fdf_path (tmp : string) (now : Z) : string :=
  path.join [tmp; "data_" +:+ Js.string_of_Z now +:+ ".fdf"].

Definition out_path (tmp : string) (now : Z) : string :=
  path.join [tmp; "out_" +:+ Js.string_of_Z now +:+ ".pdf"].

(** What a handler sends back. [PdfAttachment] stands for the body sent
    with [Content-Type: application/pdf] and the attachment disposition. *)
Inductive payload :=
| JsonError (error : string)
| JsonFields (names : list string)
| PdfAttachment (buf : string).

Record response := Response { status : nat; body : payload }.

Section Server.

Variable e : env.

(** *** fs, console, promises, child processes *)

Definition existsSync (p : string) : M bool := λ st,
  (Ok (bool_decide (is_Some (files st !! p))), add_trace (IoExists p) st).

Definition writeFileSync (p data : string) : M unit := λ st,
  let st := add_trace (IoWrite p data) st in
  match write_error e with
  | None => (Ok tt, set_files (<[p:=data]> (files st)) st)
  | Some (err, created) =>
      (Throw err, if created then set_files (<[p:=""]> (files st)) st else st)
  end.

(** The removal itself, shared by [fs.unlinkSync] and [fs.unlink]. *)
Definition unlink (p : string) : M unit := λ st,
  let st := add_trace (IoUnlink p) st in
  match files st !! p with
  | None =>
      (Throw (Error ("ENOENT: no such file or directory, unlink '" +:+ p
                      +:+ "'")), st)
  | Some _ =>
      match unlink_error e p with
      | Some err => (Throw err, st)
      | None => (Ok tt, set_files (delete p (files st)) st)
      end
  end.

Definition unlinkSync (p : string) : M unit := unlink p.

(** [fs.unlink(p, () => {})]: queued; the callback drops the error. *)
Definition unlink_async (p : string) : M unit := λ st,
  (Ok tt, set_deferred (deferred st ++ [p]) st).

Fixpoint unlink_all (ps : list string) : M unit :=
  match ps with
  | [] => mret tt
  | p :: ps' => try_catch (unlink p) (λ _, mret tt) ;; unlink_all ps'
  end.

(** The end of a turn of the event loop: the queued removals run. *)
Definition end_of_turn : M unit := λ st,
  unlink_all (deferred st) (set_deferred [] st).

(** [fs.readFile(p, cb)]: the pair [(err, buf)] given to [cb]. *)
Definition readFile (p : string) : M (error + string) := λ st,
  let st := add_trace (IoRead p) st in
  match files st !! p with
  | None =>
      (Ok (inl (Error ("ENOENT: no such file or directory, open '" +:+ p
                        +:+ "'"))), st)
  | Some buf =>
      match read_error e with
      | Some err => (Ok (inl err), st)
      | None => (Ok (inr buf), st)
      end
  end.

Definition console_warn (line : string) : M unit := λ st,
  (Ok tt, add_console line st).

Definition console_error (err : error) : M unit := λ st,
  (Ok tt, add_console (message err) st).

Definition new_promise : M unit := λ st, (Ok tt, set_promise None None st).

Definition settle (o : outcome) : M unit := λ st,
  match promise st with
  | Some _ => (Ok tt, st)
  | None => (Ok tt, set_promise (Some o) (Some (files st)) st)
  end.

Definition resolve (buf : string) : M unit := settle (Resolved buf).
Definition reject (err : error) : M unit := settle (Rejected err).

(** [spawn('pdftk', [template, 'fill_form', fdf, 'output', out,
    'flatten'])]: it throws, or gives the events the child will emit, after
    what the child did to the output file. *)
Definition spawn_fill (templatePath fdfPath outPath : string)
  : M (list child_event) := λ st,
  let st :=
    add_trace (IoSpawn ["pdftk"; templatePath; "fill_form"; fdfPath;
                        "output"; outPath; "flatten"]) st in
  let written (output : option string) :=
    match output with
    | Some buf => set_files (<[outPath:=buf]> (files st)) st
    | None => st
    end in
  match fill_run e with
  | SpawnThrows err => (Throw err, st)
  | LaunchFailure err code => (Ok [EvError err; EvClose code], st)
  | Ran output code => (Ok [EvClose code], written output)
  | Hangs output => (Ok [], written output)
  end.

(** The first lines of a promise executor that starts a child: what [spawn]
    throws rejects the promise, and no listener is registered. *)
Definition executor (spawn : M (list child_event))
  : M (option (list child_event)) :=
  try_catch (events ← spawn; mret (Some events))
    (λ err, reject err ;; mret None).

(** *** fillPdf, revised server *)

Definition cleanup (fdfPath outPath : string) : M unit :=
  try_catch
    (b ← existsSync fdfPath;
     when b (unlinkSync fdfPath) ;;
     b ← existsSync outPath;
     when b (unlinkSync outPath))
    (λ err,
       console_warn ("Failed to cleanup temporary files: " +:+ message err)).

Definition on_error (fdfPath outPath : string) (err : error) : M unit :=
  cleanup fdfPath outPath ;;
  reject (Error ("pdftk spawn failed: " +:+ message err)).

Definition on_close (fdfPath outPath : string) (code : option Z) : M unit :=
  if nonzero code then
    cleanup fdfPath outPath ;;
    reject (Error ("pdftk fill_form failed with exit code "
                   +:+ string_of_code code))
  else
    r ← readFile outPath;
    cleanup fdfPath outPath ;;
    match r with
    | inl err => reject err
    | inr buf => resolve buf
    end.

Definition fillPdf (templatePath : string) (data : fields) : M unit :=
  let fdfPath := fdf_path (os_tmpdir e) (now_fdf e) in
  let outPath := out_path (os_tmpdir e) (now_out e) in
  failed ← try_catch
             (doc ← lift (buildFdf data);
              writeFileSync fdfPath doc ;;
              mret None)
             (λ err, cleanup fdfPath outPath ;; mret (Some err));
  new_promise ;;
  match failed with
  | Some err => reject err
  | None =>
      started ← executor (spawn_fill templatePath fdfPath outPath);
      match started with
      | None => mret tt
      | Some events =>
          for_each events (λ ev,
            match ev with
            | EvError err => on_error fdfPath outPath err
            | EvClose code => on_close fdfPath outPath code
            end)
      end
  end.

(** *** fillPdf, original server *)

Definition on_close_orig (fdfPath outPath : string) (code : option Z)
  : M unit :=
  unlink_async fdfPath ;;
  if nonzero code then
    reject (Error ("pdftk fill_form failed with exit code "
                   +:+ string_of_code code)) ;;
    end_of_turn
  else
    end_of_turn ;;
    r ← readFile outPath;
    unlink_async outPath ;;
    match r with
    | inl err => reject err
    | inr buf => resolve buf
    end ;;
    end_of_turn.

Fixpoint dispatch_orig (fdfPath outPath : string) (events : list child_event)
  : M unit :=
  match events with
  | [] => mret tt
  | EvError err :: _ => λ st, (Ok tt, set_uncaught err st)
  | EvClose code :: rest =>
      on_close_orig fdfPath outPath code ;;
      dispatch_orig fdfPath outPath rest
  end.

Definition fillPdf_orig (templatePath : string) (data : fields) : M unit :=
  let fdfPath := fdf_path (os_tmpdir e) (now_fdf e) in
  let outPath := out_path (os_tmpdir e) (now_out e) in
  doc ← lift (buildFdf data);
  writeFileSync fdfPath doc ;;
  new_promise ;;
  started ← executor (spawn_fill templatePath fdfPath outPath);
  match started with
  | None => mret tt
  | Some events => dispatch_orig fdfPath outPath events
  end.

(** *** extractFields

    The promise and the caller's [await] on it in one step: the field names
    when it resolves; a throw when it rejects, which it does when [spawn]
    throws in the executor and when the child closes with a status other
    than zero; [None] when the [await] never resumes, because the ['error']
    event of a child that could not be started, for which no listener is
    registered, ends the process, or because the child never closes. *)

Definition parse_fields (output : string) : list string :=
  omap (match_FieldName e) (split_lines output).

Definition extractFields (templatePath : string)
  : M (option (list string)) := λ st,
  let st :=
    add_trace (IoSpawn ["pdftk"; templatePath; "dump_data_fields"]) st in
  match dump e with
  | DumpSpawnThrows err => (Throw err, st)
  | DumpLaunchFailure err => (Ok None, set_uncaught err st)
  | DumpRan stdout stderr code =>
      if nonzero code then
        (Throw (Error ("pdftk exited with code " +:+ string_of_code code
                       +:+ ": " +:+ stderr)), st)
      else (Ok (Some (parse_fields stdout)), st)
  | DumpHangs => (Ok None, st)
  end.

(** [await] on the promise of [fillPdf]. *)
Definition await_fill : M (option string) := λ st,
  match promise st with
  | Some (Resolved buf) => (Ok (Some buf), st)
  | Some (Rejected err) => (Throw err, st)
  | None => (Ok None, st)
  end.

(** *** The handlers of the revised server

    The result is the response sent, or [None] when none is. *)

Definition send (code : nat) (b : payload) : M (option response) :=
  mret (Some (Response code b)).

Definition get_fields (template : query_value) : M (option response) :=
  try_catch
    (if negb (truthy template) then
       send 400 (JsonError "template query parameter is required")
     else
       match validateTemplatePath (orig_root e) (process_cwd e) template with
       | None => send 400 (JsonError "invalid template path")
       | Some p =>
           found ← existsSync p;
           if negb found then send 404 (JsonError "template not found")
           else
             r ← extractFields p;
             match r with
             | Some names => send 200 (JsonFields names)
             | None => mret None
             end
       end)
    (λ err, send 500 (JsonError (message err))).

Definition post_submit (template : query_value) (req_body : option fields)
  : M (option response) :=
  try_catch
    (if negb (truthy template) then
       send 400 (JsonError "template query parameter is required")
     else
       match validateTemplatePath (orig_root e) (process_cwd e) template with
       | None => send 400 (JsonError "invalid template path")
       | Some p =>
           found ← existsSync p;
           if negb found then send 404 (JsonError "template not found")
           else
             fillPdf p (default [] req_body) ;;
             r ← await_fill;
             match r with
             | Some pdfBuf => send 200 (PdfAttachment pdfBuf)
             | None => mret None
             end
       end)
    (λ err, console_error err ;; send 500 (JsonError (message err))).

End Server.

(** The state a call starts from: the given files, nothing recorded yet. *)
Definition initial (fs : gmap string string) : state :=
  State fs [] [] None None [] None.

(** * Vocabulary of the properties *)

(** ** Paths as lists of segments *)

(** A piece that [split] leaves whole: it holds no slash. *)
Definition atom (s : string) : Prop := Js.split s = [s].

(** A segment the loop does not drop, and one it appends. *)
Definition kept (s : string) : Prop := s ≠ "" ∧ s ≠ ".".
Definition plain (s : string) : Prop := s ≠ "" ∧ s ≠ "." ∧ s ≠ "..".

#[global] Instance kept_dec (s : string) : Decision (kept s).
Proof. unfold kept. apply _. Defined.

Definition clean (l : list string) : list string := filter kept l.

(** The segments of a path: its pieces between slashes, empty ones aside. *)
Definition segments (p : string) : list string :=
  filter (λ s, s ≠ "") (Js.split p).

(** [p] is [root] or lies below it, segment by segment. *)
Definition inside (root p : string) : Prop :=
  segments root `prefix_of` segments p.

(** The result of [path.resolve] before it is joined back into a string. *)
Definition resolve_stack (cwd p : string) : list string :=
  path.stack false (Js.split p)
    (if path.isAbsolute p then [] else path.stack false (Js.split cwd) []).

(** The string [path.join(root, n)] hands to [normalize]. *)
Definition joined (root n : string) : string :=
  Js.join (filter (λ a, a ≠ "") [root; n]).

(** What passing the two textual tests says about the candidate. *)
Definition passes (t : string) : Prop :=
  t ≠ "" ∧ Js.includes (path.normalize t) ".." = false
  ∧ path.isAbsolute (path.normalize t) = false.

(** What [path.join(dir, name)] puts before a plain file name. *)
Definition dir_prefix (dir : string) : string :=
  (if path.isAbsolute dir then "/" else "") +:+
  match rev (path.stack (negb (path.isAbsolute dir)) (Js.split dir) []) with
  | [] => ""
  | l => Js.join l +:+ "/"
  end.

(** ** The escaping, pass by pass, and its effect on line breaks *)

(** The three character passes, before the newline pass. *)
Definition escape3 (v : string) : string :=
  replace_char ")" "\)" (replace_char "(" "\(" (replace_char "\" "\\" v)).

Definition special (c : ascii) : Prop :=
  c = "\"%char ∨ c = "("%char ∨ c = ")"%char.

#[global] Instance special_dec (c : ascii) : Decision (special c).
Proof. unfold special. apply _. Defined.

(** What comes back from a value after escaping and un-escaping: the text
    with its line breaks rewritten. A line feed, alone or after a carriage
    return, comes back as one carriage return (it was written as the escape
    [\r]); a carriage return on its own was written raw and is read as a line
    feed. *)
Fixpoint line_breaks (s : string) : string :=
  match s with
  | EmptyString => EmptyString
  | String c s' =>
      if Ascii.eqb c LF then String CR (line_breaks s')
      else
        match s' with
        | String d s'' =>
            if Ascii.eqb c CR && Ascii.eqb d LF then String CR (line_breaks s'')
            else String (if Ascii.eqb c CR then LF else c) (line_breaks s')
        | EmptyString => String (if Ascii.eqb c CR then LF else c) EmptyString
        end
  end.

Fixpoint has_line_break (s : string) : bool :=
  match s with
  | EmptyString => false
  | String c s' => Ascii.eqb c CR || Ascii.eqb c LF || has_line_break s'
  end.

(** The text of a value as buildFdf takes it: empty when absent. *)
Definition value_text (v : jsval) : string :=
  match v with
  | JString s => s
  | JNull | JUndefined => ""
  end.

Definition entry (kv : string * jsval) : string :=
  "<< /T (" +:+ kv.1 +:+ ") /V (" +:+ escape (value_text kv.2) +:+ ") >>"
  +:+ nl.

Definition entries (fieldsObj : fields) : string :=
  foldr (λ kv rest, entry kv +:+ rest) "" fieldsObj.

(** ** The promise and the temporary files *)

(** Neither temporary file is there. *)
Definition tidy (fdf out : string) (fs : gmap string string) : Prop :=
  fs !! fdf = None ∧ fs !! out = None.

(** The promise has settled, no temporary file was there when it did, and
    none is there now. *)
Definition settled_tidy (fdf out : string) (st : state) : Prop :=
  (∃ o fs, promise st = Some o ∧ seen st = Some fs ∧ tidy fdf out fs)
  ∧ tidy fdf out (files st).

(** What [readFile] hands to its callback, and the outcome the callback
    settles the promise with. *)
Definition read_result (e : env) (fs : gmap string string) (p : string)
  : error + string :=
  match fs !! p with
  | None =>
      inl (Error ("ENOENT: no such file or directory, open '" +:+ p +:+ "'"))
  | Some buf =>
      match read_error e with
      | Some err => inl err
      | None => inr buf
      end
  end.

Definition outcome_of (r : error + string) : outcome :=
  match r with
  | inl err => Rejected err
  | inr buf => Resolved buf
  end.

Definition first_outcome (o : outcome) (st : state) : option outcome :=
  match promise st with
  | None => Some o
  | Some o' => Some o'
  end.

(** The listener the revised [fillPdf] registers for each event. *)
Definition handle (e : env) (fdf out : string) (ev : child_event) : M unit :=
  match ev with
  | EvError err => on_error e fdf out err
  | EvClose code => on_close e fdf out code
  end.

(** The outcome a listener settles a pending promise with. *)
Definition handler_outcome (e : env) (out : string) (ev : child_event)
  (fs : gmap string string)
  : outcome :=
  match ev with
  | EvError err => Rejected (Error ("pdftk spawn failed: " +:+ message err))
  | EvClose code =>
      if nonzero code then
        Rejected (Error ("pdftk fill_form failed with exit code "
                         +:+ string_of_code code))
      else outcome_of (read_result e fs out)
  end.

Definition child_events (r : child_run) : list child_event :=
  match r with
  | LaunchFailure err code => [EvError err; EvClose code]
  | Ran _ code => [EvClose code]
  | SpawnThrows _ | Hangs _ => []
  end.

(** The file system once the child is done with it. *)
Definition tool_files (out : string) (r : child_run) (fs : gmap string string)
  : gmap string string :=
  match r with
  | Ran (Some buf) _ | Hangs (Some buf) => <[out:=buf]> fs
  | _ => fs
  end.

Definition fill_argv (templatePath fdf out : string) : list string :=
  ["pdftk"; templatePath; "fill_form"; fdf; "output"; out; "flatten"].

(** The document [fillPdf] writes for a field map. *)
Definition fdf_doc (data : fields) : string :=
  fdf_header +:+ entries data +:+ fdf_trailer.

(** The state in which [spawn] has returned or thrown, when the write went
    well: the promise is pending. *)
Definition spawned (e : env) (templatePath : string) (data : fields)
  (st : state) : state :=
  let fdf := fdf_path (os_tmpdir e) (now_fdf e) in
  let out := out_path (os_tmpdir e) (now_out e) in
  State (tool_files out (fill_run e) (<[fdf:=fdf_doc data]> (files st)))
    (trace st ++ [IoWrite fdf (fdf_doc data);
                  IoSpawn (fill_argv templatePath fdf out)])
    (console st) None None (deferred st) (uncaught st).

(** The state once the executor has run: as [spawned], with the promise
    rejected already when [spawn] threw. *)
Definition started (e : env) (templatePath : string) (data : fields)
  (st : state) : state :=
  match fill_run e with
  | SpawnThrows err =>
      set_promise (Some (Rejected err))
        (Some (files (spawned e templatePath data st)))
        (spawned e templatePath data st)
  | _ => spawned e templatePath data st
  end.

(** The state after a failed write: the trace has the attempt, and the file
    may have been created. *)
Definition write_failed (e : env) (data : fields) (created : bool)
  (st : state) : state :=
  let fdf := fdf_path (os_tmpdir e) (now_fdf e) in
  State (if created then <[fdf:=""]> (files st) else files st)
    (trace st ++ [IoWrite fdf (fdf_doc data)])
    (console st) (promise st) (seen st) (deferred st) (uncaught st).

(** ** Scenarios *)

Definition no_error : string → option error := λ _, None.

Definition eperm_on (path : string) : string → option error := λ p,
  if String.eqb p path then Some (Error "EPERM: operation not permitted")
  else None.

(** A server rooted at [/templates], with [/tmp] for temporary files, that
    reads 1700000000000 from the clock twice; the write and the read go
    well. *)
Definition scenario (run : child_run) (unlink_err : string → option error)
  : env :=
  Env "/templates" "/srv/app" "/tmp" 1700000000000 1700000000000 None run
    (DumpRan "" "" (Some 0%Z)) None unlink_err (λ _, None).

Definition templates : gmap string string :=
  {["/templates/fire.pdf" := "%PDF-form"]}.

Definition tmp_fdf : string := "/tmp/data_1700000000000.fdf".
Definition tmp_out : string := "/tmp/out_1700000000000.pdf".

(** * More of the code *)

(** ** server.js: the pattern of extractFields

    [line.match(/^FieldName:\s*(.+)$/)] on the UTF-8 bytes of the line. The
    characters [\s] matches are the tab, line feed, vertical tab, form feed,
    carriage return and space, and U+00A0, U+1680, U+2000 to U+200A, U+2028,
    U+2029, U+202F, U+205F, U+3000 and U+FEFF; the dot matches every
    character but the four line terminators (line feed, carriage return,
    U+2028 and U+2029). *)

Definition byte (c : ascii) : N := N_of_ascii c.

(** The first character of [s] when [\s] matches it, and what follows. *)
Definition white_space (s : string) : option (string * string) :=
  match s with
  | EmptyString => None
  | String c r1 =>
      if ((9 <=? byte c) && (byte c <=? 13))%N || (byte c =? 32)%N
      then Some (String c EmptyString, r1)
      else
        match r1 with
        | EmptyString => None
        | String d r2 =>
            if (byte c =? 194)%N && (byte d =? 160)%N
            then Some (String c (String d EmptyString), r2)
            else
              match r2 with
              | EmptyString => None
              | String f r3 =>
                  if ((byte c =? 225) && (byte d =? 154) && (byte f =? 128)
                      || (byte c =? 226) && (byte d =? 128)
                         && ((128 <=? byte f) && (byte f <=? 138)
                             || (byte f =? 168) || (byte f =? 169)
                             || (byte f =? 175))
                      || (byte c =? 226) && (byte d =? 129) && (byte f =? 159)
                      || (byte c =? 227) && (byte d =? 128) && (byte f =? 128)
                      || (byte c =? 239) && (byte d =? 187)
                         && (byte f =? 191))%N
                  then Some (String c (String d (String f EmptyString)), r3)
                  else None
              end
        end
  end.

(** U+2028 and U+2029. *)
Definition LS : string := String "226" (String "128" (String "168" "")).
Definition PS : string := String "226" (String "128" (String "169" "")).

(** Does the text hold a character the dot does not match. *)
Definition has_line_terminator (s : string) : bool :=
  Js.includes s (String LF "") || Js.includes s (String CR "")
  || Js.includes s LS || Js.includes s PS.

(** [\s*], greedy: the text after the longest run of white space, and the
    last character of the run. A run of [n] bytes has at most [n]
    characters. *)
Fixpoint skip_white (fuel : nat) (s : string) (last : option string)
  : option string * string :=
  match fuel with
  | O => (last, s)
  | S fuel' =>
      match white_space s with
      | Some (w, rest) => skip_white fuel' rest (Some w)
      | None => (last, s)
      end
  end.

(** Group 1 of the match, or [None] when the line does not match. After the
    white space the group must reach the end of the line, so a line
    terminator in it fails the match; when the white space reaches the end,
    the pattern gives its last character back to the group. *)
Definition FieldName_match (line : string) : option string :=
  match drop_prefix "FieldName:" line with
  | None => None
  | Some rest =>
      match skip_white (String.length rest) rest None with
      | (last, EmptyString) =>
          match last with
          | Some w => if has_line_terminator w then None else Some w
          | None => None
          end
      | (_, name) => if has_line_terminator name then None else Some name
      end
  end.

(** ** server.js, original: the handlers

    [path.join] throws a [TypeError] when the template is not a string; its
    message names the kind of value received, and is a parameter here. *)

Section Original.

Variable e : env.
Variable arg_type_error : error.

Definition join_root (template : query_value) : M string :=
  match template with
  | QString t => mret (path.join [orig_root e; t])
  | _ => lift (Throw arg_type_error)
  end.

Definition get_fields_orig (template : query_value) : M (option response) :=
  try_catch
    (if negb (truthy template) then
       send 400 (JsonError "template query parameter is required")
     else
       p ← join_root template;
       found ← existsSync p;
       if negb found then send 404 (JsonError "template not found")
       else
         r ← extractFields e p;
         match r with
         | Some names => send 200 (JsonFields names)
         | None => mret None
         end)
    (λ err, send 500 (JsonError (message err))).

Definition post_submit_orig (template : query_value)
  (req_body : option fields) : M (option response) :=
  try_catch
    (if negb (truthy template) then
       send 400 (JsonError "template query parameter is required")
     else
       p ← join_root template;
       found ← existsSync p;
       if negb found then send 404 (JsonError "template not found")
       else
         fillPdf_orig e p (default [] req_body) ;;
         r ← await_fill;
         match r with
         | Some pdfBuf => send 200 (PdfAttachment pdfBuf)
         | None => mret None
         end)
    (λ err, console_error err ;; send 500 (JsonError (message err))).

End Original.

(** ** overrides.js: the document id and the link

    [window.location.pathname.match(/documents\/(\d+)/)]: the leftmost place
    where [documents/] is followed by a digit, and the digits from there. *)

Module Overrides.

Definition is_digit (c : ascii) : bool :=
  ((48 <=? N_of_ascii c) && (N_of_ascii c <=? 57))%N.

(** [\d+] at the start of [s]: as many digits as there are. *)
Fixpoint digits (s : string) : string :=
  match s with
  | EmptyString => EmptyString
  | String c s' => if is_digit c then String c (digits s') else EmptyString
  end.

(** The match that starts at the first character of [s], if there is one. *)
Definition match_here (s : string) : option string :=
  match drop_prefix "documents/" s with
  | None => None
  | Some rest =>
      if String.eqb (digits rest) "" then None else Some (digits rest)
  end.

(** Group 1 of the leftmost match. *)
Fixpoint docId (pathname : string) : option string :=
  match match_here pathname with
  | Some d => Some d
  | None =>
      match pathname with
      | EmptyString => None
      | String _ rest => docId rest
      end
  end.

(** [window.INSPECTOR_BASE_URL || 'http://localhost:8087'] *)
Definition base (INSPECTOR_BASE_URL : option string) : string :=
  match INSPECTOR_BASE_URL with
  | Some url => if String.eqb url "" then "http://localhost:8087" else url
  | None => "http://localhost:8087"
  end.

(** The [href] of the button, or [None] when the script returns before
    adding one. *)
Definition href (INSPECTOR_BASE_URL : option string) (pathname : string)
  : option string :=
  match docId pathname with
  | None => None
  | Some d => Some (base INSPECTOR_BASE_URL +:+ "/start?doc_id=" +:+ d)
  end.

End Overrides.

(** * Vocabulary of the further properties *)

(** An event of tidying up: an existence test or a removal of one of the two
    temporary files, or a read of the output file. *)
Definition housekeeping (fdf out : string) (ev : io_event) : Prop :=
  match ev with
  | IoExists p | IoUnlink p => p = fdf ∨ p = out
  | IoRead p => p = out
  | IoWrite _ _ | IoSpawn _ => False
  end.

(** [st'] comes from [st] by tidying up: every file is as it was, or is one
    of the two temporary files and is gone; the trace has grown by
    housekeeping events only. *)
Definition tidied (fdf out : string) (st st' : state) : Prop :=
  (∀ p, files st' !! p = files st !! p
        ∨ ((p = fdf ∨ p = out) ∧ files st' !! p = None))
  ∧ (∃ tr, trace st' = trace st ++ tr ∧ Forall (housekeeping fdf out) tr)
  ∧ deferred st' = deferred st
  ∧ uncaught st' = uncaught st.

(** The same world, with other failures of the removals. *)
Definition with_unlink_error (u : string → option error) (e : env) : env :=
  Env (orig_root e) (process_cwd e) (os_tmpdir e) (now_fdf e) (now_out e)
    (write_error e) (fill_run e) (dump e) (read_error e) u
    (match_FieldName e).

(** Whether and how the promise of a fill settles, from what the write, the
    child and the read do; [None] is a promise that stays pending. *)
Definition fill_promise (e : env) (templatePath : string) (data : fields)
  (st : state) : option outcome :=
  match write_error e with
  | Some (err, _) => Some (Rejected err)
  | None =>
      match fill_run e with
      | SpawnThrows err => Some (Rejected err)
      | LaunchFailure err _ =>
          Some (Rejected (Error ("pdftk spawn failed: " +:+ message err)))
      | Ran _ (Some 0%Z) =>
          Some (outcome_of
                  (read_result e (files (spawned e templatePath data st))
                     (out_path (os_tmpdir e) (now_out e))))
      | Ran _ (Some n) =>
          Some (Rejected (Error ("pdftk fill_form failed with exit code "
                                 +:+ NilZero.string_of_int (Z.to_int n))))
      | Ran _ None =>
          Some (Rejected (Error "pdftk fill_form failed with exit code null"))
      | Hangs _ => None
      end
  end.

(** An absolute path in canonical form: a slash and its segments. *)
Definition canonical (p : string) (segs : list string) : Prop :=
  Forall atom segs ∧ Forall plain segs ∧ p = "/" +:+ Js.join segs.

(** A decimal numeral: one digit or more, and digits only. *)
Definition numeral (d : string) : Prop :=
  d ≠ "" ∧ Overrides.digits d = d.

(** The relative path that climbs [k] directories and then goes down the
    segments [segs]. *)
Definition climb (k : nat) (segs : list string) : string :=
  Js.join (replicate k ".." ++ segs).

(** ** The shape of an escaped value *)

(** Read from left to right, the text is made of the two-character escapes
    [\\], [\(], [\)] and [\r], and of characters other than the
    backslash, the parentheses and the line feed. *)
Fixpoint well_escaped (s : string) : bool :=
  match s with
  | EmptyString => true
  | String c s' =>
      if Ascii.eqb c "\" then
        match s' with
        | String d s'' =>
            (Ascii.eqb d "\" || Ascii.eqb d "(" || Ascii.eqb d ")"
             || Ascii.eqb d "r")
            && well_escaped s''
        | EmptyString => false
        end
      else
        negb (Ascii.eqb c "(" || Ascii.eqb c ")" || Ascii.eqb c LF)
        && well_escaped s'
  end.

(** ** The output of pdftk's field dump *)

Definition crlf : string := String CR (String LF EmptyString).

(** One character of white space, alone. *)
Definition white_char (w : string) : Prop := white_space w = Some (w, "").

(** Text that is white space from end to end. *)
Inductive white_text : string → Prop :=
| white_nil : white_text ""
| white_cons (w s : string) :
    white_char w → white_text s → white_text (w +:+ s).

(** A name the pattern gives back whole: not empty, no white space in front,
    no line terminator. *)
Definition field_name (n : string) : Prop :=
  n ≠ "" ∧ white_space n = None ∧ has_line_terminator n = false.

(** A line of the dump: the name of a field, or anything that does not start
    with [FieldName:]. *)
Inductive dump_line :=
| NameLine (name : string)
| OtherLine (text : string).

Definition print_line (l : dump_line) : string :=
  match l with
  | NameLine n => "FieldName: " +:+ n
  | OtherLine t => t
  end.

Definition well_formed (l : dump_line) : Prop :=
  match l with
  | NameLine n => field_name n
  | OtherLine t =>
      drop_prefix "FieldName:" t = None ∧ has_line_break t = false
  end.

Definition names_of (ls : list dump_line) : list string :=
  omap (λ l, match l with NameLine n => Some n | OtherLine _ => None end) ls.

(** ** Proof steps for the tidying up *)

Ltac file_cases fdf out :=
  let p := fresh "p" in
  intros p;
  (destruct (decide (p = out)) as [->|?];
   [|destruct (decide (p = fdf)) as [->|?]]);
  try (destruct (decide (fdf = out)) as [->|?]);
  repeat (rewrite lookup_delete_eq || rewrite lookup_delete_ne by done);
  eauto.

Ltac trace_cases :=
  rewrite <- ?app_assoc; eexists; split; [reflexivity|];
  repeat first [apply Forall_nil | apply List.Forall_cons; [cbn; auto|]].

(** ** Further scenarios *)

(** The server of [scenario] on a machine without pdftk. *)
Definition pdftk_missing : env :=
  Env "/templates" "/srv/app" "/tmp" 1700000000000 1700000000000 None
    (LaunchFailure (Error "spawn pdftk ENOENT") (Some (-2)%Z))
    (DumpLaunchFailure (Error "spawn pdftk ENOENT")) None no_error
    FieldName_match.

(** What pdftk prints for a form with the fields [Name] and [Date], and the
    server of [scenario] with pdftk printing it with the given line ends. *)
Definition sample_dump : list dump_line :=
  [OtherLine "---"; OtherLine "FieldType: Text"; NameLine "Name";
   OtherLine "FieldFlags: 0"; OtherLine "---"; OtherLine "FieldType: Text";
   NameLine "Date"; OtherLine ""].

Definition dump_scenario (sep : string) : env :=
  Env "/templates" "/srv/app" "/tmp" 1700000000000 1700000000000 None
    (Ran None (Some 0%Z))
    (DumpRan (String.concat sep (map print_line sample_dump)) "" (Some 0%Z))
    None no_error FieldName_match.

(** The templates, on a host that has more than templates. *)
Definition host_files : gmap string string :=
  <["/etc/passwd" := "root:x:0:0:root:/root:/bin/sh"]> templates.

(** The server of [scenario] with no room left in the temporary directory:
    the write creates the file and fails. *)
Definition disk_full : env :=
  Env "/templates" "/srv/app" "/tmp" 1700000000000 1700000000000
    (Some (Error "ENOSPC: no space left on device, write", true))
    (Ran None (Some 0%Z)) (DumpRan "" "" (Some 0%Z)) None no_error
    FieldName_match.

(** The server of [scenario] with a template pdftk cannot read: the dump
    closes with status 1. *)
Definition dump_failure : env :=
  Env "/templates" "/srv/app" "/tmp" 1700000000000 1700000000000 None
    (Ran None (Some 1%Z)) (DumpRan "" "Error: not a PDF" (Some 1%Z)) None
    no_error FieldName_match.

(** * Properties *)

(** ** The path model on the examples of the Node documentation *)

Lemma path_normalize_examples :
  path.normalize "/foo/bar//baz/asdf/quux/.." = "/foo/bar/baz/asdf"
  ∧ path.normalize "" = "."
  ∧ path.normalize "./" = "./"
  ∧ path.normalize "a/../.." = ".."
  ∧ path.normalize "/../a/" = "/a/"
  ∧ path.normalize ".../x" = ".../x".
Proof. repeat split. Qed.

Lemma path_join_examples :
  path.join ["/foo"; "bar"; "baz/asdf"; "quux"; ".."] = "/foo/bar/baz/asdf"
  ∧ path.join [""; ""] = "."
  ∧ path.join ["/templates"; "forms/fire.pdf"] = "/templates/forms/fire.pdf".
Proof. repeat split. Qed.

Lemma path_resolve_examples :
  path.resolve "/foo/bar" "./baz" = "/foo/bar/baz"
  ∧ path.resolve "/foo/bar" "/tmp/file/" = "/tmp/file"
  ∧ path.resolve "/home/myself/node" "../gif/image.gif"
    = "/home/myself/gif/image.gif"
  ∧ path.resolve "/srv/app" "" = "/srv/app"
  ∧ path.resolve "/" "../.." = "/".
Proof. repeat split. Qed.

(** ** Strings *)

Lemma sapp_nil_l (s : string) : "" +:+ s = s.
Proof. reflexivity. Qed.

Lemma sapp_cons (c : ascii) (s t : string) :
  String c s +:+ t = String c (s +:+ t).
Proof. reflexivity. Qed.

Lemma sapp_nil_r (s : string) : s +:+ "" = s.
Proof. induction s as [|c s IH]; [done|]. by rewrite sapp_cons, IH. Qed.

Lemma sapp_assoc (s t u : string) : (s +:+ t) +:+ u = s +:+ t +:+ u.
Proof. induction s as [|c s IH]; [done|]. by rewrite !sapp_cons, IH. Qed.

Lemma sapp_inv_head (s t u : string) : s +:+ t = s +:+ u → t = u.
Proof.
  induction s as [|c s IH]; [done|].
  rewrite !sapp_cons. intros [= H]. by apply IH.
Qed.

Lemma list_of_app (s t : string) :
  list_ascii_of_string (s +:+ t)
  = list_ascii_of_string s ++ list_ascii_of_string t.
Proof.
  induction s as [|c s IH]; [done|]. rewrite sapp_cons. cbn. by rewrite IH.
Qed.

Lemma sapp_inv_tail (s t u : string) : s +:+ u = t +:+ u → s = t.
Proof.
  intros H. apply (f_equal list_ascii_of_string) in H.
  rewrite !list_of_app in H. apply (inj (.++ _)) in H.
  rewrite <- (string_of_list_ascii_of_string s).
  rewrite <- (string_of_list_ascii_of_string t). by rewrite H.
Qed.

Lemma startsWith_app (s t : string) : Js.startsWith (s +:+ t) s = true.
Proof.
  induction s as [|c s IH]; [done|].
  rewrite sapp_cons. cbn. by rewrite Ascii.eqb_refl, IH.
Qed.

Lemma includes_unfold (s sub : string) :
  Js.includes s sub
  = Js.startsWith s sub
    || match s with
       | EmptyString => false
       | String _ s' => Js.includes s' sub
       end.
Proof. by destruct s. Qed.

Lemma includes_startsWith (s sub : string) :
  Js.includes s sub = false → Js.startsWith s sub = false.
Proof.
  rewrite includes_unfold. intros H. by apply orb_false_elim in H as [H _].
Qed.

Lemma drop_prefix_app (pre rest : string) :
  drop_prefix pre (pre +:+ rest) = Some rest.
Proof.
  induction pre as [|c pre IH]; [done|].
  change (String c pre +:+ rest) with (String c (pre +:+ rest)).
  cbn. by rewrite Ascii.eqb_refl.
Qed.

Lemma drop_prefix_some (pre s rest : string) :
  drop_prefix pre s = Some rest → s = pre +:+ rest.
Proof.
  revert s. induction pre as [|c pre IH]; intros s; cbn.
  - by intros [= ->].
  - destruct s as [|d s]; [done|].
    destruct (Ascii.eqb_spec c d) as [->|]; [|done].
    intros H. by rewrite (IH _ H).
Qed.

(** ** Splitting and joining at slashes *)

Lemma split_nil : Js.split "" = [""].
Proof. reflexivity. Qed.

Lemma split_slash (s : string) : Js.split (String "/" s) = "" :: Js.split s.
Proof. reflexivity. Qed.

Lemma split_other (c : ascii) (s : string) :
  c ≠ "/"%char →
  Js.split (String c s)
  = match Js.split s with
    | seg :: segs => String c seg :: segs
    | [] => [String c ""]
    end.
Proof. intros Hc. cbn. by apply Ascii.eqb_neq in Hc as ->. Qed.

Lemma split_not_nil (s : string) : Js.split s ≠ [].
Proof.
  induction s as [|c s IH]; [done|].
  destruct (Ascii.eqb_spec c "/") as [->|Hc]; [done|].
  rewrite split_other by done. by destruct (Js.split s).
Qed.

Lemma split_app (a b : string) :
  Js.split (a +:+ String "/" b) = Js.split a ++ Js.split b.
Proof.
  induction a as [|c a IH]; [done|].
  rewrite sapp_cons.
  destruct (Ascii.eqb_spec c "/") as [->|Hc].
  - rewrite !split_slash, IH. done.
  - rewrite !split_other, IH by done.
    pose proof (split_not_nil a). by destruct (Js.split a).
Qed.

Lemma split_atoms (s : string) : Forall atom (Js.split s).
Proof.
  induction s as [|c s IH]; [by repeat constructor|].
  destruct (Ascii.eqb_spec c "/") as [->|Hc].
  - rewrite split_slash. by constructor.
  - rewrite split_other by done.
    pose proof (split_not_nil s).
    destruct (Js.split s) as [|seg segs]; [done|].
    inversion_clear IH as [|? ? Hseg Hsegs]. constructor; [|done].
    unfold atom in *. by rewrite split_other, Hseg.
Qed.

Lemma join_cons (x y : string) (l : list string) :
  Js.join (x :: y :: l) = x +:+ String "/" (Js.join (y :: l)).
Proof. reflexivity. Qed.

Lemma split_join (l : list string) :
  Forall atom l → l ≠ [] → Js.split (Js.join l) = l.
Proof.
  induction 1 as [|x l Hx Hl IH]; [done|]. intros _.
  destruct l as [|y l]; [done|].
  rewrite join_cons, split_app, Hx, IH; done.
Qed.

Lemma join_app_prefix (a b : list string) :
  ∃ rest, Js.join (a ++ b) = Js.join a +:+ rest.
Proof.
  induction a as [|x a IH]; [by eexists|].
  destruct a as [|y a].
  - destruct b as [|z b]; [exists ""; by rewrite sapp_nil_r|].
    eexists. cbn [app]. by rewrite join_cons.
  - destruct IH as [rest IH]. exists rest.
    cbn [app] in *. by rewrite !join_cons, IH, sapp_assoc.
Qed.

(** ** The segment stack of normalizeString *)

Lemma seg_cases (s : string) : ¬ kept s ∨ s = ".." ∨ plain s.
Proof.
  unfold kept, plain.
  destruct (decide (s = "")); [left; tauto|].
  destruct (decide (s = ".")); [left; tauto|].
  destruct (decide (s = "..")); [right; by left|right; by right].
Qed.

Lemma step_drop (a : bool) (r : list string) (s : string) :
  ¬ kept s → path.step a r s = r.
Proof.
  unfold kept, path.step. intros H.
  destruct (String.eqb_spec s ""); [done|].
  destruct (String.eqb_spec s "."); [done|]. naive_solver.
Qed.

Lemma step_plain (a : bool) (r : list string) (s : string) :
  plain s → path.step a r s = s :: r.
Proof.
  unfold plain, path.step. intros (H1 & H2 & H3).
  apply String.eqb_neq in H1, H2, H3. by rewrite H1, H2, H3.
Qed.

Lemma step_pop (a : bool) (top : string) (below : list string) :
  top ≠ ".." → path.step a (top :: below) ".." = below.
Proof. intros H. cbn. by apply String.eqb_neq in H as ->. Qed.

Lemma step_Forall (P : string → Prop) (a : bool) (r : list string)
  (s : string) :
  Forall P r → (plain s → P s) → (a = true → P "..") →
  Forall P (path.step a r s).
Proof.
  intros Hr Hs Hd.
  destruct (seg_cases s) as [H|[->|H]].
  - by rewrite step_drop.
  - destruct r as [|top below]; cbn.
    + destruct a; [|done]. constructor; auto.
    + destruct (String.eqb top "..").
      * destruct a; [|done]. constructor; auto.
      * by inversion Hr.
  - rewrite step_plain by done. constructor; auto.
Qed.

Lemma stack_Forall (P : string → Prop) (a : bool) (segs r : list string) :
  Forall P r → Forall (λ s, plain s → P s) segs → (a = true → P "..") →
  Forall P (path.stack a segs r).
Proof.
  intros Hr Hsegs Hd. revert r Hr.
  induction Hsegs as [|s segs Hs _ IH]; intros r Hr; [done|].
  apply IH. by apply step_Forall.
Qed.

Lemma stack_app (a : bool) (l1 l2 r : list string) :
  path.stack a (l1 ++ l2) r = path.stack a l2 (path.stack a l1 r).
Proof. apply fold_left_app. Qed.

Lemma stack_kept (a : bool) (segs : list string) :
  Forall kept (path.stack a segs []).
Proof.
  apply stack_Forall; [done| |done].
  apply Forall_forall. intros s _ (? & ? & _). done.
Qed.

Lemma stack_plain (segs r : list string) :
  Forall plain r → Forall plain (path.stack false segs r).
Proof.
  intros Hr. apply stack_Forall; [done| |done].
  by apply Forall_forall.
Qed.

Lemma atom_dotdot : atom "..".
Proof. reflexivity. Qed.

Lemma stack_atoms (a : bool) (p : string) (r : list string) :
  Forall atom r → Forall atom (path.stack a (Js.split p) r).
Proof.
  intros Hr. apply stack_Forall; [done| |intros _; apply atom_dotdot].
  eapply Forall_impl; [apply split_atoms|]. auto.
Qed.

(** Segments without [".."] are appended in order, whatever came before. *)
Lemma stack_no_dotdot (a : bool) (segs r : list string) :
  ".." ∉ segs → path.stack a segs r = rev (clean segs) ++ r.
Proof.
  revert r. induction segs as [|s segs IH]; intros r Hn; [done|].
  apply not_elem_of_cons in Hn as [Hs Hn].
  cbn [path.stack fold_left]. fold (path.stack a segs (path.step a r s)).
  rewrite IH by done. unfold clean. rewrite filter_cons.
  destruct (decide (kept s)) as [[H1 H2]|H].
  - rewrite step_plain by done. cbn [rev]. by rewrite <- app_assoc.
  - by rewrite step_drop.
Qed.

Lemma clean_plain (l : list string) : Forall plain l → clean l = l.
Proof.
  induction 1 as [|s l (H1 & H2 & _) _ IH]; [done|].
  unfold clean in *. rewrite filter_cons, decide_True by done. by rewrite IH.
Qed.

Lemma plain_not_dotdot (l : list string) : Forall plain l → ".." ∉ l.
Proof.
  intros H Hin. eapply Forall_forall in H as (_ & _ & H); [|done]. done.
Qed.

(** Running the loop over a result it produced below the root gives that
    result again. *)
Lemma stack_rev_plain (a : bool) (l : list string) :
  Forall plain l → path.stack a (rev l) [] = l.
Proof.
  intros H. rewrite stack_no_dotdot.
  - rewrite clean_plain by by apply Forall_rev.
    by rewrite rev_involutive, app_nil_r.
  - apply plain_not_dotdot. by apply Forall_rev.
Qed.

(** A relative path and its normal form act alike on any result so far. *)
Lemma stack_normal_form (a : bool) (segs r : list string) :
  path.stack a (rev (path.stack true segs [])) r = path.stack a segs r.
Proof.
  induction segs as [|x segs IH] using rev_ind; [done|].
  rewrite !stack_app. cbn [path.stack fold_left].
  fold (path.stack true segs []). fold (path.stack a segs r).
  rewrite <- IH.
  pose proof (stack_kept true segs) as Hk.
  destruct (seg_cases x) as [H|[->|H]].
  - by rewrite !step_drop.
  - destruct (path.stack true segs []) as [|top below] eqn:E; [done|].
    destruct (decide (top = "..")) as [->|Hne].
    + change (path.step true (".." :: below) "..") with (".." :: ".." :: below).
      cbn [rev]. by rewrite (stack_app a (_ ++ _)).
    + rewrite step_pop by done. cbn [rev]. rewrite stack_app.
      cbn [path.stack fold_left].
      inversion_clear Hk as [|? ? [H1 H2] _].
      rewrite (step_plain a _ top) by done. by rewrite step_pop.
  - rewrite (step_plain true) by done. cbn [rev]. by rewrite stack_app.
Qed.

(** ** normalize, join and resolve in terms of the segment stack *)

Lemma split_sep (a b : string) :
  Js.split (a +:+ "/" +:+ b) = Js.split a ++ Js.split b.
Proof. apply split_app. Qed.

Lemma split_trailing (p : string) : Js.split (p +:+ "/") = Js.split p ++ [""].
Proof. apply split_app. Qed.

Lemma stack_snoc_empty (a : bool) (l r : list string) :
  path.stack a (l ++ [""]) r = path.stack a l r.
Proof. by rewrite stack_app. Qed.

Lemma absolute_not_empty (p : string) : path.isAbsolute p = true → p ≠ "".
Proof. by intros H ->. Qed.

Lemma resolve_stack_plain (cwd p : string) : Forall plain (resolve_stack cwd p).
Proof.
  unfold resolve_stack. apply stack_plain.
  destruct (path.isAbsolute p); [done|]. by apply stack_plain.
Qed.

Lemma resolve_stack_atoms (cwd p : string) : Forall atom (resolve_stack cwd p).
Proof.
  unfold resolve_stack. apply stack_atoms.
  destruct (path.isAbsolute p); [done|]. by apply stack_atoms.
Qed.

Lemma resolve_form (cwd p : string) :
  path.isAbsolute cwd = true →
  path.resolve cwd p = "/" +:+ Js.join (rev (resolve_stack cwd p)).
Proof.
  intros Hcwd. pose proof (absolute_not_empty _ Hcwd) as Hne.
  apply String.eqb_neq in Hne.
  unfold path.resolve, resolve_stack, path.normalizeString.
  destruct (String.eqb_spec p "") as [->|Hp].
  - cbn [orb]. rewrite Hne, Hcwd. cbn [negb].
    by rewrite split_sep, (stack_app _ _ [""]).
  - destruct (path.isAbsolute p) eqn:Habs.
    + cbn [orb negb]. by rewrite split_trailing, stack_snoc_empty.
    + cbn [orb]. rewrite Hne, Hcwd. cbn [negb].
      by rewrite split_sep, split_trailing, stack_app, stack_snoc_empty.
Qed.

Lemma join_empty (l : list string) :
  Forall (λ s, s ≠ "") l → Js.join l = "" → l = [].
Proof.
  destruct l as [|x [|y l]]; [done| |].
  - intros H. by inversion_clear H.
  - intros H. inversion_clear H. rewrite join_cons. by destruct x.
Qed.

Lemma atom_head (c : ascii) (s : string) : atom (String c s) → c ≠ "/"%char.
Proof. intros H ->. unfold atom in H. by rewrite split_slash in H. Qed.

Lemma isAbsolute_cons (c : ascii) (s : string) :
  path.isAbsolute (String c s) = Ascii.eqb "/" c.
Proof. unfold path.isAbsolute. cbn [Js.startsWith]. apply andb_true_r. Qed.

Lemma join_relative (l : list string) (t : string) :
  Forall atom l → Forall kept l → l ≠ [] →
  path.isAbsolute (Js.join l +:+ t) = false.
Proof.
  intros Ha Hk Hl. destruct l as [|x l]; [done|].
  inversion_clear Ha as [|? ? Hx _]. inversion_clear Hk as [|? ? [Hx' _] _].
  destruct x as [|c x]; [done|]. apply atom_head in Hx.
  assert (∃ u, Js.join (String c x :: l) = String c u) as [u ->].
  { destruct l; [by eexists|]. rewrite join_cons, sapp_cons. by eexists. }
  rewrite sapp_cons, isAbsolute_cons. apply Ascii.eqb_neq. congruence.
Qed.

(** [path.normalize]: the string keeps its absoluteness, and to a later run
    of the loop it is the same as the stack it was built from. *)
Lemma normalize_absolute (p : string) :
  path.isAbsolute (path.normalize p) = path.isAbsolute p.
Proof.
  unfold path.normalize, path.normalizeString.
  destruct (String.eqb_spec p "") as [->|Hp]; [done|].
  set (F := path.stack (negb (path.isAbsolute p)) (Js.split p) []).
  assert (Forall atom F) as Ha by by apply stack_atoms.
  assert (Forall kept F) as Hk by apply stack_kept.
  destruct (String.eqb_spec (Js.join (rev F)) "") as [E|E].
  - destruct (path.isAbsolute p); [done|]. by destruct (Js.endsWithSlash p).
  - destruct (path.isAbsolute p) eqn:Habs; [by destruct (Js.endsWithSlash p)|].
    assert (rev F ≠ []) by (intros E'; by rewrite E' in E).
    destruct (Js.endsWithSlash p).
    + apply join_relative; by try apply Forall_rev.
    + rewrite <- (sapp_nil_r (Js.join _)).
      apply join_relative; by try apply Forall_rev.
Qed.

Lemma normalize_stack (a : bool) (p : string) (r : list string) :
  path.stack a (Js.split (path.normalize p)) r
  = path.stack a
      (rev (path.stack (negb (path.isAbsolute p)) (Js.split p) [])) r.
Proof.
  unfold path.normalize, path.normalizeString.
  destruct (String.eqb_spec p "") as [->|Hp]; [done|].
  set (F := path.stack (negb (path.isAbsolute p)) (Js.split p) []).
  assert (Forall atom F) as Ha by by apply stack_atoms.
  assert (Forall kept F) as Hk by apply stack_kept.
  destruct (String.eqb_spec (Js.join (rev F)) "") as [E|E].
  - apply join_empty in E.
    + rewrite E. destruct (path.isAbsolute p); [done|].
      by destruct (Js.endsWithSlash p).
    + apply Forall_rev. eapply Forall_impl; [done|]. by intros s [? _].
  - assert (rev F ≠ []) by (intros E'; by rewrite E' in E).
    assert (Js.split (Js.join (rev F)) = rev F) as Hs
      by (apply split_join; by try apply Forall_rev).
    destruct (path.isAbsolute p), (Js.endsWithSlash p).
    + rewrite sapp_cons, sapp_nil_l, split_slash, split_trailing, Hs.
      cbn [path.stack fold_left]. rewrite step_drop by (intros [? _]; done).
      apply stack_snoc_empty.
    + rewrite sapp_cons, sapp_nil_l, split_slash, Hs.
      cbn [path.stack fold_left]. by rewrite step_drop by (intros [? _]; done).
    + rewrite split_trailing, Hs. apply stack_snoc_empty.
    + by rewrite Hs.
Qed.

(** ** Joining a path without [".."] onto the root *)

Lemma join_form (root n : string) :
  path.join [root; n] = path.normalize (joined root n).
Proof.
  unfold path.join, joined.
  by destruct (filter (λ a, a ≠ "") [root; n]).
Qed.

Lemma joined_stack (a : bool) (root n : string) (r : list string) :
  path.stack a (Js.split (joined root n)) r
  = path.stack a (Js.split n) (path.stack a (Js.split root) r).
Proof.
  unfold joined. rewrite !filter_cons, filter_nil.
  destruct (decide (root ≠ "")) as [Hr|Hr], (decide (n ≠ "")) as [Hn|Hn];
    try apply dec_stable in Hr as ->; try apply dec_stable in Hn as ->;
    try done.
  by rewrite join_cons, split_app, stack_app.
Qed.

Lemma joined_absolute (root n : string) :
  path.isAbsolute n = false →
  path.isAbsolute (joined root n) = path.isAbsolute root.
Proof.
  intros Hn. unfold joined. rewrite !filter_cons, filter_nil.
  destruct (decide (root ≠ "")) as [Hr|Hr], (decide (n ≠ "")) as [Hn'|Hn'];
    try apply dec_stable in Hr as ->; try apply dec_stable in Hn' as ->;
    try done.
  rewrite join_cons. destruct root as [|c root]; [done|].
  by rewrite sapp_cons, !isAbsolute_cons.
Qed.

Lemma clean_no_dotdot (l : list string) : ".." ∉ l → Forall plain (clean l).
Proof.
  intros Hn. apply Forall_forall. intros s Hs.
  apply list_elem_of_filter in Hs as [[H1 H2] Hs].
  repeat split; [done..|]. by intros ->.
Qed.

Lemma resolve_stack_join (cwd root n : string) :
  path.isAbsolute n = false → ".." ∉ Js.split n →
  resolve_stack cwd (path.join [root; n])
  = rev (clean (Js.split n)) ++ resolve_stack cwd root.
Proof.
  intros Hn Hdd. rewrite join_form. unfold resolve_stack.
  rewrite normalize_absolute, joined_absolute, normalize_stack by done.
  rewrite joined_absolute, joined_stack by done.
  rewrite (stack_no_dotdot _ (Js.split n)) by done.
  rewrite rev_app_distr, rev_involutive, stack_app.
  pose proof (clean_no_dotdot _ Hdd) as Hplain.
  rewrite (stack_no_dotdot _ (clean _)) by by apply plain_not_dotdot.
  rewrite clean_plain by done. f_equal.
  destruct (path.isAbsolute root); cbn [negb].
  - apply stack_rev_plain. by apply stack_plain.
  - apply stack_normal_form.
Qed.

(** A path that does not include the text [".."] has no [".."] segment. *)
Lemma split_head_prefix (s seg : string) (segs : list string) :
  Js.split s = seg :: segs → Js.startsWith s seg = true.
Proof.
  revert seg segs. induction s as [|c s IH]; intros seg segs.
  - by intros [= <- <-].
  - destruct (Ascii.eqb_spec c "/") as [->|Hc].
    + rewrite split_slash. by intros [= <- <-].
    + rewrite split_other by done.
      pose proof (split_not_nil s).
      destruct (Js.split s) as [|seg' segs'] eqn:E; [done|].
      intros [= <- <-]. cbn [Js.startsWith].
      by rewrite Ascii.eqb_refl, (IH _ _ eq_refl).
Qed.

Lemma includes_dotdot_segment (s : string) :
  ".." ∈ Js.split s → Js.includes s ".." = true.
Proof.
  induction s as [|c s IH]; intros Hin.
  - by apply list_elem_of_singleton in Hin.
  - rewrite includes_unfold.
    destruct (Ascii.eqb_spec c "/") as [->|Hc].
    + rewrite split_slash in Hin. apply elem_of_cons in Hin as [?|Hin]; [done|].
      rewrite IH by done. apply orb_true_r.
    + rewrite split_other in Hin by done.
      pose proof (split_not_nil s).
      destruct (Js.split s) as [|seg segs] eqn:E; [done|].
      apply elem_of_cons in Hin as [Heq|Hin].
      * injection Heq as <- <-. apply split_head_prefix in E.
        cbn [Js.startsWith]. cbn [Js.startsWith] in E.
        rewrite Ascii.eqb_refl. cbn [andb]. by rewrite E.
      * rewrite IH; [apply orb_true_r|]. by right.
Qed.

Lemma no_dotdot_segment (s : string) :
  Js.includes s ".." = false → ".." ∉ Js.split s.
Proof.
  intros H Hin. apply includes_dotdot_segment in Hin. congruence.
Qed.

(** ** Segments of a resolved path *)

Lemma filter_all {A} (P : A → Prop) `{!∀ x, Decision (P x)} (l : list A) :
  Forall P l → filter P l = l.
Proof.
  induction 1 as [|x l Hx _ IH]; [done|].
  by rewrite filter_cons_True, IH.
Qed.

Lemma segments_resolved (l : list string) :
  Forall atom l → Forall plain l → segments ("/" +:+ Js.join l) = l.
Proof.
  intros Ha Hp. unfold segments.
  rewrite sapp_cons, sapp_nil_l, split_slash, filter_cons_False by tauto.
  destruct l as [|x l]; [done|].
  rewrite split_join by done.
  apply filter_all. eapply Forall_impl; [done|]. by intros s (? & _).
Qed.

(** What [path.resolve] returns under an absolute working directory is in
    canonical form: a slash, then its segments joined by slashes, none of
    them empty, ["."] or [".."]. *)
Lemma resolve_canonical (cwd p : string) :
  path.isAbsolute cwd = true →
  path.resolve cwd p = "/" +:+ Js.join (segments (path.resolve cwd p))
  ∧ Forall plain (segments (path.resolve cwd p)).
Proof.
  intros Hcwd. rewrite resolve_form by done.
  pose proof (resolve_stack_plain cwd p). pose proof (resolve_stack_atoms cwd p).
  rewrite segments_resolved by by apply Forall_rev.
  split; [done|]. by apply Forall_rev.
Qed.

Lemma segments_resolve (cwd p : string) :
  path.isAbsolute cwd = true →
  segments (path.resolve cwd p) = rev (resolve_stack cwd p).
Proof.
  intros Hcwd. rewrite resolve_form by done.
  apply segments_resolved; apply Forall_rev;
    [apply resolve_stack_atoms|apply resolve_stack_plain].
Qed.

(** ** validateTemplatePath *)

Lemma validate_passes (root cwd t p : string) :
  validateTemplatePath root cwd (QString t) = Some p →
  passes t ∧ p = path.join [root; path.normalize t].
Proof.
  unfold validateTemplatePath, passes, truthy.
  destruct (String.eqb_spec t "") as [->|Ht]; [done|]. cbn [negb].
  destruct (Js.startsWith (path.normalize t) ".."); [done|]. cbn [orb].
  destruct (Js.includes (path.normalize t) ".."); [done|].
  destruct (path.isAbsolute (path.normalize t)); [done|].
  destruct (negb _); [done|]. by intros [= <-].
Qed.

Lemma passes_validate (root cwd t : string) :
  path.isAbsolute cwd = true → passes t →
  validateTemplatePath root cwd (QString t)
  = Some (path.join [root; path.normalize t]).
Proof.
  intros Hcwd (Ht & Hinc & Habs).
  unfold validateTemplatePath, truthy.
  apply String.eqb_neq in Ht as ->. cbn [negb].
  rewrite (includes_startsWith _ _ Hinc), Hinc, Habs. cbn [orb].
  rewrite !resolve_form by done.
  rewrite resolve_stack_join by by try apply no_dotdot_segment.
  rewrite rev_app_distr, rev_involutive.
  destruct (join_app_prefix (rev (resolve_stack cwd root))
              (clean (Js.split (path.normalize t)))) as [rest ->].
  by rewrite <- sapp_assoc, startsWith_app.
Qed.

Lemma validate_segments (root cwd t : string) :
  path.isAbsolute cwd = true → passes t →
  segments (path.resolve cwd (path.join [root; path.normalize t]))
  = segments (path.resolve cwd root) ++ clean (Js.split (path.normalize t)).
Proof.
  intros Hcwd (Ht & Hinc & Habs). rewrite !segments_resolve by done.
  rewrite resolve_stack_join by by try apply no_dotdot_segment.
  by rewrite rev_app_distr, rev_involutive.
Qed.

Lemma validate_inside (root cwd t p : string) :
  path.isAbsolute cwd = true →
  validateTemplatePath root cwd (QString t) = Some p →
  inside (path.resolve cwd root) (path.resolve cwd p).
Proof.
  intros Hcwd Hv. apply validate_passes in Hv as [(Ht & Hinc & Habs) ->].
  unfold inside. rewrite !segments_resolve by done.
  rewrite resolve_stack_join by by try apply no_dotdot_segment.
  rewrite rev_app_distr, rev_involutive. by eexists.
Qed.

(** C1: whenever [validateTemplatePath] accepts a candidate string, the
    canonical resolution of the path it returns is the canonical resolution of
    the root directory or lies below it segment by segment (both resolutions
    being in canonical form, a slash followed by their segments), so that no
    path accepted resolves to a sibling of the root that merely shares a
    string prefix with it. [cwd] is the working directory of the process,
    which is an absolute path. *)
Theorem validateTemplatePath_contained (root cwd t p : string) :
  path.isAbsolute cwd = true →
  validateTemplatePath root cwd (QString t) = Some p →
  inside (path.resolve cwd root) (path.resolve cwd p)
  ∧ path.resolve cwd root
    = "/" +:+ Js.join (segments (path.resolve cwd root))
  ∧ path.resolve cwd p = "/" +:+ Js.join (segments (path.resolve cwd p))
  ∧ ∀ sibling, ¬ inside (path.resolve cwd root) sibling →
               path.resolve cwd p ≠ sibling.
Proof.
  intros Hcwd Hv. pose proof (validate_inside _ _ _ _ Hcwd Hv) as Hin.
  repeat split; [done|by apply resolve_canonical..|].
  intros sibling Hs E. by rewrite E in Hin.
Qed.

Lemma validateTemplatePath_contained_witness :
  path.isAbsolute "/srv/app" = true
  ∧ validateTemplatePath "/templates" "/srv/app" (QString "a/../b")
    = Some "/templates/b"
  ∧ inside (path.resolve "/srv/app" "/templates")
           (path.resolve "/srv/app" "/templates/b").
Proof.
  split; [reflexivity|]. split; [reflexivity|].
  apply (validateTemplatePath_contained "/templates" "/srv/app" "a/../b"
           "/templates/b"); reflexivity.
Defined.

(** A sibling that shares a string prefix with the root: under the root
    [/root], nothing accepted resolves to [/root-evil]. *)
Lemma sibling_never_accepted (cwd t p : string) :
  path.isAbsolute cwd = true →
  validateTemplatePath "/root" cwd (QString t) = Some p →
  path.resolve cwd p ≠ "/root-evil".
Proof.
  intros Hcwd Hv E. apply validate_inside in Hv; [|done].
  rewrite E in Hv. destruct Hv as [k Hk]. vm_compute in Hk. by destruct k.
Qed.

(** C5 does not hold as stated: ["file..pdf"] is not empty, its
    normal form is relative and its first segment is not [".."], yet it is
    rejected, because the normal form includes the text [".."]. *)
Lemma validateTemplatePath_dotdot_token_rejected :
  "file..pdf" ≠ ""
  ∧ path.normalize "file..pdf" = "file..pdf"
  ∧ path.isAbsolute (path.normalize "file..pdf") = false
  ∧ head (segments (path.normalize "file..pdf")) = Some "file..pdf"
  ∧ path.isAbsolute "/srv/app" = true
  ∧ validateTemplatePath "/templates" "/srv/app" (QString "file..pdf") = None
  ∧ validateTemplatePath "/templates" "/srv/app" (QString "file..pdf")
    ≠ Some (path.join ["/templates"; path.normalize "file..pdf"]).
Proof. repeat split; done. Qed.

(** C5, amended: a non-empty candidate whose normal form is not absolute and
    does not include the text [".."] anywhere is accepted, and what is
    returned is the root joined with the normal form; one whose normal form
    includes [".."], be it inside a longer file name, is rejected. *)
Theorem validateTemplatePath_accepts (root cwd t : string) :
  path.isAbsolute cwd = true →
  t ≠ "" →
  path.isAbsolute (path.normalize t) = false →
  (Js.includes (path.normalize t) ".." = false →
   validateTemplatePath root cwd (QString t)
   = Some (path.join [root; path.normalize t]))
  ∧ (Js.includes (path.normalize t) ".." = true →
     validateTemplatePath root cwd (QString t) = None).
Proof.
  intros Hcwd Ht Habs. split; intros Hinc.
  - by apply passes_validate.
  - unfold validateTemplatePath, truthy.
    apply String.eqb_neq in Ht as ->. cbn [negb].
    rewrite Hinc. by rewrite orb_true_r.
Qed.

Lemma validateTemplatePath_accepts_witness :
  path.isAbsolute "/srv/app" = true
  ∧ "forms/fire.pdf" ≠ ""
  ∧ path.isAbsolute (path.normalize "forms/fire.pdf") = false
  ∧ Js.includes (path.normalize "forms/fire.pdf") ".." = false
  ∧ validateTemplatePath "/templates" "/srv/app" (QString "forms/fire.pdf")
    = Some "/templates/forms/fire.pdf".
Proof.
  split; [reflexivity|]. split; [discriminate|]. split; [reflexivity|].
  split; [reflexivity|].
  apply (validateTemplatePath_accepts "/templates" "/srv/app" "forms/fire.pdf");
    [reflexivity|discriminate|reflexivity|reflexivity].
Defined.

(** C6: the five edge cases. The empty string is rejected; ["a/../b"] is
    accepted and gives the root joined with ["b"], which resolves to the
    segments of the resolved root followed by ["b"]; ["../x"],
    ["/etc/passwd"] and ["a/../../b"] are rejected. *)
Theorem validateTemplatePath_edge_cases (root cwd : string) :
  path.isAbsolute cwd = true →
  validateTemplatePath root cwd (QString "") = None
  ∧ validateTemplatePath root cwd (QString "a/../b")
    = Some (path.join [root; "b"])
  ∧ segments (path.resolve cwd (path.join [root; "b"]))
    = segments (path.resolve cwd root) ++ ["b"]
  ∧ validateTemplatePath root cwd (QString "../x") = None
  ∧ validateTemplatePath root cwd (QString "/etc/passwd") = None
  ∧ validateTemplatePath root cwd (QString "a/../../b") = None.
Proof.
  intros Hcwd. repeat split; try reflexivity.
  - by apply (passes_validate root cwd "a/../b").
  - by apply (validate_segments root cwd "a/../b").
Qed.

Lemma validateTemplatePath_edge_cases_witness :
  path.isAbsolute "/srv/app" = true
  ∧ validateTemplatePath "/templates" "/srv/app" (QString "") = None
  ∧ validateTemplatePath "/templates" "/srv/app" (QString "a/../b")
    = Some "/templates/b"
  ∧ segments (path.resolve "/srv/app" "/templates/b") = ["templates"; "b"]
  ∧ validateTemplatePath "/templates" "/srv/app" (QString "../x") = None
  ∧ validateTemplatePath "/templates" "/srv/app" (QString "/etc/passwd") = None
  ∧ validateTemplatePath "/templates" "/srv/app" (QString "a/../../b") = None.
Proof.
  split; [reflexivity|].
  apply (validateTemplatePath_edge_cases "/templates" "/srv/app"). reflexivity.
Defined.

(** ** The names of the temporary files *)

Lemma atom_cons (c : ascii) (s : string) :
  c ≠ "/"%char → atom s → atom (String c s).
Proof. unfold atom. intros Hc Hs. by rewrite split_other, Hs. Qed.

Lemma atom_tail (c : ascii) (s : string) : atom (String c s) → atom s.
Proof.
  intros H. pose proof (atom_head _ _ H) as Hc. unfold atom in *.
  rewrite split_other in H by done. pose proof (split_not_nil s).
  destruct (Js.split s) as [|seg segs]; [done|]. by injection H as -> ->.
Qed.

Lemma atom_app (s t : string) : atom s → atom t → atom (s +:+ t).
Proof.
  induction s as [|c s IH]; [done|]. intros Hs Ht. rewrite sapp_cons.
  apply atom_cons; [by eapply atom_head|]. apply IH; [|done].
  by eapply atom_tail.
Qed.

Lemma atom_uint (d : Decimal.uint) : atom (NilEmpty.string_of_uint d).
Proof. induction d; [done|by apply atom_cons..]. Qed.

Lemma atom_string_of_Z (n : Z) : atom (Js.string_of_Z n).
Proof.
  unfold Js.string_of_Z, NilZero.string_of_int, NilZero.string_of_uint.
  destruct (Z.to_int n) as [d|d]; [|apply atom_cons; [done|]];
    destruct d; try done; apply (atom_uint (_ d)).
Qed.

Lemma to_int_not_nil (n : Z) :
  Z.to_int n ≠ Decimal.Pos Decimal.Nil ∧ Z.to_int n ≠ Decimal.Neg Decimal.Nil.
Proof.
  destruct n as [|p|p]; cbn; split; try done;
    intros [= E]; by apply Unsigned.to_uint_nonnil in E.
Qed.

Lemma string_of_Z_inj (n m : Z) : Js.string_of_Z n = Js.string_of_Z m → n = m.
Proof.
  unfold Js.string_of_Z. intros E.
  apply (f_equal NilZero.int_of_string) in E.
  destruct (to_int_not_nil n), (to_int_not_nil m).
  rewrite !NilZero.isi in E by done.
  injection E as E. by apply DecimalZ.to_int_inj.
Qed.

Lemma endsWithSlash_atom (s : string) : atom s → Js.endsWithSlash s = false.
Proof.
  induction s as [|c s IH]; [done|]. intros H.
  pose proof (atom_head _ _ H) as Hc. apply atom_tail in H.
  cbn [Js.endsWithSlash]. destruct s; [by apply Ascii.eqb_neq|by apply IH].
Qed.

Lemma endsWithSlash_app (a b : string) :
  b ≠ "" → Js.endsWithSlash (a +:+ b) = Js.endsWithSlash b.
Proof.
  intros Hb. induction a as [|c a IH]; [done|].
  rewrite sapp_cons. cbn [Js.endsWithSlash].
  destruct (a +:+ b) eqn:E; [|done].
  destruct a; [|done]. by rewrite sapp_nil_l in E.
Qed.

Lemma join_snoc (l : list string) (x : string) :
  Js.join (l ++ [x])
  = match l with [] => "" | _ => Js.join l +:+ "/" end +:+ x.
Proof.
  induction l as [|y l IH]; [done|].
  destruct l as [|z l].
  - cbn [app]. rewrite join_cons. change (Js.join [y]) with y.
    change (Js.join [x]) with x. by rewrite sapp_assoc.
  - cbn [app] in *. rewrite !join_cons, IH.
    by rewrite !sapp_assoc, sapp_cons.
Qed.

Lemma join_file (dir name : string) :
  atom name → plain name →
  path.join [dir; name] = dir_prefix dir +:+ name.
Proof.
  intros Ha Hp. pose proof Hp as (Hne & _ & _).
  assert (path.isAbsolute name = false) as Hrel.
  { destruct name as [|c name]; [done|]. rewrite isAbsolute_cons.
    apply atom_head in Ha. apply Ascii.eqb_neq. congruence. }
  rewrite join_form. unfold path.normalize, path.normalizeString, dir_prefix.
  assert (joined dir name ≠ "") as Hj.
  { unfold joined. rewrite !filter_cons, filter_nil, (decide_True _ _ Hne).
    destruct (decide (dir ≠ "")); [|done]. rewrite join_cons. by destruct dir. }
  apply String.eqb_neq in Hj as ->.
  rewrite joined_absolute, joined_stack by done.
  unfold atom in Ha. rewrite Ha. cbn [path.stack fold_left].
  fold (path.stack (negb (path.isAbsolute dir)) (Js.split dir) []).
  rewrite step_plain by done. cbn [rev]. rewrite join_snoc.
  assert (Js.endsWithSlash (joined dir name) = false) as ->.
  { unfold joined. rewrite !filter_cons, filter_nil, (decide_True _ _ Hne).
    destruct (decide (dir ≠ "")).
    - rewrite join_cons. change (Js.join [name]) with name.
      rewrite (endsWithSlash_app dir (String "/" name)) by done.
      cbn [Js.endsWithSlash]. destruct name; [done|].
      by apply endsWithSlash_atom.
    - by apply endsWithSlash_atom. }
  set (pre := match rev _ with [] => "" | _ => _ end).
  assert (pre +:+ name ≠ "") as Hx.
  { destruct pre; [done|by rewrite sapp_cons]. }
  apply String.eqb_neq in Hx as ->.
  destruct (path.isAbsolute dir); subst pre; cbn [negb];
    destruct (rev _); by rewrite ?sapp_assoc, ?sapp_nil_l.
Qed.

Lemma fdf_path_form (tmp : string) (now : Z) :
  fdf_path tmp now
  = dir_prefix tmp +:+ "data_" +:+ Js.string_of_Z now +:+ ".fdf".
Proof.
  unfold fdf_path. apply join_file; [|done].
  apply (atom_app "data_"); [done|]. apply atom_app; [|done].
  apply atom_string_of_Z.
Qed.

Lemma out_path_form (tmp : string) (now : Z) :
  out_path tmp now
  = dir_prefix tmp +:+ "out_" +:+ Js.string_of_Z now +:+ ".pdf".
Proof.
  unfold out_path. apply join_file; [|done].
  apply (atom_app "out_"); [done|]. apply atom_app; [|done].
  apply atom_string_of_Z.
Qed.

Lemma fdf_path_inj (tmp : string) (n m : Z) :
  fdf_path tmp n = fdf_path tmp m → n = m.
Proof.
  rewrite !fdf_path_form. intros E.
  apply sapp_inv_head, sapp_inv_head, sapp_inv_tail in E.
  by apply string_of_Z_inj.
Qed.

Lemma out_path_inj (tmp : string) (n m : Z) :
  out_path tmp n = out_path tmp m → n = m.
Proof.
  rewrite !out_path_form. intros E.
  apply sapp_inv_head, sapp_inv_head, sapp_inv_tail in E.
  by apply string_of_Z_inj.
Qed.

(** The two files of one call never coincide. *)
Lemma fdf_out_distinct (tmp : string) (n m : Z) :
  fdf_path tmp n ≠ out_path tmp m.
Proof.
  rewrite fdf_path_form, out_path_form. intros E.
  by apply sapp_inv_head in E.
Qed.

(** C4 does not hold as stated: two different fills that read the same
    millisecond from the clock write their FDF documents to the same path and
    hand pdftk the same output path. *)
Lemma fillPdf_names_collide :
  ∃ doc1 doc2,
    doc1 ≠ doc2
    ∧ take 2 (trace (fillPdf (scenario (Ran (Some "%PDF") (Some 0%Z)) no_error)
                       "/templates/a.pdf" [("Name", JString "A")]
                       (initial ∅)).2)
      = [IoWrite tmp_fdf doc1;
         IoSpawn ["pdftk"; "/templates/a.pdf"; "fill_form"; tmp_fdf; "output";
                  tmp_out; "flatten"]]
    ∧ take 2 (trace (fillPdf (scenario (Ran (Some "%PDF") (Some 0%Z)) no_error)
                       "/templates/b.pdf" [("Name", JString "B")]
                       (initial ∅)).2)
      = [IoWrite tmp_fdf doc2;
         IoSpawn ["pdftk"; "/templates/b.pdf"; "fill_form"; tmp_fdf; "output";
                  tmp_out; "flatten"]].
Proof.
  do 2 eexists. split; [|split; vm_compute; reflexivity]. discriminate.
Qed.

(** C4, amended: the two names are made from the temporary directory and the
    millisecond clock alone, so two fills get different intermediate paths
    exactly when their clock readings differ, and likewise for the output
    paths; the two paths of one fill always differ from each other. *)
Theorem temp_names_by_clock (tmp : string) (t1 t2 : Z) :
  (fdf_path tmp t1 = fdf_path tmp t2 ↔ t1 = t2)
  ∧ (out_path tmp t1 = out_path tmp t2 ↔ t1 = t2)
  ∧ fdf_path tmp t1 ≠ out_path tmp t2.
Proof.
  split; [|split].
  - split; [apply fdf_path_inj|by intros ->].
  - split; [apply out_path_inj|by intros ->].
  - apply fdf_out_distinct.
Qed.

(** ** Escaping in buildFdf *)

Lemma string_ind2 (P : string → Prop) :
  P "" → (∀ c, P (String c "")) →
  (∀ c d s, P s → P (String d s) → P (String c (String d s))) →
  ∀ s, P s.
Proof.
  intros H0 H1 H2 s.
  enough (P s ∧ ∀ c, P (String c s)) as [? _] by done.
  induction s as [|d s [IH1 IH2]]; [by split|].
  split; [apply IH2|]. intros c. apply H2; [done|apply IH2].
Qed.

Lemma replace_char_other (c d : ascii) (rep s : string) :
  d ≠ c → replace_char c rep (String d s) = String d (replace_char c rep s).
Proof. intros H. cbn [replace_char]. by apply Ascii.eqb_neq in H as ->. Qed.

Lemma replace_char_hit (c : ascii) (rep s : string) :
  replace_char c rep (String c s) = rep +:+ replace_char c rep s.
Proof. cbn [replace_char]. by rewrite Ascii.eqb_refl. Qed.

Lemma replace_newline_other (c : ascii) (rep s : string) :
  c ≠ LF → c ≠ CR →
  replace_newline rep (String c s) = String c (replace_newline rep s).
Proof.
  intros H1 H2. cbn [replace_newline].
  apply Ascii.eqb_neq in H1 as ->. apply Ascii.eqb_neq in H2 as ->.
  by destruct s.
Qed.

Lemma replace_newline_lf (rep s : string) :
  replace_newline rep (String LF s) = rep +:+ replace_newline rep s.
Proof. reflexivity. Qed.

Lemma replace_newline_crlf (rep s : string) :
  replace_newline rep (String CR (String LF s)) = rep +:+ replace_newline rep s.
Proof. reflexivity. Qed.

Lemma replace_newline_cr (rep : string) (d : ascii) (s : string) :
  d ≠ LF →
  replace_newline rep (String CR (String d s))
  = String CR (replace_newline rep (String d s)).
Proof.
  intros H. cbn [replace_newline].
  apply Ascii.eqb_neq in H. rewrite H.
  change (Ascii.eqb CR LF) with false. cbn [andb]. by rewrite andb_false_r.
Qed.

Lemma escape_unfold (v : string) :
  escape v = replace_newline "\r" (escape3 v).
Proof. reflexivity. Qed.

Lemma escape3_special (c : ascii) (s : string) :
  special c → escape3 (String c s) = String "\" (String c (escape3 s)).
Proof. intros [->| [->| ->]]; reflexivity. Qed.

Lemma escape3_other (c : ascii) (s : string) :
  ¬ special c → escape3 (String c s) = String c (escape3 s).
Proof.
  unfold special, escape3. intros H.
  rewrite !replace_char_other by tauto. done.
Qed.

(** The first character after the character passes is a line feed only if
    it was one before. *)
Lemma escape3_head (d : ascii) (s : string) :
  d ≠ LF → ∃ d' s', escape3 (String d s) = String d' s' ∧ d' ≠ LF.
Proof.
  intros H. destruct (decide (special d)) as [Hs|Hs].
  - rewrite escape3_special by done. by eexists _, _.
  - rewrite escape3_other by done. by eexists _, _.
Qed.

Lemma escape_special (c : ascii) (s : string) :
  special c → escape (String c s) = String "\" (String c (escape s)).
Proof.
  intros H. rewrite !escape_unfold, escape3_special by done.
  rewrite !replace_newline_other;
    [done|by destruct H as [->| [->| ->]]..|done|done].
Qed.

Lemma escape_lf (s : string) : escape (String LF s) = "\r" +:+ escape s.
Proof. reflexivity. Qed.

Lemma escape_crlf (s : string) :
  escape (String CR (String LF s)) = "\r" +:+ escape s.
Proof. reflexivity. Qed.

Lemma escape_cr (d : ascii) (s : string) :
  d ≠ LF → escape (String CR (String d s)) = String CR (escape (String d s)).
Proof.
  intros H. rewrite !escape_unfold.
  rewrite (escape3_other CR) by (by intros [?| [?| ?]]).
  destruct (escape3_head d s H) as (d' & s' & -> & Hd').
  by apply replace_newline_cr.
Qed.

Lemma escape_other (c : ascii) (s : string) :
  ¬ special c → c ≠ LF → c ≠ CR → escape (String c s) = String c (escape s).
Proof.
  intros Hs H1 H2. rewrite !escape_unfold, escape3_other by done.
  by apply replace_newline_other.
Qed.

(** No raw line feed survives the escaping. *)
Lemma escape_head (s : string) :
  escape s = "" ∨ ∃ c s', escape s = String c s' ∧ c ≠ LF.
Proof.
  destruct s as [|c s]; [by left|right].
  destruct (decide (c = LF)) as [->|H1]; [rewrite escape_lf; by eexists _, _|].
  destruct (decide (special c)) as [Hs|Hs];
    [rewrite escape_special by done; by eexists _, _|].
  destruct (decide (c = CR)) as [->|H2];
    [|rewrite escape_other by done; by eexists _, _].
  destruct s as [|d s]; [by eexists _, _|].
  destruct (decide (d = LF)) as [->|Hd].
  - rewrite escape_crlf. by eexists _, _.
  - rewrite escape_cr by done. by eexists _, _.
Qed.

Lemma line_breaks_other (c : ascii) (s : string) :
  c ≠ LF → c ≠ CR → line_breaks (String c s) = String c (line_breaks s).
Proof.
  intros H1 H2. cbn [line_breaks].
  apply Ascii.eqb_neq in H1 as ->. apply Ascii.eqb_neq in H2 as ->.
  by destruct s.
Qed.

Lemma line_breaks_cr (d : ascii) (s : string) :
  d ≠ LF →
  line_breaks (String CR (String d s)) = String LF (line_breaks (String d s)).
Proof.
  intros H. cbn [line_breaks]. apply Ascii.eqb_neq in H. rewrite H.
  change (Ascii.eqb CR LF) with false. change (Ascii.eqb CR CR) with true.
  done.
Qed.

Lemma line_breaks_none (s : string) :
  has_line_break s = false → line_breaks s = s.
Proof.
  induction s as [|c s IH]; [done|]. cbn [has_line_break].
  intros H. apply orb_false_elim in H as [H Hs].
  apply orb_false_elim in H as [H1 H2].
  apply Ascii.eqb_neq in H1, H2.
  by rewrite line_breaks_other, IH.
Qed.

Lemma read_special (depth : nat) (c : ascii) (s : string) :
  special c →
  read_literal depth (String "\" (String c s)) = put c (read_literal depth s).
Proof. intros [->| [->| ->]]; reflexivity. Qed.

Lemma read_r (depth : nat) (s : string) :
  read_literal depth ("\r" +:+ s) = put CR (read_literal depth s).
Proof. reflexivity. Qed.

Lemma read_other (depth : nat) (c : ascii) (s : string) :
  ¬ special c → c ≠ LF → c ≠ CR →
  read_literal depth (String c s) = put c (read_literal depth s).
Proof.
  unfold special. intros Hs H2 H3. cbn [read_literal].
  destruct (Ascii.eqb_spec c "\"); [tauto|].
  destruct (Ascii.eqb_spec c "("); [tauto|].
  destruct (Ascii.eqb_spec c ")"); [tauto|].
  apply Ascii.eqb_neq in H2 as ->. by apply Ascii.eqb_neq in H3 as ->.
Qed.

Lemma read_cr (depth : nat) (s : string) :
  (∃ c s', s = String c s' ∧ c ≠ LF) →
  read_literal depth (String CR s) = put LF (read_literal depth s).
Proof.
  intros (c & s' & -> & H). cbn [read_literal].
  change (Ascii.eqb CR "\") with false. change (Ascii.eqb CR "(") with false.
  change (Ascii.eqb CR ")") with false.
  change (Ascii.eqb CR LF) with false. change (Ascii.eqb CR CR) with true.
  cbn match. by apply Ascii.eqb_neq in H as ->.
Qed.

Lemma read_close (rest : string) :
  read_literal 0 (String ")" rest) = Some ("", rest).
Proof. reflexivity. Qed.

(** Whatever follows, the reader stops at the parenthesis written after the
    escaped text, and has read the value with its line breaks rewritten. *)
Lemma read_escape (v rest : string) :
  read_literal 0 (escape v +:+ String ")" rest) = Some (line_breaks v, rest).
Proof.
  induction v as [|c|c d s IH1 IH2] using string_ind2; [done| |].
  - destruct (decide (c = LF)) as [->|H1]; [done|].
    destruct (decide (special c)) as [Hs|Hs].
    + rewrite escape_special by done. rewrite !sapp_cons.
      rewrite read_special by done. change (escape "") with "".
      rewrite sapp_nil_l, read_close. cbn [put].
      rewrite line_breaks_other; [done|done|by destruct Hs as [->| [->| ->]]].
    + destruct (decide (c = CR)) as [->|H2]; [done|].
      rewrite escape_other by done. rewrite sapp_cons.
      rewrite read_other by done. change (escape "") with "".
      rewrite sapp_nil_l, read_close. cbn [put].
      by rewrite line_breaks_other.
  - destruct (decide (c = LF)) as [->|H1].
    { rewrite escape_lf, sapp_assoc, read_r, IH2. done. }
    destruct (decide (special c)) as [Hs|Hs].
    { rewrite escape_special by done. rewrite !sapp_cons.
      rewrite read_special, IH2 by done. cbn [put].
      rewrite (line_breaks_other c);
        [done|done|by destruct Hs as [->| [->| ->]]]. }
    destruct (decide (c = CR)) as [->|H2].
    + destruct (decide (d = LF)) as [->|Hd].
      * rewrite escape_crlf, sapp_assoc, read_r, IH1. done.
      * rewrite escape_cr by done. rewrite sapp_cons.
        rewrite read_cr, IH2, line_breaks_cr by
          (done
           || (destruct (escape_head (String d s)) as [->|(c' & s' & -> & ?)];
               [by eexists _, _|rewrite sapp_cons; by eexists _, _])).
        done.
    + rewrite escape_other by done. rewrite sapp_cons.
      rewrite read_other, IH2, (line_breaks_other c) by done. done.
Qed.

(** C3 does not hold as stated: a value with a line feed comes back with a
    carriage return in its place. *)
Lemma buildFdf_newline_not_recovered :
  field_line "Notes" (JString ("line one" +:+ String LF "line two"))
  = Ok ("<< /T (Notes) /V (line one\rline two) >>" +:+ nl)
  ∧ read_entry ("<< /T (Notes) /V (line one\rline two) >>" +:+ nl)
    = Some ("Notes", "line one" +:+ String CR "line two", "")
  ∧ "line one" +:+ String CR "line two"
    ≠ "line one" +:+ String LF "line two".
Proof. repeat split; done. Qed.

(** The field name is written as it is: a name with a parenthesis ends its
    own literal early, and the entry no longer reads as one. *)
Lemma buildFdf_raw_key_misread :
  field_line "a)b" (JString "x") = Ok ("<< /T (a)b) /V (x) >>" +:+ nl)
  ∧ read_literal 0 ("a)b) /V (x) >>" +:+ nl)
    = Some ("a", "b) /V (x) >>" +:+ nl)
  ∧ read_entry ("<< /T (a)b) /V (x) >>" +:+ nl) = None.
Proof. repeat split. Qed.

(** C3, amended. buildFdf writes every backslash and every parenthesis of a
    value with a backslash before it, every line feed, alone or after a
    carriage return, as the two characters [\r], and a carriage return that
    no line feed follows as it is. A reader of literal strings that has read
    the parenthesis opening the [/V] literal therefore stops, whatever the
    value, at the parenthesis buildFdf wrote to close it, and what it has
    read is the value with each line feed, alone or after a carriage return,
    turned into one carriage return, and each other carriage return into a
    line feed: the value itself when it holds neither. The field name is
    written raw; when it needs no escaping and holds no line break, the whole
    entry reads back as name and value. *)
Theorem buildFdf_roundtrip (key v rest : string) :
  field_line key (JString v)
  = Ok ("<< /T (" +:+ key +:+ ") /V (" +:+ escape v +:+ ") >>" +:+ nl)
  ∧ (∀ c s, special c →
            escape (String c s) = String "\" (String c (escape s)))
  ∧ (∀ s, escape (String LF s) = "\r" +:+ escape s)
  ∧ (∀ s, escape (String CR (String LF s)) = "\r" +:+ escape s)
  ∧ (∀ d s, d ≠ LF →
            escape (String CR (String d s))
            = String CR (escape (String d s)))
  ∧ read_literal 0 (escape v +:+ ") >>" +:+ nl +:+ rest)
    = Some (line_breaks v, " >>" +:+ nl +:+ rest)
  ∧ (has_line_break v = false →
     read_literal 0 (escape v +:+ ") >>" +:+ nl +:+ rest)
     = Some (v, " >>" +:+ nl +:+ rest)
     ∧ (escape key = key → has_line_break key = false →
        ∃ line,
          field_line key (JString v) = Ok line
          ∧ read_entry (line +:+ rest) = Some (key, v, rest))).
Proof.
  split; [done|]. split; [apply escape_special|].
  split; [apply escape_lf|]. split; [apply escape_crlf|].
  split; [apply escape_cr|].
  change (") >>" +:+ nl +:+ rest) with (String ")" (" >>" +:+ nl +:+ rest)).
  split; [apply read_escape|]. intros Hv.
  split; [by rewrite read_escape, line_breaks_none|].
  intros Hk Hkb. eexists. split; [reflexivity|].
  unfold read_entry. rewrite !sapp_assoc, drop_prefix_app.
  change (") /V (" +:+ ?x) with (String ")" (" /V (" +:+ x)).
  rewrite <- Hk at 1. rewrite read_escape, line_breaks_none by done.
  rewrite drop_prefix_app.
  change (") >>" +:+ ?x) with (String ")" (" >>" +:+ x)).
  rewrite read_escape, line_breaks_none by done.
  change (" >>" +:+ nl +:+ rest) with ((" >>" +:+ nl) +:+ rest).
  by rewrite drop_prefix_app.
Qed.

Lemma buildFdf_roundtrip_witness :
  has_line_break "O'Brien (Station 3) \o/ a)b" = false
  ∧ escape "Name" = "Name"
  ∧ has_line_break "Name" = false
  ∧ ∃ line,
      field_line "Name" (JString "O'Brien (Station 3) \o/ a)b") = Ok line
      ∧ read_entry (line +:+ "")
        = Some ("Name", "O'Brien (Station 3) \o/ a)b", "").
Proof.
  split; [reflexivity|]. split; [reflexivity|]. split; [reflexivity|].
  apply (proj2 (proj2 (proj2 (proj2 (proj2 (proj2
           (buildFdf_roundtrip "Name" "O'Brien (Station 3) \o/ a)b" ""))))))
           eq_refl);
    reflexivity.
Defined.

(** ** buildFdf never throws *)

Lemma field_line_entry (key : string) (value : jsval) :
  field_line key value = Ok (entry (key, value)).
Proof. by destruct value. Qed.

Lemma build_body_entries (fieldsObj : fields) (body : string) :
  build_body fieldsObj body = Ok (body +:+ entries fieldsObj).
Proof.
  revert body. induction fieldsObj as [|[key value] rest IH]; intros body.
  - cbn. by rewrite sapp_nil_r.
  - cbn [build_body]. rewrite field_line_entry, IH. cbn [entries foldr].
    by rewrite sapp_assoc.
Qed.

Lemma buildFdf_ok (fieldsObj : fields) :
  buildFdf fieldsObj = Ok (fdf_header +:+ entries fieldsObj +:+ fdf_trailer).
Proof. unfold buildFdf. by rewrite build_body_entries. Qed.

(** C9: buildFdf returns a document for every field map, absent values
    included: the document is the header, one entry per field in order, and
    the trailer; the entry of a [null] or [undefined] value has the empty
    literal, and the field name stands in the [/T] literal as it is, with no
    escaping (a name with a parenthesis goes in raw). *)
Theorem buildFdf_total (fieldsObj : fields) :
  buildFdf fieldsObj = Ok (fdf_header +:+ entries fieldsObj +:+ fdf_trailer)
  ∧ (∀ key, entry (key, JNull) = "<< /T (" +:+ key +:+ ") /V () >>" +:+ nl)
  ∧ (∀ key, entry (key, JUndefined)
            = "<< /T (" +:+ key +:+ ") /V () >>" +:+ nl)
  ∧ (∀ key value, ∃ lit,
        entry (key, value)
        = "<< /T (" +:+ key +:+ ") /V (" +:+ lit +:+ ") >>" +:+ nl)
  ∧ entries [("a)b\", JNull); ("c", JUndefined)]
    = "<< /T (a)b\) /V () >>" +:+ nl +:+ "<< /T (c) /V () >>" +:+ nl.
Proof.
  split; [apply buildFdf_ok|]. repeat split; try done.
  intros key value. by eexists.
Qed.

(** ** The life of the temporary files *)

Lemma bind_ok {A B} (m : M A) (f : A → M B) (st st' : state) (a : A) :
  m st = (Ok a, st') → (m ≫= f) st = f a st'.
Proof. unfold mbind, M_bind. by intros ->. Qed.

Section Lifecycle.

Variable e : env.
Variables fdf out : string.

(** One existence test and removal, as [cleanup] does it twice. *)
Lemma remove_if_exists (p : string) (st : state) :
  unlink_error e p = None →
  ∃ tr, (b ← existsSync p; when b (unlinkSync e p)) st
        = (Ok tt, State (delete p (files st)) (trace st ++ tr) (console st)
                    (promise st) (seen st) (deferred st) (uncaught st)).
Proof.
  intros Hno. unfold mbind, M_bind, existsSync, unlinkSync, unlink, when.
  cbn. destruct (files st !! p) eqn:E.
  - rewrite bool_decide_true by done. cbn. rewrite E, Hno.
    unfold set_files, add_trace. cbn.
    eexists [_; _]. by rewrite <- app_assoc.
  - rewrite bool_decide_false by (by intros [? ?]).
    unfold set_files, add_trace. cbn.
    rewrite delete_id by done. by eexists [_].
Qed.

Lemma cleanup_ok (st : state) :
  (∀ p, unlink_error e p = None) →
  ∃ tr, cleanup e fdf out st
        = (Ok tt, State (delete out (delete fdf (files st))) (trace st ++ tr)
                    (console st) (promise st) (seen st) (deferred st)
                    (uncaught st)).
Proof.
  intros Hno. unfold cleanup, try_catch.
  destruct (remove_if_exists fdf st (Hno _)) as [tr1 H1].
  change (b ← existsSync fdf; when b (unlinkSync e fdf) ;;
          b0 ← existsSync out; when b0 (unlinkSync e out))
    with ((b ← existsSync fdf; when b (unlinkSync e fdf)) ;;
          (b0 ← existsSync out; when b0 (unlinkSync e out))).
  erewrite bind_ok by exact H1.
  destruct (remove_if_exists out
              (State (delete fdf (files st)) (trace st ++ tr1) (console st)
                 (promise st) (seen st) (deferred st) (uncaught st))
              (Hno _)) as [tr2 H2].
  rewrite H2. cbn. exists (tr1 ++ tr2). by rewrite app_assoc.
Qed.

Lemma tidy_deleted (fs : gmap string string) :
  tidy fdf out (delete out (delete fdf fs)).
Proof.
  split.
  - destruct (decide (out = fdf)) as [->|H];
      [apply lookup_delete_eq|].
    by rewrite lookup_delete_ne, lookup_delete_eq.
  - apply lookup_delete_eq.
Qed.

(** [cleanup] never throws and leaves the promise alone, whether the
    removals succeed or not. *)
Lemma cleanup_safe (st : state) :
  ∃ st', cleanup e fdf out st = (Ok tt, st')
         ∧ promise st' = promise st ∧ seen st' = seen st.
Proof.
  unfold cleanup, try_catch, mbind, M_bind, existsSync, unlinkSync, unlink,
    when, console_warn, mret, M_ret.
  cbn. repeat (case_match; simplify_eq/=); eauto.
Qed.

Lemma settle_pending (o : outcome) (st : state) :
  promise st = None →
  settle o st = (Ok tt, set_promise (Some o) (Some (files st)) st).
Proof. unfold settle. by intros ->. Qed.

Lemma settle_settled (o : outcome) (st : state) :
  is_Some (promise st) → settle o st = (Ok tt, st).
Proof. unfold settle. by intros [? ->]. Qed.

Lemma readFile_result (p : string) (st : state) :
  readFile e p st = (Ok (read_result e (files st) p), add_trace (IoRead p) st).
Proof. unfold readFile, read_result. cbn. by repeat case_match. Qed.

Lemma cleanup_settle (o : outcome) (st : state) :
  ∃ st', (cleanup e fdf out ;; settle o) st = (Ok tt, st')
         ∧ promise st' = first_outcome o st
         ∧ ((∀ p, unlink_error e p = None) →
            promise st = None ∨ settled_tidy fdf out st →
            settled_tidy fdf out st').
Proof.
  destruct (cleanup_safe st) as (st1 & H1 & Hp & Hs).
  erewrite bind_ok by exact H1. unfold first_outcome.
  destruct (promise st) as [o'|] eqn:E.
  - rewrite settle_settled by (rewrite Hp; eauto).
    eexists. split; [done|]. split; [done|].
    intros Hno [?|[(o1 & fs & _ & Hseen & Hfs) _]]; [done|].
    destruct (cleanup_ok st Hno) as [tr H2]. rewrite H1 in H2.
    injection H2 as ->. split; cbn; [|apply tidy_deleted].
    exists o', fs. by rewrite E.
  - rewrite settle_pending by done.
    eexists. split; [done|]. split; [done|]. intros Hno _.
    destruct (cleanup_ok st Hno) as [tr H2]. rewrite H1 in H2.
    injection H2 as ->. split; cbn; [|apply tidy_deleted].
    eexists _, _. repeat split; try done; apply tidy_deleted.
Qed.

Lemma settled_tidy_trace (ev : io_event) (st : state) :
  settled_tidy fdf out (add_trace ev st) ↔ settled_tidy fdf out st.
Proof. done. Qed.

Lemma handle_spec (ev : child_event) (st : state) :
  ∃ st', handle e fdf out ev st = (Ok tt, st')
         ∧ promise st' = first_outcome (handler_outcome e out ev (files st)) st
         ∧ ((∀ p, unlink_error e p = None) →
            promise st = None ∨ settled_tidy fdf out st →
            settled_tidy fdf out st').
Proof.
  destruct ev as [err|code]; cbn [handle handler_outcome].
  - apply cleanup_settle.
  - unfold on_close. destruct (nonzero code); [apply cleanup_settle|].
    erewrite bind_ok by apply readFile_result.
    destruct (cleanup_settle (outcome_of (read_result e (files st) out))
                (add_trace (IoRead out) st)) as (st' & H1 & H2 & H3).
    exists st'. split; [|by split].
    rewrite <- H1. by destruct (read_result e (files st) out).
Qed.

Lemma for_each_handle (events : list child_event) (st : state) :
  (∀ p, unlink_error e p = None) →
  promise st = None ∨ settled_tidy fdf out st →
  ∃ st', for_each events (handle e fdf out) st = (Ok tt, st')
         ∧ (events ≠ [] ∨ settled_tidy fdf out st →
            settled_tidy fdf out st').
Proof.
  intros Hno. revert st.
  induction events as [|ev events IH]; intros st Hst.
  - exists st. split; [done|]. by intros [?|?].
  - destruct (handle_spec ev st) as (st1 & H1 & _ & H3).
    specialize (H3 Hno Hst).
    destruct (IH st1 (or_intror H3)) as (st' & H & Hdone).
    exists st'. cbn [for_each]. erewrite bind_ok by exact H1.
    split; [done|]. intros _. apply Hdone. by right.
Qed.

End Lifecycle.

(** ** fillPdf, revised: from the call to the events *)

Lemma fillPdf_written (e : env) (templatePath : string) (data : fields)
  (st : state) :
  write_error e = None →
  fillPdf e templatePath data st
  = for_each (child_events (fill_run e))
      (handle e (fdf_path (os_tmpdir e) (now_fdf e))
         (out_path (os_tmpdir e) (now_out e)))
      (started e templatePath data st).
Proof.
  intros Hw. unfold fillPdf. rewrite buildFdf_ok.
  unfold executor, try_catch, lift, writeFileSync, new_promise, spawn_fill,
    reject, settle, mbind, M_bind, mret, M_ret, started, spawned, set_promise,
    set_files, add_trace.
  rewrite Hw. cbn. rewrite <- !app_assoc.
  destruct (fill_run e) as [err|err code|[buf|] code|[buf|]]; reflexivity.
Qed.

Lemma fillPdf_not_written (e : env) (templatePath : string) (data : fields)
  (st : state) (err : error) (created : bool) :
  write_error e = Some (err, created) →
  fillPdf e templatePath data st
  = (cleanup e (fdf_path (os_tmpdir e) (now_fdf e))
       (out_path (os_tmpdir e) (now_out e)) ;;
     new_promise ;; reject err) (write_failed e data created st).
Proof.
  intros Hw. unfold fillPdf. rewrite buildFdf_ok.
  unfold try_catch, lift, writeFileSync, mbind, M_bind, mret, M_ret,
    write_failed, set_files, add_trace.
  rewrite Hw. cbn.
  destruct created; cbn; by destruct (cleanup _ _ _ _) as [[[]|] ?].
Qed.

(** The removal is best effort. When [unlinkSync] throws on the
    intermediate file (here with EPERM) in a fill that otherwise succeeds,
    the error is logged and swallowed, the promise resolves with the PDF, and
    both temporary files are still there when the caller observes the
    outcome and afterwards. *)
Lemma fillPdf_unlink_failure_leaves_files :
  promise (fillPdf (scenario (Ran (Some "%PDF") (Some 0%Z)) (eperm_on tmp_fdf))
             "/templates/fire.pdf" [("Name", JString "A")]
             (initial templates)).2
  = Some (Resolved "%PDF")
  ∧ console (fillPdf (scenario (Ran (Some "%PDF") (Some 0%Z))
                        (eperm_on tmp_fdf))
               "/templates/fire.pdf" [("Name", JString "A")]
               (initial templates)).2
    = ["Failed to cleanup temporary files: EPERM: operation not permitted"]
  ∧ (dom <$> seen (fillPdf (scenario (Ran (Some "%PDF") (Some 0%Z))
                              (eperm_on tmp_fdf))
                     "/templates/fire.pdf" [("Name", JString "A")]
                     (initial templates)).2)
    = Some {["/templates/fire.pdf"; tmp_fdf; tmp_out]}
  ∧ dom (files (fillPdf (scenario (Ran (Some "%PDF") (Some 0%Z))
                           (eperm_on tmp_fdf))
                  "/templates/fire.pdf" [("Name", JString "A")]
                  (initial templates)).2)
    = {["/templates/fire.pdf"; tmp_fdf; tmp_out]}.
Proof. repeat split; vm_compute; reflexivity. Qed.

(** Where the code does clean up: when no removal call fails and either the
    write throws or the child sends an event (it cannot be started, or it
    closes, with any status), [fillPdf] returns, its promise settles, and
    neither the intermediate file nor the output file exists when the
    promise settles or once the call is over. *)
Lemma fillPdf_cleans_up_on_events (e : env) (templatePath : string)
  (data : fields) (st : state) :
  (∀ p, unlink_error e p = None) →
  is_Some (write_error e) ∨ child_events (fill_run e) ≠ [] →
  let fdf := fdf_path (os_tmpdir e) (now_fdf e) in
  let out := out_path (os_tmpdir e) (now_out e) in
  ∃ st' o fs,
    fillPdf e templatePath data st = (Ok tt, st')
    ∧ promise st' = Some o
    ∧ seen st' = Some fs ∧ fs !! fdf = None ∧ fs !! out = None
    ∧ files st' !! fdf = None ∧ files st' !! out = None.
Proof.
  intros Hno Hev fdf out.
  enough (∃ st', fillPdf e templatePath data st = (Ok tt, st')
                 ∧ settled_tidy fdf out st')
    as (st' & H & (o & fs & ? & ? & ? & ?) & ? & ?) by by exists st', o, fs.
  destruct (write_error e) as [[err created]|] eqn:Hw.
  - rewrite (fillPdf_not_written _ _ _ _ _ _ Hw).
    destruct (cleanup_ok e fdf out (write_failed e data created st) Hno)
      as [tr H].
    erewrite bind_ok by exact H.
    eexists. split; [reflexivity|]. cbn.
    split; [|apply tidy_deleted].
    eexists _, _. repeat split; apply tidy_deleted.
  - destruct Hev as [[? ?]|Hev]; [done|].
    rewrite (fillPdf_written _ _ _ _ Hw).
    assert (promise (started e templatePath data st) = None) as Hp.
    { unfold started. by destruct (fill_run e). }
    destruct (for_each_handle e fdf out (child_events (fill_run e))
                (started e templatePath data st) Hno (or_introl Hp))
      as (st' & H & Hdone).
    exists st'. split; [done|]. apply Hdone. by left.
Qed.

(** C2, a defect of the code. [spawn] stands unguarded in the promise
    executor, so when it throws (as Node does for every failure of the
    system call that it does not report through ['error']) the promise is
    rejected with what was thrown and [cleanup] is never called: no removal
    fails, because none is attempted, and the intermediate file written just
    before is there when the caller observes the rejection, and afterwards. *)
Theorem fillPdf_spawn_throw_skips_cleanup (e : env) (templatePath : string)
  (data : fields) (st : state) (err : error) :
  write_error e = None →
  fill_run e = SpawnThrows err →
  let fdf := fdf_path (os_tmpdir e) (now_fdf e) in
  let out := out_path (os_tmpdir e) (now_out e) in
  ∃ st' fs,
    fillPdf e templatePath data st = (Ok tt, st')
    ∧ promise st' = Some (Rejected err)
    ∧ seen st' = Some fs ∧ fs !! fdf = Some (fdf_doc data)
    ∧ files st' !! fdf = Some (fdf_doc data)
    ∧ trace st'
      = trace st
        ++ [IoWrite fdf (fdf_doc data);
            IoSpawn (fill_argv templatePath fdf out)].
Proof.
  intros Hw Hr fdf out. rewrite (fillPdf_written _ _ _ _ Hw).
  unfold started. rewrite Hr. cbn [child_events for_each].
  eexists _, _. split; [reflexivity|]. cbn. rewrite Hr. cbn.
  split; [done|]. split; [reflexivity|].
  split; [apply lookup_insert_eq|]. split; [apply lookup_insert_eq|done].
Qed.

Lemma fillPdf_spawn_throw_skips_cleanup_witness :
  write_error (scenario (SpawnThrows (Error "spawn ENOMEM")) no_error) = None
  ∧ fill_run (scenario (SpawnThrows (Error "spawn ENOMEM")) no_error)
    = SpawnThrows (Error "spawn ENOMEM")
  ∧ (∀ p, unlink_error
            (scenario (SpawnThrows (Error "spawn ENOMEM")) no_error) p
          = None)
  ∧ ∃ st' fs,
      fillPdf (scenario (SpawnThrows (Error "spawn ENOMEM")) no_error)
        "/templates/fire.pdf" [("Name", JString "A")] (initial templates)
      = (Ok tt, st')
      ∧ promise st' = Some (Rejected (Error "spawn ENOMEM"))
      ∧ seen st' = Some fs
      ∧ fs !! tmp_fdf = Some (fdf_doc [("Name", JString "A")])
      ∧ files st' !! tmp_fdf = Some (fdf_doc [("Name", JString "A")])
      ∧ trace st'
        = [IoWrite tmp_fdf (fdf_doc [("Name", JString "A")]);
           IoSpawn (fill_argv "/templates/fire.pdf" tmp_fdf tmp_out)].
Proof.
  split; [reflexivity|]. split; [reflexivity|]. split; [reflexivity|].
  apply (fillPdf_spawn_throw_skips_cleanup
           (scenario (SpawnThrows (Error "spawn ENOMEM")) no_error)
           "/templates/fire.pdf" [("Name", JString "A")] (initial templates)
           (Error "spawn ENOMEM"));
    reflexivity.
Defined.




(** ** The success path, in both versions *)

Lemma end_of_turn_one (e : env) (p x : string) (st : state) :
  deferred st = [p] → files st !! p = Some x → unlink_error e p = None →
  end_of_turn e st
  = (Ok tt, State (delete p (files st)) (trace st ++ [IoUnlink p]) (console st)
              (promise st) (seen st) [] (uncaught st)).
Proof.
  intros Hd Hf Hno.
  unfold end_of_turn. rewrite Hd.
  unfold unlink_all, try_catch, unlink, mbind, M_bind, mret, M_ret.
  cbn. by rewrite Hf, Hno.
Qed.

Section Success.

Variable e : env.
Variables (fdf out doc buf : string) (st0 : state).

Hypothesis fdf_out : fdf ≠ out.
Hypothesis has_fdf : files st0 !! fdf = Some doc.
Hypothesis has_out : files st0 !! out = Some buf.
Hypothesis read_ok : read_error e = None.
Hypothesis unlink_ok : ∀ p, unlink_error e p = None.
Hypothesis pending : promise st0 = None.

Lemma read_result_success : read_result e (files st0) out = inr buf.
Proof. unfold read_result. by rewrite has_out, read_ok. Qed.

Lemma on_close_success :
  ∃ tr,
    on_close e fdf out (Some 0%Z) st0
    = (Ok tt,
       State (delete out (delete fdf (files st0))) (trace st0 ++ tr)
         (console st0) (Some (Resolved buf))
         (Some (delete out (delete fdf (files st0))))
         (deferred st0) (uncaught st0)).
Proof.
  unfold on_close. cbn [nonzero Z.eqb negb].
  erewrite bind_ok by apply readFile_result.
  rewrite read_result_success.
  destruct (cleanup_ok e fdf out (add_trace (IoRead out) st0) unlink_ok)
    as [tr H].
  erewrite bind_ok by exact H.
  unfold resolve. rewrite settle_pending by done.
  exists ([IoRead out] ++ tr). unfold set_promise. cbn.
  by rewrite <- app_assoc.
Qed.

Hypothesis nothing_deferred : deferred st0 = [].

Lemma on_close_orig_success :
  on_close_orig e fdf out (Some 0%Z) st0
  = (Ok tt,
     State (delete out (delete fdf (files st0)))
       (trace st0 ++ [IoUnlink fdf; IoRead out; IoUnlink out])
       (console st0) (Some (Resolved buf))
       (Some (delete fdf (files st0)))
       [] (uncaught st0)).
Proof.
  unfold on_close_orig. cbn [nonzero Z.eqb negb].
  erewrite bind_ok by reflexivity.
  erewrite bind_ok;
    [|apply (end_of_turn_one e fdf doc);
      [cbn; by rewrite nothing_deferred|done|done]].
  erewrite bind_ok by apply readFile_result.
  unfold read_result. cbn [files set_deferred add_trace].
  rewrite lookup_delete_ne, has_out, read_ok by done.
  erewrite bind_ok by reflexivity.
  unfold resolve. erewrite bind_ok by (by apply settle_pending).
  erewrite (end_of_turn_one e out buf);
    [|done|cbn; by rewrite lookup_delete_ne|done].
  cbn. by rewrite <- !app_assoc.
Qed.

End Success.

Lemma fillPdf_orig_written (e : env) (templatePath : string) (data : fields)
  (st : state) :
  write_error e = None →
  fillPdf_orig e templatePath data st
  = dispatch_orig e (fdf_path (os_tmpdir e) (now_fdf e))
      (out_path (os_tmpdir e) (now_out e)) (child_events (fill_run e))
      (started e templatePath data st).
Proof.
  intros Hw. unfold fillPdf_orig. rewrite buildFdf_ok.
  unfold executor, try_catch, lift, writeFileSync, new_promise, spawn_fill,
    reject, settle, mbind, M_bind, mret, M_ret, started, spawned, set_promise,
    set_files, add_trace.
  rewrite Hw. cbn. rewrite <- !app_assoc.
  destruct (fill_run e) as [err|err code|[buf|] code|[buf|]]; reflexivity.
Qed.

Lemma spawned_has_fdf (e : env) (templatePath : string) (data : fields)
  (st : state) :
  files (spawned e templatePath data st) !! fdf_path (os_tmpdir e) (now_fdf e)
  = Some (fdf_doc data).
Proof.
  cbn. unfold tool_files.
  destruct (fill_run e) as [| |[buf|] ?|[buf|]]; rewrite ?lookup_insert_ne
    by (intros E; symmetry in E; by apply fdf_out_distinct in E);
    apply lookup_insert_eq.
Qed.

Lemma read_result_inr (e : env) (fs : gmap string string) (p buf : string) :
  read_result e fs p = inr buf → fs !! p = Some buf ∧ read_error e = None.
Proof. unfold read_result. repeat case_match; naive_solver. Qed.

(** C10, amended: take a fill in which pdftk exits with status zero, the
    output file is read, and no removal call fails. Started from the same
    files with the same template path and field map, the original and the
    revised [fillPdf] write the same document (the one [buildFdf] returns) to
    the same path and start pdftk on the same arguments, resolve with the
    same bytes, and end with the same files, neither temporary file among
    them. *)
Theorem fillPdf_versions_agree_on_success (e : env) (templatePath : string)
  (data : fields) (fs : gmap string string) (output : option string)
  (buf : string) :
  let fdf := fdf_path (os_tmpdir e) (now_fdf e) in
  let out := out_path (os_tmpdir e) (now_out e) in
  write_error e = None →
  fill_run e = Ran output (Some 0%Z) →
  read_result e (files (spawned e templatePath data (initial fs))) out
  = inr buf →
  (∀ p, unlink_error e p = None) →
  ∃ st_new st_old,
    fillPdf e templatePath data (initial fs) = (Ok tt, st_new)
    ∧ fillPdf_orig e templatePath data (initial fs) = (Ok tt, st_old)
    ∧ buildFdf data = Ok (fdf_doc data)
    ∧ take 2 (trace st_new)
      = [IoWrite fdf (fdf_doc data); IoSpawn (fill_argv templatePath fdf out)]
    ∧ take 2 (trace st_old)
      = [IoWrite fdf (fdf_doc data); IoSpawn (fill_argv templatePath fdf out)]
    ∧ promise st_new = Some (Resolved buf)
    ∧ promise st_old = Some (Resolved buf)
    ∧ files st_new = files st_old
    ∧ files st_new !! fdf = None
    ∧ files st_new !! out = None.
Proof.
  intros fdf out Hw Hrun Hread Hno.
  apply read_result_inr in Hread as [Hout Hr].
  pose proof (spawned_has_fdf e templatePath data (initial fs)) as Hfdf.
  pose proof (fdf_out_distinct (os_tmpdir e) (now_fdf e) (now_out e)) as Hne.
  rewrite (fillPdf_written _ _ _ _ Hw), (fillPdf_orig_written _ _ _ _ Hw).
  unfold started. rewrite Hrun. cbn [child_events for_each dispatch_orig].
  destruct (on_close_success e fdf out buf
              (spawned e templatePath data (initial fs)) Hout Hr Hno eq_refl)
    as [tr Hnew].
  pose proof (on_close_orig_success e fdf out (fdf_doc data) buf
                (spawned e templatePath data (initial fs)) Hne Hfdf Hout Hr
                Hno eq_refl eq_refl) as Hold.
  erewrite (bind_ok (on_close e fdf out (Some 0%Z))) by exact Hnew.
  erewrite (bind_ok (on_close_orig e fdf out (Some 0%Z))) by exact Hold.
  eexists _, _. split; [reflexivity|]. split; [reflexivity|].
  split; [apply buildFdf_ok|]. cbn.
  repeat split; try done; apply tidy_deleted.
Qed.


(** The other classes, run. *)
Lemma fillPdf_exit_code_example :
  promise (fillPdf (scenario (Ran None (Some 1%Z)) no_error)
             "/templates/fire.pdf" [("Name", JString "A")]
             (initial templates)).2
  = Some (Rejected (Error "pdftk fill_form failed with exit code 1")).
Proof. vm_compute. reflexivity. Qed.

Lemma fillPdf_success_example :
  promise (fillPdf (scenario (Ran (Some "%PDF") (Some 0%Z)) no_error)
             "/templates/fire.pdf" [("Name", JString "A")]
             (initial templates)).2
  = Some (Resolved "%PDF").
Proof. vm_compute. reflexivity. Qed.

(** C10 does not hold as stated: on the success path too the removal
    is best effort, and the two versions go about it differently. When the
    removal of the intermediate file fails, both versions resolve with the
    PDF, the revised one leaves both temporary files behind (the failure
    ends its [try] block), and the original one leaves the intermediate
    file. *)
Lemma fillPdf_versions_differ_when_unlink_fails :
  fill_run (scenario (Ran (Some "%PDF") (Some 0%Z)) (eperm_on tmp_fdf))
  = Ran (Some "%PDF") (Some 0%Z)
  ∧ promise (fillPdf (scenario (Ran (Some "%PDF") (Some 0%Z))
                        (eperm_on tmp_fdf))
               "/templates/fire.pdf" [("Name", JString "A")]
               (initial templates)).2
    = Some (Resolved "%PDF")
  ∧ promise (fillPdf_orig (scenario (Ran (Some "%PDF") (Some 0%Z))
                             (eperm_on tmp_fdf))
               "/templates/fire.pdf" [("Name", JString "A")]
               (initial templates)).2
    = Some (Resolved "%PDF")
  ∧ dom (files (fillPdf (scenario (Ran (Some "%PDF") (Some 0%Z))
                           (eperm_on tmp_fdf))
                  "/templates/fire.pdf" [("Name", JString "A")]
                  (initial templates)).2)
    = {["/templates/fire.pdf"; tmp_fdf; tmp_out]}
  ∧ dom (files (fillPdf_orig (scenario (Ran (Some "%PDF") (Some 0%Z))
                                (eperm_on tmp_fdf))
                  "/templates/fire.pdf" [("Name", JString "A")]
                  (initial templates)).2)
    = {["/templates/fire.pdf"; tmp_fdf]}.
Proof.
  repeat split; try (vm_compute; reflexivity).
Qed.

Lemma fillPdf_versions_agree_on_success_witness :
  write_error (scenario (Ran (Some "%PDF") (Some 0%Z)) no_error) = None
  ∧ fill_run (scenario (Ran (Some "%PDF") (Some 0%Z)) no_error)
    = Ran (Some "%PDF") (Some 0%Z)
  ∧ read_result (scenario (Ran (Some "%PDF") (Some 0%Z)) no_error)
      (files (spawned (scenario (Ran (Some "%PDF") (Some 0%Z)) no_error)
                "/templates/fire.pdf" [("Name", JString "A")]
                (initial templates)))
      tmp_out
    = inr "%PDF"
  ∧ (∀ p, unlink_error (scenario (Ran (Some "%PDF") (Some 0%Z)) no_error) p
          = None)
  ∧ ∃ st_new st_old,
      fillPdf (scenario (Ran (Some "%PDF") (Some 0%Z)) no_error)
        "/templates/fire.pdf" [("Name", JString "A")] (initial templates)
      = (Ok tt, st_new)
      ∧ fillPdf_orig (scenario (Ran (Some "%PDF") (Some 0%Z)) no_error)
          "/templates/fire.pdf" [("Name", JString "A")] (initial templates)
        = (Ok tt, st_old)
      ∧ promise st_new = Some (Resolved "%PDF")
      ∧ promise st_old = Some (Resolved "%PDF")
      ∧ files st_new = files st_old
      ∧ files st_new !! tmp_fdf = None
      ∧ files st_new !! tmp_out = None.
Proof.
  split; [reflexivity|]. split; [reflexivity|].
  split; [vm_compute; reflexivity|]. split; [reflexivity|].
  destruct (fillPdf_versions_agree_on_success
              (scenario (Ran (Some "%PDF") (Some 0%Z)) no_error)
              "/templates/fire.pdf" [("Name", JString "A")] templates
              (Some "%PDF") "%PDF")
    as (st_new & st_old & H1 & H2 & _ & _ & _ & H3 & H4 & H5 & H6 & H7);
    [reflexivity|reflexivity|vm_compute; reflexivity|reflexivity|].
  exists st_new, st_old. repeat split; assumption.
Defined.

(** On a failure path the versions part ways: when pdftk exits with status 1
    after writing part of the output, the revised [fillPdf] removes both
    files and the original leaves the output file behind. *)
Lemma fillPdf_versions_differ_on_failure :
  dom (files (fillPdf (scenario (Ran (Some "%PDF-part") (Some 1%Z)) no_error)
                "/templates/fire.pdf" [("Name", JString "A")]
                (initial templates)).2)
  = {["/templates/fire.pdf"]}
  ∧ dom (files (fillPdf_orig
                  (scenario (Ran (Some "%PDF-part") (Some 1%Z)) no_error)
                  "/templates/fire.pdf" [("Name", JString "A")]
                  (initial templates)).2)
    = {["/templates/fire.pdf"; tmp_out]}.
Proof. split; vm_compute; reflexivity. Qed.

(** The original has no listener for ['error']: a child that cannot be
    started ends the process with the promise pending and the intermediate
    file in place. *)
Lemma fillPdf_orig_launch_failure :
  let st' := (fillPdf_orig
                (scenario (LaunchFailure (Error "spawn pdftk ENOENT")
                             (Some (-2)%Z)) no_error)
                "/templates/fire.pdf" [("Name", JString "A")]
                (initial templates)).2 in
  promise st' = None
  ∧ uncaught st' = Some (Error "spawn pdftk ENOENT")
  ∧ is_Some (files st' !! tmp_fdf).
Proof. vm_compute. repeat split; eauto. Qed.

(** ** The handlers *)

(** C8: when the template parameter is missing or fails the validation, both
    handlers answer with status 400 and leave the world exactly as it was:
    the trace gains no event, so no process was started and no file written,
    tested or read. *)
Theorem rejected_before_io (e : env) (template : query_value)
  (req_body : option fields) (st : state) :
  truthy template = false
  ∨ validateTemplatePath (orig_root e) (process_cwd e) template = None →
  ∃ msg,
    get_fields e template st = (Ok (Some (Response 400 (JsonError msg))), st)
    ∧ post_submit e template req_body st
      = (Ok (Some (Response 400 (JsonError msg))), st).
Proof.
  intros H. unfold get_fields, post_submit, try_catch, send, mret, M_ret.
  destruct (truthy template); cbn [negb].
  - destruct H as [?| ->]; [done|]. by eexists.
  - by eexists.
Qed.

Lemma rejected_before_io_witness :
  validateTemplatePath "/templates" "/srv/app" (QString "../../../etc/passwd")
  = None
  ∧ ∃ msg,
      get_fields (scenario (Ran (Some "%PDF") (Some 0%Z)) no_error)
        (QString "../../../etc/passwd") (initial templates)
      = (Ok (Some (Response 400 (JsonError msg))), initial templates)
      ∧ post_submit (scenario (Ran (Some "%PDF") (Some 0%Z)) no_error)
          (QString "../../../etc/passwd") (Some [("Name", JString "A")])
          (initial templates)
        = (Ok (Some (Response 400 (JsonError msg))), initial templates).
Proof.
  split; [reflexivity|].
  apply (rejected_before_io (scenario (Ran (Some "%PDF") (Some 0%Z)) no_error)
           (QString "../../../etc/passwd")).
  right. reflexivity.
Defined.

(** An accepted request does reach the file system and pdftk. *)
Lemma accepted_request_example :
  let '(r, st') :=
    post_submit (scenario (Ran (Some "%PDF") (Some 0%Z)) no_error)
      (QString "fire.pdf") (Some [("Name", JString "A")]) (initial templates)
  in
  r = Ok (Some (Response 200 (PdfAttachment "%PDF")))
  ∧ take 1 (trace st') = [IoExists "/templates/fire.pdf"]
  ∧ files st' = templates.
Proof. vm_compute. repeat split. Qed.

(** * More properties *)

(** ** validateTemplatePath, further *)

(** X1: an absolute candidate is rejected, whatever it points to, the root
    included. *)
Theorem validateTemplatePath_rejects_absolute (root cwd t : string) :
  path.isAbsolute t = true →
  validateTemplatePath root cwd (QString t) = None.
Proof.
  intros Habs. unfold validateTemplatePath, truthy.
  pose proof (absolute_not_empty _ Habs) as Hne.
  apply String.eqb_neq in Hne as ->. cbn [negb].
  rewrite normalize_absolute, Habs. by destruct (_ || _).
Qed.

Lemma validateTemplatePath_rejects_absolute_witness :
  path.isAbsolute "/templates/forms/fire.pdf" = true
  ∧ validateTemplatePath "/templates" "/srv/app"
      (QString "/templates/forms/fire.pdf") = None.
Proof.
  split; [reflexivity|].
  apply (validateTemplatePath_rejects_absolute "/templates" "/srv/app").
  reflexivity.
Defined.

(** X2: a candidate that normalizes to the current directory (["."],
    ["./"], ["a/.."], ...) is accepted, and the path returned resolves to
    the root directory itself. *)
Theorem validateTemplatePath_accepts_root (root cwd t : string) :
  path.isAbsolute cwd = true →
  t ≠ "" →
  path.normalize t = "." ∨ path.normalize t = "./" →
  validateTemplatePath root cwd (QString t)
  = Some (path.join [root; path.normalize t])
  ∧ path.resolve cwd (path.join [root; path.normalize t])
    = path.resolve cwd root.
Proof.
  intros Hcwd Ht Hn.
  assert (passes t) as Hp.
  { split; [done|]. by destruct Hn as [-> | ->]. }
  split; [by apply passes_validate|].
  destruct (resolve_canonical cwd root Hcwd) as [-> _].
  destruct (resolve_canonical cwd (path.join [root; path.normalize t]) Hcwd)
    as [-> _].
  rewrite validate_segments by done.
  destruct Hn as [-> | ->]; cbn; by rewrite app_nil_r.
Qed.

Lemma validateTemplatePath_accepts_root_witness :
  path.isAbsolute "/srv/app" = true
  ∧ "forms/.." ≠ ""
  ∧ (path.normalize "forms/.." = "." ∨ path.normalize "forms/.." = "./")
  ∧ validateTemplatePath "/templates" "/srv/app" (QString "forms/..")
    = Some "/templates"
  ∧ path.resolve "/srv/app"
      (path.join ["/templates"; path.normalize "forms/.."])
    = path.resolve "/srv/app" "/templates".
Proof.
  split; [reflexivity|]. split; [discriminate|]. split; [by left|].
  apply (validateTemplatePath_accepts_root "/templates" "/srv/app" "forms/..");
    [reflexivity|discriminate|by left].
Defined.

(** ** fillPdf, revised: whatever fails *)

Lemma tidied_refl (fdf out : string) (st : state) : tidied fdf out st st.
Proof.
  split; [by left|]. split; [|done]. exists []. by rewrite app_nil_r.
Qed.

Lemma tidied_trans (fdf out : string) (st1 st2 st3 : state) :
  tidied fdf out st1 st2 → tidied fdf out st2 st3 → tidied fdf out st1 st3.
Proof.
  intros (Hf1 & (tr1 & Ht1 & Hh1) & Hd1 & Hu1)
         (Hf2 & (tr2 & Ht2 & Hh2) & Hd2 & Hu2).
  split; [|split; [|split; congruence]].
  - intros p. destruct (Hf2 p) as [E2|[? E2]]; [|by right].
    rewrite E2. apply Hf1.
  - exists (tr1 ++ tr2). rewrite Ht2, Ht1, app_assoc.
    split; [done|]. by apply Forall_app.
Qed.

(** [cleanup] never throws, leaves the promise alone, and only tidies up. *)
Lemma cleanup_tidied (e : env) (fdf out : string) (st : state) :
  ∃ st', cleanup e fdf out st = (Ok tt, st')
         ∧ promise st' = promise st ∧ seen st' = seen st
         ∧ tidied fdf out st st'.
Proof.
  unfold cleanup, try_catch, mbind, M_bind, existsSync, unlinkSync, unlink,
    when, console_warn, mret, M_ret, tidied.
  cbn. repeat (case_match; simplify_eq/=);
    (eexists; split; [reflexivity|]; cbn;
     split; [reflexivity|]; split; [reflexivity|];
     split; [file_cases fdf out|]; split; [trace_cases|by split]).
  all: exact I.
Qed.

Lemma handle_tidied (e : env) (fdf out : string) (ev : child_event)
  (st : state) :
  ∃ st', handle e fdf out ev st = (Ok tt, st') ∧ tidied fdf out st st'.
Proof.
  assert (∀ o st0, tidied fdf out st st0 →
            ∃ st', (cleanup e fdf out ;; settle o) st0 = (Ok tt, st')
                   ∧ tidied fdf out st st') as Hcs.
  { intros o st0 H0.
    destruct (cleanup_tidied e fdf out st0) as (st1 & H1 & _ & _ & Ht).
    erewrite bind_ok by exact H1.
    unfold settle. destruct (promise st1); eexists; (split; [reflexivity|]);
      by eapply tidied_trans. }
  destruct ev as [err|code]; cbn [handle].
  - apply Hcs, tidied_refl.
  - unfold on_close. destruct (nonzero code); [apply Hcs, tidied_refl|].
    erewrite bind_ok by apply readFile_result.
    destruct (Hcs (outcome_of (read_result e (files st) out))
                (add_trace (IoRead out) st)) as (st' & H1 & H2).
    { split; [by left|]. split; [|done]. exists [IoRead out].
      split; [done|]. by repeat constructor. }
    exists st'. split; [|done].
    rewrite <- H1. by destruct (read_result e (files st) out).
Qed.

Lemma for_each_tidied (e : env) (fdf out : string)
  (events : list child_event) (st : state) :
  ∃ st', for_each events (handle e fdf out) st = (Ok tt, st')
         ∧ tidied fdf out st st'.
Proof.
  revert st. induction events as [|ev events IH]; intros st.
  - exists st. split; [done|apply tidied_refl].
  - destruct (handle_tidied e fdf out ev st) as (st1 & H1 & Ht1).
    destruct (IH st1) as (st' & H & Ht).
    exists st'. cbn [for_each]. erewrite bind_ok by exact H1.
    split; [done|]. by eapply tidied_trans.
Qed.

(** The promise after the events, whatever the removals do. *)
Lemma for_each_outcome (e : env) (fdf out : string)
  (events : list child_event) (st : state) :
  ∃ st', for_each events (handle e fdf out) st = (Ok tt, st')
         ∧ promise st'
           = match promise st, events with
             | None, ev :: _ => Some (handler_outcome e out ev (files st))
             | p, _ => p
             end.
Proof.
  revert st. induction events as [|ev events IH]; intros st.
  - exists st. split; [done|]. by destruct (promise st).
  - destruct (handle_spec e fdf out ev st) as (st1 & H1 & Hp1 & _).
    destruct (IH st1) as (st' & H & Hp).
    exists st'. cbn [for_each]. erewrite bind_ok by exact H1.
    split; [done|]. rewrite Hp, Hp1. unfold first_outcome.
    destruct (promise st); by destruct events.
Qed.

Lemma fillPdf_tidied (e : env) (templatePath : string) (data : fields)
  (st : state) :
  let fdf := fdf_path (os_tmpdir e) (now_fdf e) in
  let out := out_path (os_tmpdir e) (now_out e) in
  ∃ st',
    fillPdf e templatePath data st = (Ok tt, st')
    ∧ promise st' = fill_promise e templatePath data st
    ∧ tidied fdf out
        match write_error e with
        | None => started e templatePath data st
        | Some (_, created) => write_failed e data created st
        end st'.
Proof.
  intros fdf out. unfold fill_promise.
  destruct (write_error e) as [[err created]|] eqn:Hw.
  - rewrite (fillPdf_not_written _ _ _ _ _ _ Hw).
    destruct (cleanup_tidied e fdf out (write_failed e data created st))
      as (st1 & H1 & _ & _ & Ht).
    erewrite bind_ok by exact H1. eexists. split; [reflexivity|]. done.
  - rewrite (fillPdf_written _ _ _ _ Hw).
    destruct (for_each_outcome e fdf out (child_events (fill_run e))
                (started e templatePath data st)) as (st' & H & Hp).
    destruct (for_each_tidied e fdf out (child_events (fill_run e))
                (started e templatePath data st)) as (st'' & H' & Ht).
    rewrite H in H'. injection H' as <-.
    exists st'. split; [done|]. split; [|done].
    rewrite Hp. unfold started.
    by destruct (fill_run e) as [?| |? [[| |]|]|?].
Qed.

(** X3: the revised [fillPdf] returns without throwing whatever fails, and
    what becomes of its promise does not depend on the removals: the same
    fill in a world where removals fail otherwise ends with the promise in
    the same state. That state is read off the write, the child and the
    read: rejected with the error of the write, with what [spawn] threw,
    with the launch failure or with the exit status, settled by the read of
    the output file after a close with status zero, and pending for good
    when pdftk never closes. *)
Theorem fillPdf_outcome_despite_cleanup (e : env)
  (u : string → option error) (templatePath : string) (data : fields)
  (st : state) :
  ∃ st1 st2,
    fillPdf e templatePath data st = (Ok tt, st1)
    ∧ fillPdf (with_unlink_error u e) templatePath data st = (Ok tt, st2)
    ∧ promise st1 = fill_promise e templatePath data st
    ∧ promise st2 = fill_promise e templatePath data st.
Proof.
  destruct (fillPdf_tidied e templatePath data st) as (st1 & H1 & Hp1 & _).
  destruct (fillPdf_tidied (with_unlink_error u e) templatePath data st)
    as (st2 & H2 & Hp2 & _).
  by exists st1, st2.
Qed.


(** ** The handlers of the revised server, past the validation *)

Lemma validate_truthy (root cwd : string) (template : query_value)
  (p : string) :
  validateTemplatePath root cwd template = Some p → truthy template = true.
Proof.
  unfold validateTemplatePath. destruct template as [|t|]; try done.
  by destruct (truthy (QString t)).
Qed.

Lemma existsSync_result (p : string) (st : state) :
  existsSync p st
  = (Ok (bool_decide (is_Some (files st !! p))), add_trace (IoExists p) st).
Proof. reflexivity. Qed.

(** X6: a template that passes the validation but is not there is answered
    with status 404 by both handlers, and the existence test of the path
    validated is all that happened: nothing was started, written or
    removed. *)
Theorem not_found_before_pdftk (e : env) (template : query_value)
  (req_body : option fields) (st : state) (p : string) :
  validateTemplatePath (orig_root e) (process_cwd e) template = Some p →
  files st !! p = None →
  get_fields e template st
  = (Ok (Some (Response 404 (JsonError "template not found"))),
     add_trace (IoExists p) st)
  ∧ post_submit e template req_body st
    = (Ok (Some (Response 404 (JsonError "template not found"))),
       add_trace (IoExists p) st).
Proof.
  intros Hv Hf. pose proof (validate_truthy _ _ _ _ Hv) as Ht.
  unfold get_fields, post_submit, try_catch.
  rewrite Ht, Hv. cbn [negb].
  erewrite !bind_ok by apply existsSync_result.
  rewrite Hf, bool_decide_false by (by intros [? ?]). done.
Qed.

Lemma not_found_before_pdftk_witness :
  validateTemplatePath "/templates" "/srv/app" (QString "missing.pdf")
  = Some "/templates/missing.pdf"
  ∧ files (initial templates) !! "/templates/missing.pdf" = None
  ∧ get_fields (scenario (Ran None (Some 0%Z)) no_error)
      (QString "missing.pdf") (initial templates)
    = (Ok (Some (Response 404 (JsonError "template not found"))),
       add_trace (IoExists "/templates/missing.pdf") (initial templates))
  ∧ post_submit (scenario (Ran None (Some 0%Z)) no_error)
      (QString "missing.pdf") None (initial templates)
    = (Ok (Some (Response 404 (JsonError "template not found"))),
       add_trace (IoExists "/templates/missing.pdf") (initial templates)).
Proof.
  split; [reflexivity|]. split; [by vm_compute|].
  apply (not_found_before_pdftk (scenario (Ran None (Some 0%Z)) no_error)
           (QString "missing.pdf") None (initial templates));
    [reflexivity|by vm_compute].
Defined.

Lemma submit_fill (e : env) (p : string) (data : fields) (st : state) :
  ∃ st',
    (fillPdf e p data ;;
     r ← await_fill;
     match r with
     | Some pdfBuf => send 200 (PdfAttachment pdfBuf)
     | None => mret None
     end) st
    = (match fill_promise e p data st with
       | Some (Resolved buf) => Ok (Some (Response 200 (PdfAttachment buf)))
       | Some (Rejected err) => Throw err
       | None => Ok None
       end, st').
Proof.
  destruct (fillPdf_tidied e p data st) as (st' & H & Hp & _).
  exists st'. erewrite bind_ok by exact H.
  unfold mbind, M_bind, await_fill. rewrite Hp.
  by destruct (fill_promise e p data st) as [[]|].
Qed.

Lemma fill_promise_resolved (e : env) (p : string) (data : fields)
  (st : state) (buf : string) :
  fill_promise e p data st = Some (Resolved buf) →
  write_error e = None
  ∧ (∃ output, fill_run e = Ran output (Some 0%Z))
  ∧ read_error e = None.
Proof.
  unfold fill_promise. destruct (write_error e) as [[??]|]; [done|].
  destruct (fill_run e) as [?| |output [[| |]|]|?]; try done.
  cbn. unfold read_result. repeat case_match; try done. eauto.
Qed.

Lemma fill_promise_pending (e : env) (p : string) (data : fields)
  (st : state) :
  fill_promise e p data st = None →
  write_error e = None ∧ ∃ output, fill_run e = Hangs output.
Proof.
  unfold fill_promise. destruct (write_error e) as [[??]|]; [done|].
  destruct (fill_run e) as [?| |output [[| |]|]|?]; try done. eauto.
Qed.

(** X7: what the submit handler sends, when it sends. PDF bytes go out only
    with status 200, and only when the intermediate file was written, pdftk
    closed with status zero and the output file was read; every other answer
    is a JSON error with status 400, 404 or 500, and with status 500 its
    text is the message of the error the fill was rejected with. When pdftk
    never closes, nothing is sent: the handler waits on a promise that stays
    pending, and the code sets no time limit. *)
Theorem post_submit_answers (e : env) (template : query_value)
  (req_body : option fields) (st : state) :
  (∀ resp,
     (post_submit e template req_body st).1 = Ok (Some resp) →
     match body resp with
     | PdfAttachment buf =>
         status resp = 200
         ∧ write_error e = None
         ∧ (∃ output, fill_run e = Ran output (Some 0%Z))
         ∧ read_error e = None
     | JsonError msg =>
         status resp = 400 ∨ status resp = 404
         ∨ (status resp = 500
            ∧ ∃ p err,
                validateTemplatePath (orig_root e) (process_cwd e) template
                = Some p
                ∧ fill_promise e p (default [] req_body)
                    (add_trace (IoExists p) st) = Some (Rejected err)
                ∧ msg = message err)
     | JsonFields _ => False
     end)
  ∧ (∀ p output,
       validateTemplatePath (orig_root e) (process_cwd e) template = Some p →
       is_Some (files st !! p) →
       write_error e = None →
       fill_run e = Hangs output →
       (post_submit e template req_body st).1 = Ok None).
Proof.
  unfold post_submit, try_catch. split.
  - intros resp.
    destruct (truthy template); cbn [negb];
      [|intros [= <-]; cbn; auto].
    destruct (validateTemplatePath _ _ _) as [p|] eqn:Hv;
      [|intros [= <-]; cbn; auto].
    erewrite bind_ok by apply existsSync_result.
    destruct (bool_decide _); cbn [negb]; [|intros [= <-]; cbn; auto].
    destruct (submit_fill e p (default [] req_body)
                (add_trace (IoExists p) st)) as (st' & ->).
    destruct (fill_promise _ _ _ _) as [[buf|err]|] eqn:Ho; [| |done].
    + intros [= <-]. cbn. split; [done|]. by eapply fill_promise_resolved.
    + intros [= <-]. cbn. right. right. split; [done|]. by exists p, err.
  - intros p output Hv Hf Hw Hr.
    rewrite (validate_truthy _ _ _ _ Hv), Hv. cbn [negb].
    erewrite bind_ok by apply existsSync_result.
    rewrite bool_decide_true by done. cbn [negb].
    destruct (submit_fill e p (default [] req_body)
                (add_trace (IoExists p) st)) as (st' & ->).
    unfold fill_promise. by rewrite Hw, Hr.
Qed.

Lemma post_submit_answers_witness :
  (post_submit (scenario (Ran (Some "%PDF-part") (Some 3%Z)) no_error)
     (QString "fire.pdf") (Some [("Name", JString "A")])
     (initial templates)).1
  = Ok (Some (Response 500
                (JsonError "pdftk fill_form failed with exit code 3")))
  ∧ (status (Response 500
               (JsonError "pdftk fill_form failed with exit code 3")) = 400
     ∨ status (Response 500
                 (JsonError "pdftk fill_form failed with exit code 3")) = 404
     ∨ (status (Response 500
                  (JsonError "pdftk fill_form failed with exit code 3")) = 500
        ∧ ∃ p err,
            validateTemplatePath "/templates" "/srv/app" (QString "fire.pdf")
            = Some p
            ∧ fill_promise
                (scenario (Ran (Some "%PDF-part") (Some 3%Z)) no_error) p
                [("Name", JString "A")]
                (add_trace (IoExists p) (initial templates))
              = Some (Rejected err)
            ∧ "pdftk fill_form failed with exit code 3" = message err)).
Proof.
  assert (H : (post_submit
                 (scenario (Ran (Some "%PDF-part") (Some 3%Z)) no_error)
                 (QString "fire.pdf") (Some [("Name", JString "A")])
                 (initial templates)).1
              = Ok (Some (Response 500
                            (JsonError
                               "pdftk fill_form failed with exit code 3"))))
    by (vm_compute; reflexivity).
  split; [exact H|].
  apply (proj1 (post_submit_answers
                  (scenario (Ran (Some "%PDF-part") (Some 3%Z)) no_error)
                  (QString "fire.pdf") (Some [("Name", JString "A")])
                  (initial templates))
           (Response 500
              (JsonError "pdftk fill_form failed with exit code 3")) H).
Defined.

(** X8: the field listing reads and never writes. Whatever the request and
    whatever becomes of pdftk, the handler returns without throwing, the
    files are as they were, and the calls made are at most one existence
    test, of the validated path, and one start of pdftk's field dump on that
    same path. The request stays unanswered in two cases only: pdftk could
    not be started, and its ['error'] event, which has no listener, is
    uncaught; or pdftk never closes. *)
Theorem get_fields_read_only (e : env) (template : query_value) (st : state) :
  ∃ r st',
    get_fields e template st = (Ok r, st')
    ∧ files st' = files st
    ∧ (trace st' = trace st
       ∨ ∃ p,
           validateTemplatePath (orig_root e) (process_cwd e) template
           = Some p
           ∧ (trace st' = trace st ++ [IoExists p]
              ∨ trace st'
                = trace st
                  ++ [IoExists p; IoSpawn ["pdftk"; p; "dump_data_fields"]]))
    ∧ (r = None →
       (∃ err, dump e = DumpLaunchFailure err ∧ uncaught st' = Some err)
       ∨ (dump e = DumpHangs ∧ uncaught st' = uncaught st)).
Proof.
  unfold get_fields, try_catch.
  destruct (truthy template); cbn [negb];
    [|eexists _, _; split; [reflexivity|]; cbn;
      split; [done|]; split; [by left|done]].
  destruct (validateTemplatePath _ _ _) as [p|] eqn:Hv;
    [|eexists _, _; split; [reflexivity|]; cbn;
      split; [done|]; split; [by left|done]].
  erewrite bind_ok by apply existsSync_result.
  destruct (bool_decide _); cbn [negb].
  2: { eexists _, _; split; [reflexivity|]; cbn.
       split; [done|]. split; [|done]. right. exists p. auto. }
  unfold mbind, M_bind, extractFields.
  assert (Htr : ∀ st0 : state,
            trace (add_trace (IoSpawn ["pdftk"; p; "dump_data_fields"])
                     (add_trace (IoExists p) st0))
            = trace st0
              ++ [IoExists p; IoSpawn ["pdftk"; p; "dump_data_fields"]]).
  { intros st0. cbn. by rewrite <- List.app_assoc. }
  destruct (dump e) as [err|err|stdout stderr code|];
    [| | destruct (nonzero code) |];
    (eexists _, _; split; [reflexivity|]; cbn -[app];
     split; [done|];
     split; [right; exists p; split; [done|right; apply Htr]|]);
    try done.
  - intros _. left. by exists err.
  - intros _. by right.
Qed.

(** X9: when pdftk cannot be started, the two handlers part ways. The field
    listing has no listener for the ['error'] event: the error is uncaught
    and no response is sent. The submit handler answers with status 500 and
    the spawn-failed message, logs it, and leaves no uncaught error. *)
Theorem launch_failure_fields_and_submit (e : env) (template : query_value)
  (req_body : option fields) (st : state) (p : string) (err1 err2 : error)
  (code : option Z) :
  validateTemplatePath (orig_root e) (process_cwd e) template = Some p →
  is_Some (files st !! p) →
  dump e = DumpLaunchFailure err1 →
  write_error e = None →
  fill_run e = LaunchFailure err2 code →
  (∃ st1,
     get_fields e template st = (Ok None, st1)
     ∧ uncaught st1 = Some err1)
  ∧ (∃ st2,
       post_submit e template req_body st
       = (Ok (Some (Response 500
                      (JsonError ("pdftk spawn failed: " +:+ message err2)))),
          st2)
       ∧ uncaught st2 = uncaught st
       ∧ last (console st2)
         = Some ("pdftk spawn failed: " +:+ message err2)).
Proof.
  intros Hv Hf Hd Hw Hr. pose proof (validate_truthy _ _ _ _ Hv) as Ht.
  split.
  - unfold get_fields, try_catch. rewrite Ht, Hv. cbn [negb].
    erewrite bind_ok by apply existsSync_result.
    rewrite bool_decide_true by done. cbn [negb].
    unfold mbind, M_bind, extractFields. rewrite Hd.
    eexists. split; reflexivity.
  - unfold post_submit, try_catch. rewrite Ht, Hv. cbn [negb].
    erewrite bind_ok by apply existsSync_result.
    rewrite bool_decide_true by done. cbn [negb].
    destruct (fillPdf_tidied e p (default [] req_body)
                (add_trace (IoExists p) st)) as (st' & H & Hp & Ht').
    erewrite bind_ok by exact H.
    unfold mbind at 1, M_bind at 1, await_fill. rewrite Hp.
    unfold fill_promise. rewrite Hw, Hr.
    eexists. split; [reflexivity|]. cbn.
    split; [|by rewrite last_snoc].
    rewrite Hw in Ht'. destruct Ht' as (_ & _ & _ & ->).
    unfold started. by rewrite Hr.
Qed.

Lemma launch_failure_fields_and_submit_witness :
  (∃ st1,
     get_fields pdftk_missing (QString "fire.pdf") (initial templates)
     = (Ok None, st1)
     ∧ uncaught st1 = Some (Error "spawn pdftk ENOENT"))
  ∧ (∃ st2,
       post_submit pdftk_missing (QString "fire.pdf") None (initial templates)
       = (Ok (Some (Response 500
                      (JsonError "pdftk spawn failed: spawn pdftk ENOENT"))),
          st2)
       ∧ uncaught st2 = None
       ∧ last (console st2)
         = Some "pdftk spawn failed: spawn pdftk ENOENT").
Proof.
  apply (launch_failure_fields_and_submit pdftk_missing (QString "fire.pdf")
           None (initial templates) "/templates/fire.pdf"
           (Error "spawn pdftk ENOENT") (Error "spawn pdftk ENOENT")
           (Some (-2)%Z));
    try reflexivity.
  vm_compute. eauto.
Defined.

(** ** The output of pdftk's field dump: lines and names *)

Lemma has_line_break_app (s t : string) :
  has_line_break (s +:+ t) = has_line_break s || has_line_break t.
Proof.
  induction s as [|c s IH]; [done|].
  change (String c s +:+ t) with (String c (s +:+ t)).
  cbn. rewrite IH. by rewrite !orb_assoc.
Qed.

Lemma split_lines_plain (s : string) :
  has_line_break s = false → split_lines s = [s].
Proof.
  induction s as [|c s IH]; [done|]. cbn [has_line_break].
  intros H. apply orb_false_elim in H as [H Hs].
  apply orb_false_elim in H as [Hcr Hlf].
  cbn [split_lines]. rewrite Hlf, Hcr. cbn [andb].
  rewrite (IH Hs). by destruct s.
Qed.

Lemma split_lines_lf (s t : string) :
  has_line_break s = false →
  split_lines (s +:+ String LF t) = s :: split_lines t.
Proof.
  induction s as [|c s IH]; [done|]. cbn [has_line_break].
  intros H. apply orb_false_elim in H as [H Hs].
  apply orb_false_elim in H as [Hcr Hlf].
  change (String c s +:+ String LF t) with (String c (s +:+ String LF t)).
  cbn [split_lines]. rewrite Hlf, Hcr. cbn [andb].
  rewrite (IH Hs). by destruct s.
Qed.

Lemma split_lines_crlf (s t : string) :
  has_line_break s = false →
  split_lines (s +:+ String CR (String LF t)) = s :: split_lines t.
Proof.
  induction s as [|c s IH]; [done|]. cbn [has_line_break].
  intros H. apply orb_false_elim in H as [H Hs].
  apply orb_false_elim in H as [Hcr Hlf].
  change (String c s +:+ String CR (String LF t))
    with (String c (s +:+ String CR (String LF t))).
  cbn [split_lines]. rewrite Hlf, Hcr. cbn [andb].
  rewrite (IH Hs). by destruct s.
Qed.

Lemma split_lines_concat (sep : string) (ls : list string) :
  sep = nl ∨ sep = crlf →
  ls ≠ [] →
  Forall (λ l, has_line_break l = false) ls →
  split_lines (String.concat sep ls) = ls.
Proof.
  intros Hsep Hne Hls. induction Hls as [|l ls Hl Hls IH]; [done|].
  destruct ls as [|l' ls]; [by apply split_lines_plain|].
  change (String.concat sep (l :: l' :: ls))
    with (l +:+ sep +:+ String.concat sep (l' :: ls)).
  destruct Hsep as [-> | ->].
  - change (l +:+ nl +:+ ?t) with (l +:+ String LF t).
    rewrite split_lines_lf by done. by rewrite IH.
  - change (l +:+ crlf +:+ ?t) with (l +:+ String CR (String LF t)).
    rewrite split_lines_crlf by done. by rewrite IH.
Qed.

(** X10: splitting into lines undoes joining, for both line ends. Lines that
    hold no carriage return and no line feed, joined with line feeds or with
    carriage return and line feed pairs, are split back into the same lines,
    so the line end pdftk prints makes no difference to what is parsed. *)
Theorem split_lines_join (ls : list string) :
  ls ≠ [] →
  Forall (λ l, has_line_break l = false) ls →
  split_lines (String.concat nl ls) = ls
  ∧ split_lines (String.concat crlf ls) = ls.
Proof.
  intros Hne Hls. split; apply split_lines_concat; auto.
Qed.

Lemma split_lines_join_witness :
  ["FieldName: Name"; ""; "FieldName: Date"] ≠ []
  ∧ Forall (λ l, has_line_break l = false)
      ["FieldName: Name"; ""; "FieldName: Date"]
  ∧ split_lines
      (String.concat nl ["FieldName: Name"; ""; "FieldName: Date"])
    = ["FieldName: Name"; ""; "FieldName: Date"]
  ∧ split_lines
      (String.concat crlf ["FieldName: Name"; ""; "FieldName: Date"])
    = ["FieldName: Name"; ""; "FieldName: Date"].
Proof.
  split; [done|]. split; [by repeat constructor|].
  apply (split_lines_join ["FieldName: Name"; ""; "FieldName: Date"]);
    [done|by repeat constructor].
Defined.

Lemma white_space_some (s w rest : string) :
  white_space s = Some (w, rest) → s = w +:+ rest ∧ w ≠ "".
Proof.
  unfold white_space. intros H.
  repeat (case_match; simplify_eq/=); done.
Qed.

Lemma white_space_app (w rest : string) :
  white_char w → white_space (w +:+ rest) = Some (w, rest).
Proof.
  unfold white_char, white_space. intros H.
  destruct w as [|c [|d [|f w]]]; simplify_eq/=;
    repeat (case_match; simplify_eq/=); try done.
Qed.

Lemma white_space_char (s w rest : string) :
  white_space s = Some (w, rest) → white_char w.
Proof.
  unfold white_char, white_space. intros H.
  repeat (case_match; simplify_eq/=); try done.
Qed.

Lemma white_char_not_empty (w : string) : white_char w → w ≠ "".
Proof. by intros H ->. Qed.

Lemma slength_app (s t : string) :
  String.length (s +:+ t) = String.length s + String.length t.
Proof. induction s as [|c s IH]; [done|]. rewrite sapp_cons. cbn. lia. Qed.

Lemma skip_white_run (fuel : nat) (s : string) (last l : option string)
  (r : string) :
  skip_white fuel s last = (l, r) →
  ∃ pad,
    white_text pad ∧ s = pad +:+ r
    ∧ ((pad = "" ∧ l = last)
       ∨ ∃ pad' w,
           white_text pad' ∧ white_char w ∧ pad = pad' +:+ w ∧ l = Some w).
Proof.
  revert s last. induction fuel as [|fuel IH]; intros s last; cbn.
  - intros [= <- <-]. exists "". split; [constructor|]. auto.
  - destruct (white_space s) as [[w rest]|] eqn:Hw.
    + intros H. apply IH in H as (pad & Hpad & -> & Hl).
      apply white_space_some in Hw as Hs. destruct Hs as [-> _].
      apply white_space_char in Hw.
      exists (w +:+ pad). split; [by constructor|].
      split; [by rewrite sapp_assoc|]. right.
      destruct Hl as [[-> ->]|(pad' & w' & Hpad' & Hw' & -> & ->)].
      * exists "", w. split; [constructor|]. by rewrite sapp_nil_r.
      * exists (w +:+ pad'), w'. split; [by constructor|].
        by rewrite sapp_assoc.
    + intros [= <- <-]. exists "". split; [constructor|]. auto.
Qed.

Lemma skip_white_all (fuel : nat) (s : string) (last l : option string)
  (r : string) :
  skip_white fuel s last = (l, r) →
  String.length s ≤ fuel →
  white_space r = None.
Proof.
  revert s last. induction fuel as [|fuel IH]; intros s last; cbn.
  - intros [= <- <-] H. by destruct s; [|cbn in H; lia].
  - destruct (white_space s) as [[w rest]|] eqn:Hw.
    + intros H Hlen. apply (IH _ _ H).
      apply white_space_some in Hw as [-> Hne]. rewrite slength_app in Hlen.
      destruct w; [done|]. cbn in Hlen. lia.
    + by intros [= <- <-] _.
Qed.

Lemma skip_white_text (pad n : string) :
  white_text pad → white_space n = None →
  ∀ fuel last,
    String.length pad ≤ fuel →
    ∃ l, skip_white fuel (pad +:+ n) last = (l, n).
Proof.
  intros Hpad Hn. induction Hpad as [|w s Hw Hs IH]; intros fuel last Hlen.
  - rewrite sapp_nil_l. exists last. destruct fuel; cbn; [done|].
    by rewrite Hn.
  - rewrite slength_app in Hlen. rewrite sapp_assoc.
    destruct fuel as [|fuel].
    { apply white_char_not_empty in Hw. destruct w; [done|].
      cbn in Hlen. lia. }
    cbn. rewrite (white_space_app _ _ Hw). apply IH.
    apply white_char_not_empty in Hw. destruct w; [done|].
    cbn in Hlen. lia.
Qed.

(** X11: what the pattern of extractFields gives back. A line matches only
    as [FieldName:], white space, and the name returned, which ends the
    line; the name is not empty and holds no line terminator, and it does
    not begin with white space unless it is one white space character that
    ends a line with nothing else after the colon. *)
Theorem FieldName_match_sound (line n : string) :
  FieldName_match line = Some n →
  n ≠ "" ∧ has_line_terminator n = false
  ∧ (white_space n = None ∨ white_char n)
  ∧ ∃ pad, white_text pad ∧ line = "FieldName:" +:+ pad +:+ n.
Proof.
  unfold FieldName_match.
  destruct (drop_prefix _ line) as [rest|] eqn:Hp; [|done].
  apply drop_prefix_some in Hp as ->.
  destruct (skip_white _ rest None) as [l r] eqn:Hs.
  pose proof (skip_white_all _ _ _ _ _ Hs (le_n _)) as Hall.
  apply skip_white_run in Hs as (pad & Hpad & -> & Hl).
  destruct r as [|c r].
  - destruct l as [w|]; [|done].
    destruct (has_line_terminator w) eqn:Ht; [done|]. intros [= <-].
    destruct Hl as [[_ ?]|(pad' & w' & Hpad' & Hw' & -> & [= ->])]; [done|].
    split; [by apply white_char_not_empty|]. split; [done|].
    split; [by right|]. exists pad'. split; [done|].
    by rewrite sapp_nil_r.
  - destruct (has_line_terminator (String c r)) eqn:Ht; [done|].
    intros [= <-]. split; [done|]. split; [done|]. split; [by left|].
    by exists pad.
Qed.

Lemma FieldName_match_sound_witness :
  FieldName_match "FieldName:   Inspector name" = Some "Inspector name"
  ∧ "Inspector name" ≠ ""
  ∧ has_line_terminator "Inspector name" = false
  ∧ (white_space "Inspector name" = None ∨ white_char "Inspector name")
  ∧ ∃ pad,
      white_text pad
      ∧ "FieldName:   Inspector name" = "FieldName:" +:+ pad +:+ "Inspector name".
Proof.
  split; [reflexivity|].
  apply (FieldName_match_sound "FieldName:   Inspector name"
           "Inspector name").
  reflexivity.
Defined.

(** X12: the pattern finds the name. After [FieldName:] and any white space,
    a name that is not empty, does not begin with white space and holds no
    line terminator is returned whole; a line that does not begin with
    [FieldName:] gives nothing. *)
Theorem FieldName_match_complete (pad n other : string) :
  white_text pad →
  field_name n →
  drop_prefix "FieldName:" other = None →
  FieldName_match ("FieldName:" +:+ pad +:+ n) = Some n
  ∧ FieldName_match other = None.
Proof.
  intros Hpad (Hne & Hw & Ht) Ho. split.
  - unfold FieldName_match. rewrite drop_prefix_app.
    destruct (skip_white_text pad n Hpad Hw (String.length (pad +:+ n)) None)
      as [l ->].
    { rewrite slength_app. lia. }
    destruct n; [done|]. by rewrite Ht.
  - unfold FieldName_match. by rewrite Ho.
Qed.

Lemma FieldName_match_complete_witness :
  white_text " "
  ∧ field_name "Date of inspection"
  ∧ drop_prefix "FieldName:" "FieldNameAlt: Date" = None
  ∧ FieldName_match ("FieldName:" +:+ " " +:+ "Date of inspection")
    = Some "Date of inspection"
  ∧ FieldName_match "FieldNameAlt: Date" = None.
Proof.
  assert (Hpad : white_text " ").
  { apply (white_cons " " ""); [reflexivity|constructor]. }
  assert (Hn : field_name "Date of inspection").
  { split; [done|]. split; reflexivity. }
  split; [exact Hpad|]. split; [exact Hn|]. split; [reflexivity|].
  apply (FieldName_match_complete " " "Date of inspection"
           "FieldNameAlt: Date" Hpad Hn).
  reflexivity.
Defined.

Lemma includes_char (s : string) (c : ascii) :
  Js.includes s (String c "") = false →
  ∀ d r, s = String d r → Ascii.eqb d c = false ∧ Js.includes r (String c "") = false.
Proof.
  intros H d r ->. cbn in H. apply orb_false_elim in H as [H1 H2].
  split; [|done]. rewrite Ascii.eqb_sym.
  destruct (Ascii.eqb c d); [|done]. by destruct r.
Qed.

Lemma no_terminator_no_break (s : string) :
  has_line_terminator s = false → has_line_break s = false.
Proof.
  unfold has_line_terminator. intros H.
  apply orb_false_elim in H as [H _]. apply orb_false_elim in H as [H _].
  apply orb_false_elim in H as [Hlf Hcr].
  induction s as [|d s IH]; [done|].
  destruct (includes_char _ _ Hlf d s eq_refl) as [H1 H2].
  destruct (includes_char _ _ Hcr d s eq_refl) as [H3 H4].
  cbn [has_line_break]. rewrite H1, H3. by apply IH.
Qed.

Lemma well_formed_line (l : dump_line) :
  well_formed l → has_line_break (print_line l) = false.
Proof.
  destruct l as [n|t]; cbn [well_formed print_line].
  - intros (_ & _ & H). rewrite has_line_break_app.
    by rewrite (no_terminator_no_break _ H).
  - by intros [_ ?].
Qed.

Lemma well_formed_match (l : dump_line) :
  well_formed l →
  FieldName_match (print_line l)
  = match l with NameLine n => Some n | OtherLine _ => None end.
Proof.
  destruct l as [n|t]; cbn [well_formed print_line].
  - intros Hn.
    change ("FieldName: " +:+ n) with ("FieldName:" +:+ " " +:+ n).
    unfold FieldName_match. rewrite drop_prefix_app.
    destruct Hn as (Hne & Hw & Ht).
    assert (Hpad : white_text " ").
    { apply (white_cons " " ""); [reflexivity|constructor]. }
    destruct (skip_white_text " " n Hpad Hw (String.length (" " +:+ n)) None)
      as [l ->].
    { rewrite slength_app. lia. }
    destruct n; [done|]. by rewrite Ht.
  - intros [Ho _]. unfold FieldName_match. by rewrite Ho.
Qed.

(** X13: the field listing returns the names pdftk printed. When pdftk exits
    with status zero and its output is a sequence of lines, each the name of
    a field after [FieldName: ] or a line that does not begin with
    [FieldName:], joined by line feeds or by carriage return and line feed
    pairs, extractFields resolves with exactly the names, in the order
    printed, after starting pdftk once. *)
Theorem extractFields_names (e : env) (templatePath : string) (st : state)
  (sep stderr : string) (ls : list dump_line) :
  match_FieldName e = FieldName_match →
  sep = nl ∨ sep = crlf →
  ls ≠ [] →
  Forall well_formed ls →
  dump e = DumpRan (String.concat sep (map print_line ls)) stderr (Some 0%Z) →
  extractFields e templatePath st
  = (Ok (Some (names_of ls)),
     add_trace (IoSpawn ["pdftk"; templatePath; "dump_data_fields"]) st).
Proof.
  intros Hm Hsep Hne Hls Hd. unfold extractFields. rewrite Hd. cbn [nonzero].
  change (negb (0 =? 0)%Z) with false. cbv iota.
  unfold parse_fields. rewrite Hm.
  rewrite split_lines_concat; [|done|by destruct ls|].
  - do 3 f_equal. clear Hne Hd. unfold names_of.
    induction Hls as [|l ls Hl Hls IH]; [done|].
    cbn. rewrite (well_formed_match _ Hl).
    destruct l; by rewrite <- IH.
  - apply Forall_map. eapply Forall_impl; [exact Hls|].
    intros l. apply well_formed_line.
Qed.

Lemma extractFields_names_witness :
  match_FieldName (dump_scenario crlf) = FieldName_match
  ∧ (crlf = nl ∨ crlf = crlf)
  ∧ sample_dump ≠ []
  ∧ Forall well_formed sample_dump
  ∧ extractFields (dump_scenario crlf) "/templates/fire.pdf"
      (initial templates)
    = (Ok (Some ["Name"; "Date"]),
       add_trace (IoSpawn ["pdftk"; "/templates/fire.pdf"; "dump_data_fields"])
         (initial templates)).
Proof.
  assert (Hwf : Forall well_formed sample_dump).
  { repeat (apply List.Forall_cons; [by repeat split|]). apply List.Forall_nil. }
  split; [reflexivity|]. split; [by right|]. split; [done|].
  split; [exact Hwf|].
  apply (extractFields_names (dump_scenario crlf) "/templates/fire.pdf"
           (initial templates) crlf "" sample_dump);
    [reflexivity|by right|done|exact Hwf|reflexivity].
Defined.

(** ** The shape of an escaped value *)

Lemma well_escaped_escape (d : ascii) (s : string) :
  d = "\"%char ∨ d = "("%char ∨ d = ")"%char ∨ d = "r"%char →
  well_escaped (String "\" (String d s)) = well_escaped s.
Proof. by intros [->| [->| [->| ->]]]. Qed.

Lemma well_escaped_other (c : ascii) (s : string) :
  ¬ special c → c ≠ LF →
  well_escaped (String c s) = well_escaped s.
Proof.
  unfold special. intros Hs Hlf. cbn [well_escaped].
  destruct (Ascii.eqb_spec c "\"); [tauto|].
  destruct (Ascii.eqb_spec c "("); [tauto|].
  destruct (Ascii.eqb_spec c ")"); [tauto|].
  by destruct (Ascii.eqb_spec c LF).
Qed.

(** X14: whatever the value, its escaped form is made of the escapes for the
    backslash, the two parentheses and the carriage return, and of
    characters that need none: no parenthesis is left bare, no backslash is
    left without the character it escapes (so the parenthesis that closes
    the literal is never escaped by the value), and no line feed is left. *)
Theorem escape_well_escaped (v : string) : well_escaped (escape v) = true.
Proof.
  induction v as [|c|c d s IH1 IH2] using string_ind2; [done| |].
  - destruct (decide (c = LF)) as [->|H1]; [done|].
    destruct (decide (special c)) as [Hs|Hs].
    + rewrite escape_special by done.
      rewrite well_escaped_escape; [done|]. unfold special in Hs. tauto.
    + destruct (decide (c = CR)) as [->|H2]; [done|].
      by rewrite escape_other, well_escaped_other.
  - destruct (decide (c = LF)) as [->|H1].
    { rewrite escape_lf. change ("\r" +:+ ?x) with (String "\" (String "r" x)).
      rewrite well_escaped_escape; [done|tauto]. }
    destruct (decide (special c)) as [Hs|Hs].
    { rewrite escape_special by done.
      rewrite well_escaped_escape; [done|]. unfold special in Hs. tauto. }
    destruct (decide (c = CR)) as [->|H2];
      [|by rewrite escape_other, well_escaped_other].
    destruct (decide (d = LF)) as [->|Hd].
    + rewrite escape_crlf.
      change ("\r" +:+ ?x) with (String "\" (String "r" x)).
      rewrite well_escaped_escape; [done|tauto].
    + rewrite escape_cr by done. by rewrite well_escaped_other.
Qed.

(** ** The original server: no guard on the template *)

Lemma stack_climb (a : bool) (l r : list string) :
  Forall plain l → path.stack a (replicate (length l) "..") (l ++ r) = r.
Proof.
  induction 1 as [|x l (_ & _ & Hx) _ IH]; [done|].
  cbn [length replicate path.stack fold_left app].
  rewrite step_pop by done. apply IH.
Qed.

Lemma stack_dotdots (k j : nat) :
  path.stack true (replicate k "..") (replicate j "..")
  = replicate (k + j) "..".
Proof.
  revert j. induction k as [|k IH]; intros j; [done|].
  cbn [replicate path.stack fold_left].
  replace (path.step true (replicate j "..") "..")
    with (replicate (S j) "..") by by destruct j.
  fold (path.stack true (replicate k "..") (replicate (S j) "..")).
  rewrite IH. f_equal. lia.
Qed.

Lemma rev_replicate (k : nat) (x : string) :
  rev (replicate k x) = replicate k x.
Proof.
  induction k as [|k IH]; [done|]. cbn [replicate rev]. rewrite IH.
  clear IH. induction k as [|k IH]; [done|]. cbn. by rewrite IH.
Qed.

Lemma climb_segments (k : nat) (segs : list string) :
  Forall atom segs → segs ≠ [] →
  Js.split (climb k segs) = replicate k ".." ++ segs.
Proof.
  intros Ha Hne. apply split_join; [|by destruct k, segs].
  apply Forall_app. split; [|done].
  apply Forall_replicate. apply atom_dotdot.
Qed.

Lemma climb_not_empty (k : nat) (segs : list string) :
  Forall plain segs → segs ≠ [] → climb k segs ≠ "".
Proof.
  intros Hp Hne E. apply join_empty in E; [by destruct k, segs|].
  apply Forall_app. split; [by apply Forall_replicate|].
  eapply Forall_impl; [exact Hp|]. by intros s [? _].
Qed.

Lemma climb_no_trailing (k : nat) (segs : list string) :
  Forall atom segs → Forall plain segs → segs ≠ [] →
  Js.endsWithSlash (climb k segs) = false.
Proof.
  intros Ha Hp Hne. unfold climb.
  destruct segs as [|x segs _] using rev_ind; [done|].
  apply Forall_app in Ha as [_ Hx]. apply Forall_app in Hp as [_ Hx'].
  inversion_clear Hx as [|? ? Hx1 _]. inversion_clear Hx' as [|? ? [Hx2 _] _].
  rewrite app_assoc, join_snoc.
  rewrite endsWithSlash_app by done. by apply endsWithSlash_atom.
Qed.

Lemma climb_relative (k : nat) (segs : list string) :
  Forall atom segs → Forall plain segs → segs ≠ [] →
  path.isAbsolute (climb k segs) = false.
Proof.
  intros Ha Hp Hne. unfold climb. rewrite <- (sapp_nil_r (Js.join _)).
  apply join_relative.
  - apply Forall_app. split; [|done].
    apply Forall_replicate. apply atom_dotdot.
  - apply Forall_app. split; [by apply Forall_replicate|].
    eapply Forall_impl; [exact Hp|]. intros s (? & ? & _). by split.
  - by destruct k, segs.
Qed.

(** [path.join] follows the climb: from a root of [k] segments, [k] times
    [".."] and then the segments of any path lead to that path. *)
Lemma join_climb (root target : string) (rsegs tsegs : list string) :
  canonical root rsegs → canonical target tsegs → tsegs ≠ [] →
  path.join [root; climb (length rsegs) tsegs] = target.
Proof.
  intros (Har & Hpr & ->) (Hat & Hpt & ->) Hne.
  pose proof (climb_not_empty (length rsegs) tsegs Hpt Hne) as Ht.
  set (t := climb (length rsegs) tsegs) in *.
  unfold path.join. rewrite !filter_cons, filter_nil.
  rewrite decide_True by done. rewrite decide_True by done.
  change (Js.join ["/" +:+ Js.join rsegs; t])
    with (String "/" (Js.join rsegs +:+ String "/" t)).
  unfold path.normalize, path.normalizeString.
  cbn [String.eqb path.isAbsolute Js.startsWith Ascii.eqb Bool.eqb andb negb].
  change (String "/" (Js.join rsegs +:+ String "/" t))
    with (("/" +:+ Js.join rsegs) +:+ String "/" t).
  assert (Js.endsWithSlash (("/" +:+ Js.join rsegs) +:+ String "/" t) = false)
    as ->.
  { rewrite endsWithSlash_app by done.
    change (String "/" t) with ("/" +:+ t).
    rewrite endsWithSlash_app by done.
    by apply climb_no_trailing. }
  rewrite split_app.
  change (Js.split ("/" +:+ Js.join rsegs))
    with ("" :: Js.split (Js.join rsegs)).
  unfold t. rewrite climb_segments by done.
  assert (path.stack false ("" :: Js.split (Js.join rsegs)) [] = rev rsegs)
    as Hroot.
  { cbn [path.stack fold_left]. rewrite step_drop by (intros [? _]; done).
    destruct rsegs as [|x rsegs]; [done|].
    rewrite split_join by done.
    rewrite <- (rev_involutive (x :: rsegs)) at 1.
    apply stack_rev_plain. by apply Forall_rev. }
  rewrite stack_app, Hroot, stack_app.
  pose proof (stack_climb false (rev rsegs) [] (Forall_rev Hpr)) as Hc.
  rewrite length_rev, app_nil_r in Hc. rewrite Hc.
  pose proof (stack_rev_plain false (rev tsegs) (Forall_rev Hpt)) as Hd.
  rewrite rev_involutive in Hd. rewrite Hd, rev_involutive.
  destruct (String.eqb_spec (Js.join tsegs) "") as [E|E]; [|done].
  apply join_empty in E; [done|].
  eapply Forall_impl; [exact Hpt|]. by intros s [? _].
Qed.

(** The climb is its own normal form. *)
Lemma normalize_climb (k : nat) (segs : list string) :
  Forall atom segs → Forall plain segs → segs ≠ [] →
  path.normalize (climb k segs) = climb k segs.
Proof.
  intros Ha Hp Hne.
  pose proof (climb_not_empty k segs Hp Hne) as Ht.
  unfold path.normalize, path.normalizeString.
  apply String.eqb_neq in Ht as Ht'. rewrite Ht'.
  rewrite climb_relative, climb_no_trailing, climb_segments by done.
  cbn [negb]. rewrite stack_app.
  change (path.stack true (replicate k "..") [])
    with (path.stack true (replicate k "..") (replicate 0 "..")).
  rewrite stack_dotdots, Nat.add_0_r.
  rewrite stack_no_dotdot by by apply plain_not_dotdot.
  rewrite clean_plain by done.
  rewrite rev_app_distr, rev_involutive, rev_replicate.
  fold (climb k segs). by rewrite Ht'.
Qed.

Lemma validate_climb (root cwd : string) (k : nat) (segs : list string) :
  Forall atom segs → Forall plain segs → segs ≠ [] →
  validateTemplatePath root cwd (QString (climb (S k) segs)) = None.
Proof.
  intros Ha Hp Hne. unfold validateTemplatePath.
  destruct (truthy _); [|done]. cbn [negb].
  rewrite normalize_climb by done.
  assert (Js.startsWith (climb (S k) segs) ".." = true) as ->; [|done].
  unfold climb. cbn [replicate app].
  destruct (replicate k ".." ++ segs) as [|y l] eqn:E; [by destruct k, segs|].
  rewrite join_cons. apply startsWith_app.
Qed.

(** X15: the original server hands any file of the host to pdftk, and the
    revised one does not. For every root and every file that exists, the
    template made of one [".."] for each segment of the root followed by
    the path of the file is joined by the original handler to that very
    path, found to exist and passed to pdftk; the revised handler answers
    the same request with status 400 and does nothing. *)
Theorem original_reaches_any_file (e : env) (arg_type_error : error)
  (rsegs tsegs : list string) (target : string) (st : state) :
  canonical (orig_root e) rsegs → rsegs ≠ [] →
  canonical target tsegs → tsegs ≠ [] →
  is_Some (files st !! target) →
  (∃ r st',
     get_fields_orig e arg_type_error
       (QString (climb (length rsegs) tsegs)) st = (r, st')
     ∧ trace st'
       = trace st
         ++ [IoExists target; IoSpawn ["pdftk"; target; "dump_data_fields"]])
  ∧ get_fields e (QString (climb (length rsegs) tsegs)) st
    = (Ok (Some (Response 400 (JsonError "invalid template path"))), st).
Proof.
  intros Hroot Hr Htarget Ht Hf.
  pose proof (join_climb _ _ _ _ Hroot Htarget Ht) as Hj.
  destruct Htarget as (Hat & Hpt & Htarget).
  pose proof (climb_not_empty (length rsegs) tsegs Hpt Ht) as Hne.
  apply String.eqb_neq in Hne. split.
  - unfold get_fields_orig, try_catch. cbn [truthy]. rewrite Hne. cbn [negb].
    unfold join_root. unfold mbind at 1, M_bind at 1, mret, M_ret.
    rewrite Hj. erewrite bind_ok by apply existsSync_result.
    rewrite bool_decide_true by done. cbn [negb].
    unfold mbind, M_bind, extractFields.
    assert (Htr : ∀ st0 : state,
              trace (add_trace (IoSpawn ["pdftk"; target; "dump_data_fields"])
                       (add_trace (IoExists target) st0))
              = trace st0
                ++ [IoExists target;
                    IoSpawn ["pdftk"; target; "dump_data_fields"]]).
    { intros st0. cbn. by rewrite <- List.app_assoc. }
    destruct (dump e) as [err|err|stdout stderr code|];
      [| |destruct (nonzero code)|]; eexists _, _; (split; [reflexivity|]);
      apply Htr.
  - unfold get_fields, try_catch. cbn [truthy]. rewrite Hne. cbn [negb].
    destruct rsegs as [|x rsegs]; [done|]. cbn [length].
    by rewrite validate_climb.
Qed.

Lemma original_reaches_any_file_witness :
  canonical (orig_root (scenario (Ran None (Some 0%Z)) no_error))
    ["templates"]
  ∧ canonical "/etc/passwd" ["etc"; "passwd"]
  ∧ is_Some (files (initial host_files) !! "/etc/passwd")
  ∧ (∃ r st',
       get_fields_orig (scenario (Ran None (Some 0%Z)) no_error)
         (Error "The path argument must be of type string")
         (QString "../etc/passwd") (initial host_files) = (r, st')
       ∧ trace st'
         = [IoExists "/etc/passwd";
            IoSpawn ["pdftk"; "/etc/passwd"; "dump_data_fields"]])
  ∧ get_fields (scenario (Ran None (Some 0%Z)) no_error)
      (QString "../etc/passwd") (initial host_files)
    = (Ok (Some (Response 400 (JsonError "invalid template path"))),
       initial host_files).
Proof.
  assert (H1 : canonical (orig_root (scenario (Ran None (Some 0%Z)) no_error))
                 ["templates"]).
  { split; [by repeat constructor|]. split; [|reflexivity].
    by repeat constructor. }
  assert (H2 : canonical "/etc/passwd" ["etc"; "passwd"]).
  { split; [by repeat constructor|]. split; [|reflexivity].
    by repeat constructor. }
  assert (H3 : is_Some (files (initial host_files) !! "/etc/passwd")).
  { vm_compute. eauto. }
  split; [exact H1|]. split; [exact H2|]. split; [exact H3|].
  apply (original_reaches_any_file (scenario (Ran None (Some 0%Z)) no_error)
           (Error "The path argument must be of type string")
           ["templates"] ["etc"; "passwd"] "/etc/passwd"
           (initial host_files) H1 ltac:(done) H2 ltac:(done) H3).
Defined.

(** ** The original server: what a failed fill leaves behind *)

Lemma fillPdf_orig_no_child (e : env) (templatePath : string) (data : fields)
  (st : state) (err : error) (code : option Z) :
  write_error e = None →
  fill_run e = LaunchFailure err code →
  fillPdf_orig e templatePath data st
  = (Ok tt, set_uncaught err (spawned e templatePath data st)).
Proof.
  intros Hw Hr. rewrite fillPdf_orig_written by done.
  unfold started. by rewrite Hr.
Qed.

Lemma join_root_string (e : env) (arg_type_error : error) (t : string)
  (st : state) :
  join_root e arg_type_error (QString t) st
  = (Ok (path.join [orig_root e; t]), st).
Proof. reflexivity. Qed.

(** X16: in the original server a pdftk that cannot be started leaves the
    submit request unanswered. Nothing listens for the ['error'] event, so
    the error is uncaught; the promise stays pending, no response is sent,
    nothing is logged, and the intermediate file, written before the start,
    is never removed. *)
Theorem post_submit_orig_launch_failure (e : env) (arg_type_error : error)
  (t : string) (req_body : option fields) (st : state) (err : error)
  (code : option Z) :
  t ≠ "" →
  is_Some (files st !! path.join [orig_root e; t]) →
  write_error e = None →
  fill_run e = LaunchFailure err code →
  ∃ st',
    post_submit_orig e arg_type_error (QString t) req_body st = (Ok None, st')
    ∧ uncaught st' = Some err
    ∧ promise st' = None
    ∧ console st' = console st
    ∧ files st' !! fdf_path (os_tmpdir e) (now_fdf e)
      = Some (fdf_doc (default [] req_body))
    ∧ trace st'
      = trace st
        ++ [IoExists (path.join [orig_root e; t]);
            IoWrite (fdf_path (os_tmpdir e) (now_fdf e))
              (fdf_doc (default [] req_body));
            IoSpawn (fill_argv (path.join [orig_root e; t])
                       (fdf_path (os_tmpdir e) (now_fdf e))
                       (out_path (os_tmpdir e) (now_out e)))].
Proof.
  intros Ht Hf Hw Hr. apply String.eqb_neq in Ht.
  unfold post_submit_orig, try_catch. cbn [truthy]. rewrite Ht. cbn [negb].
  erewrite bind_ok by apply join_root_string.
  erewrite bind_ok by apply existsSync_result.
  rewrite bool_decide_true by done. cbn [negb].
  erewrite bind_ok by (by apply (fillPdf_orig_no_child _ _ _ _ err code)).
  eexists. split; [reflexivity|]. cbn [fst snd].
  split; [done|]. split; [done|]. split; [done|].
  split.
  - change (files (set_uncaught err ?s)) with (files s).
    apply spawned_has_fdf.
  - cbn. by rewrite <- List.app_assoc.
Qed.

Lemma post_submit_orig_launch_failure_witness :
  "fire.pdf" ≠ ""
  ∧ is_Some (files (initial templates)
             !! path.join [orig_root pdftk_missing; "fire.pdf"])
  ∧ ∃ st',
      post_submit_orig pdftk_missing
        (Error "The path argument must be of type string")
        (QString "fire.pdf") None (initial templates) = (Ok None, st')
      ∧ uncaught st' = Some (Error "spawn pdftk ENOENT")
      ∧ promise st' = None
      ∧ console st' = []
      ∧ files st' !! tmp_fdf = Some (fdf_doc [])
      ∧ trace st'
        = [IoExists "/templates/fire.pdf";
           IoWrite tmp_fdf (fdf_doc []);
           IoSpawn (fill_argv "/templates/fire.pdf" tmp_fdf tmp_out)].
Proof.
  assert (H : is_Some (files (initial templates)
                       !! path.join [orig_root pdftk_missing; "fire.pdf"])).
  { vm_compute. eauto. }
  split; [done|]. split; [exact H|].
  apply (post_submit_orig_launch_failure pdftk_missing
           (Error "The path argument must be of type string") "fire.pdf" None
           (initial templates) (Error "spawn pdftk ENOENT") (Some (-2)%Z)
           ltac:(done) H eq_refl eq_refl).
Defined.

(** X17: in the original version a run of pdftk that ends with a status
    other than zero leaves the output file behind. The promise is rejected
    with the exit status; the only removal asked for is that of the
    intermediate file, so whatever pdftk wrote to the output path before
    failing is still there, whether or not that one removal succeeds. *)
Theorem fillPdf_orig_failed_run_leaves_output (e : env)
  (templatePath : string) (data : fields) (st : state) (buf : string)
  (code : option Z) :
  write_error e = None →
  fill_run e = Ran (Some buf) code →
  nonzero code = true →
  deferred st = [] →
  ∃ st',
    fillPdf_orig e templatePath data st = (Ok tt, st')
    ∧ promise st'
      = Some (Rejected (Error ("pdftk fill_form failed with exit code "
                               +:+ string_of_code code)))
    ∧ files st' !! out_path (os_tmpdir e) (now_out e) = Some buf
    ∧ trace st'
      = trace st
        ++ [IoWrite (fdf_path (os_tmpdir e) (now_fdf e)) (fdf_doc data);
            IoSpawn (fill_argv templatePath
                       (fdf_path (os_tmpdir e) (now_fdf e))
                       (out_path (os_tmpdir e) (now_out e)));
            IoUnlink (fdf_path (os_tmpdir e) (now_fdf e))].
Proof.
  intros Hw Hr Hc Hd. rewrite fillPdf_orig_written by done.
  pose proof (spawned_has_fdf e templatePath data st) as Hfdf.
  pose proof (fdf_out_distinct (os_tmpdir e) (now_fdf e) (now_out e)) as Hne.
  assert (Hout : files (spawned e templatePath data st)
                 !! out_path (os_tmpdir e) (now_out e) = Some buf).
  { cbn. unfold tool_files. rewrite Hr. apply lookup_insert_eq. }
  assert (Htr : trace (spawned e templatePath data st)
                = trace st
                  ++ [IoWrite (fdf_path (os_tmpdir e) (now_fdf e))
                        (fdf_doc data);
                      IoSpawn (fill_argv templatePath
                                 (fdf_path (os_tmpdir e) (now_fdf e))
                                 (out_path (os_tmpdir e) (now_out e)))])
    by reflexivity.
  assert (Hdef : deferred (spawned e templatePath data st) = [])
    by (by cbn).
  assert (Hp : promise (spawned e templatePath data st) = None)
    by reflexivity.
  unfold started. rewrite Hr. cbn [child_events dispatch_orig].
  remember (spawned e templatePath data st) as sp eqn:Esp. clear Esp.
  remember (fdf_path (os_tmpdir e) (now_fdf e)) as fdf eqn:Efdf. clear Efdf.
  remember (out_path (os_tmpdir e) (now_out e)) as out eqn:Eout. clear Eout.
  unfold on_close_orig. rewrite Hc.
  unfold mbind, M_bind, mret, M_ret, unlink_async, reject, settle,
    end_of_turn.
  cbn [promise set_deferred deferred set_promise]. rewrite Hp, Hdef.
  cbn [app]. change (deferred (set_promise _ _ (set_deferred [fdf] sp)))
    with [fdf].
  cbn [unlink_all]. unfold mbind, M_bind, try_catch, unlink, mret, M_ret.
  change (files (add_trace _ (set_deferred _ (set_promise _ _
                                                (set_deferred _ sp)))))
    with (files sp).
  rewrite Hfdf.
  destruct (unlink_error e fdf) as [err|].
  - eexists. split; [reflexivity|]. cbn.
    rewrite Htr, <- List.app_assoc. done.
  - eexists. split; [reflexivity|]. cbn.
    rewrite lookup_delete_ne by done.
    rewrite Htr, <- List.app_assoc. done.
Qed.

Lemma fillPdf_orig_failed_run_leaves_output_witness :
  ∃ st',
    fillPdf_orig (scenario (Ran (Some "%PDF-part") (Some 1%Z)) no_error)
      "/templates/fire.pdf" [] (initial templates) = (Ok tt, st')
    ∧ promise st'
      = Some (Rejected (Error "pdftk fill_form failed with exit code 1"))
    ∧ files st' !! tmp_out = Some "%PDF-part"
    ∧ trace st'
      = [IoWrite tmp_fdf (fdf_doc []);
         IoSpawn (fill_argv "/templates/fire.pdf" tmp_fdf tmp_out);
         IoUnlink tmp_fdf].
Proof.
  apply (fillPdf_orig_failed_run_leaves_output
           (scenario (Ran (Some "%PDF-part") (Some 1%Z)) no_error)
           "/templates/fire.pdf" [] (initial templates) "%PDF-part"
           (Some 1%Z) eq_refl eq_refl eq_refl eq_refl).
Defined.

(** X18: in the original server a failed write of the intermediate file is
    thrown out of fillPdf before any promise exists. The submit handler
    catches it, logs it and answers with status 500 and the message of the
    error; pdftk is never started, and nothing removes the file the failed
    write may have created. *)
Theorem post_submit_orig_write_failure (e : env) (arg_type_error : error)
  (t : string) (req_body : option fields) (st : state) (err : error)
  (created : bool) :
  t ≠ "" →
  is_Some (files st !! path.join [orig_root e; t]) →
  write_error e = Some (err, created) →
  post_submit_orig e arg_type_error (QString t) req_body st
  = (Ok (Some (Response 500 (JsonError (message err)))),
     add_console (message err)
       (write_failed e (default [] req_body) created
          (add_trace (IoExists (path.join [orig_root e; t])) st))).
Proof.
  intros Ht Hf Hw. apply String.eqb_neq in Ht.
  unfold post_submit_orig, try_catch. cbn [truthy]. rewrite Ht. cbn [negb].
  erewrite bind_ok by apply join_root_string.
  erewrite bind_ok by apply existsSync_result.
  rewrite bool_decide_true by done. cbn [negb].
  unfold fillPdf_orig. rewrite buildFdf_ok.
  unfold lift, writeFileSync, mbind, M_bind, mret, M_ret, console_error, send.
  rewrite Hw. unfold write_failed, fdf_doc. by destruct created.
Qed.

Lemma post_submit_orig_write_failure_witness :
  "fire.pdf" ≠ ""
  ∧ is_Some (files (initial templates)
             !! path.join [orig_root disk_full; "fire.pdf"])
  ∧ post_submit_orig disk_full
      (Error "The path argument must be of type string")
      (QString "fire.pdf") None (initial templates)
    = (Ok (Some (Response 500
                   (JsonError "ENOSPC: no space left on device, write"))),
       add_console "ENOSPC: no space left on device, write"
         (write_failed disk_full [] true
            (add_trace (IoExists "/templates/fire.pdf")
               (initial templates)))).
Proof.
  assert (H : is_Some (files (initial templates)
                       !! path.join [orig_root disk_full; "fire.pdf"])).
  { vm_compute. eauto. }
  split; [done|]. split; [exact H|].
  apply (post_submit_orig_write_failure disk_full
           (Error "The path argument must be of type string") "fire.pdf" None
           (initial templates)
           (Error "ENOSPC: no space left on device, write") true
           ltac:(done) H eq_refl).
Defined.

(** ** overrides.js: the link to the inspector *)

Lemma digits_idem (s : string) :
  Overrides.digits (Overrides.digits s) = Overrides.digits s.
Proof.
  induction s as [|c s IH]; [done|]. cbn.
  destruct (Overrides.is_digit c) eqn:E; [|done]. cbn. by rewrite E, IH.
Qed.

Lemma digits_rest (s : string) :
  ∃ rest, s = Overrides.digits s +:+ rest ∧ Overrides.digits rest = "".
Proof.
  induction s as [|c s (rest & IH1 & IH2)]; [by exists ""|]. cbn.
  destruct (Overrides.is_digit c) eqn:E.
  - exists rest. rewrite sapp_cons. by rewrite <- IH1.
  - exists (String c s). cbn. by rewrite E.
Qed.

Lemma digits_app (d rest : string) :
  Overrides.digits d = d →
  Overrides.digits (d +:+ rest) = d +:+ Overrides.digits rest.
Proof.
  induction d as [|c d IH]; [done|]. cbn.
  destruct (Overrides.is_digit c) eqn:E; [|done].
  intros [= H]. rewrite sapp_cons. cbn. by rewrite E, IH.
Qed.

Lemma docId_unfold (s : string) :
  Overrides.docId s
  = match Overrides.match_here s with
    | Some d => Some d
    | None =>
        match s with
        | EmptyString => None
        | String _ rest => Overrides.docId rest
        end
    end.
Proof. by destruct s. Qed.

Lemma match_here_some (s d : string) :
  Overrides.match_here s = Some d →
  numeral d
  ∧ ∃ rest, s = "documents/" +:+ d +:+ rest ∧ Overrides.digits rest = "".
Proof.
  unfold Overrides.match_here.
  destruct (drop_prefix _ s) as [r|] eqn:Hp; [|done].
  apply drop_prefix_some in Hp as ->.
  destruct (String.eqb_spec (Overrides.digits r) "") as [|Hne]; [done|].
  intros [= <-]. split; [split; [done|apply digits_idem]|].
  destruct (digits_rest r) as (rest & H1 & H2). exists rest.
  by rewrite <- H1.
Qed.

Lemma docId_some (s d : string) :
  Overrides.docId s = Some d →
  numeral d
  ∧ ∃ pre rest,
      s = pre +:+ "documents/" +:+ d +:+ rest ∧ Overrides.digits rest = "".
Proof.
  induction s as [|c s IH]; rewrite docId_unfold.
  - by destruct (Overrides.match_here "") eqn:E.
  - destruct (Overrides.match_here (String c s)) as [d'|] eqn:E.
    + intros [= ->]. apply match_here_some in E as (Hd & rest & -> & Hr).
      split; [done|]. by exists "", rest.
    + intros H. apply IH in H as (Hd & pre & rest & -> & Hr).
      split; [done|]. by exists (String c pre), rest.
Qed.

(** X19: the link the script adds carries a document number and nothing
    else. Whenever a link is made, its address is the base address, which is
    never empty, followed by [/start?doc_id=] and a decimal numeral, and
    that numeral stands in the path of the page right after [documents/],
    with no further digit behind it. *)
Theorem href_sound (INSPECTOR_BASE_URL : option string) (pathname h : string) :
  Overrides.href INSPECTOR_BASE_URL pathname = Some h →
  Overrides.base INSPECTOR_BASE_URL ≠ ""
  ∧ ∃ d pre rest,
      numeral d
      ∧ pathname = pre +:+ "documents/" +:+ d +:+ rest
      ∧ Overrides.digits rest = ""
      ∧ h = Overrides.base INSPECTOR_BASE_URL +:+ "/start?doc_id=" +:+ d.
Proof.
  unfold Overrides.href.
  destruct (Overrides.docId pathname) as [d|] eqn:E; [|done].
  intros [= <-]. apply docId_some in E as (Hd & pre & rest & -> & Hr).
  split; [|by exists d, pre, rest].
  unfold Overrides.base. destruct INSPECTOR_BASE_URL as [url|]; [|done].
  by destruct (String.eqb_spec url "").
Qed.

Lemma href_sound_witness :
  Overrides.href None "/documents/42/details"
  = Some "http://localhost:8087/start?doc_id=42"
  ∧ Overrides.base None ≠ ""
  ∧ ∃ d pre rest,
      numeral d
      ∧ "/documents/42/details" = pre +:+ "documents/" +:+ d +:+ rest
      ∧ Overrides.digits rest = ""
      ∧ "http://localhost:8087/start?doc_id=42"
        = Overrides.base None +:+ "/start?doc_id=" +:+ d.
Proof.
  split; [reflexivity|].
  apply (href_sound None "/documents/42/details"
           "http://localhost:8087/start?doc_id=42").
  reflexivity.
Defined.

(** X20: on the page of a document the link is made, with the number of
    that document. For a path that is [/documents/], a decimal numeral, and
    a rest that does not go on with a digit, the address of the link is the
    base address followed by [/start?doc_id=] and the numeral. *)
Theorem href_of_document (INSPECTOR_BASE_URL : option string)
  (d rest : string) :
  numeral d →
  Overrides.digits rest = "" →
  Overrides.href INSPECTOR_BASE_URL ("/documents/" +:+ d +:+ rest)
  = Some (Overrides.base INSPECTOR_BASE_URL +:+ "/start?doc_id=" +:+ d).
Proof.
  intros [Hne Hd] Hr. unfold Overrides.href.
  change ("/documents/" +:+ d +:+ rest)
    with (String "/" ("documents/" +:+ d +:+ rest)).
  rewrite docId_unfold.
  change (Overrides.match_here (String "/" ("documents/" +:+ d +:+ rest)))
    with (@None string). cbv iota.
  rewrite docId_unfold. unfold Overrides.match_here.
  rewrite drop_prefix_app, digits_app, Hr, sapp_nil_r by done.
  apply String.eqb_neq in Hne. by rewrite Hne.
Qed.

Lemma href_of_document_witness :
  numeral "1207"
  ∧ Overrides.digits "/" = ""
  ∧ Overrides.href (Some "https://inspector.example") "/documents/1207/"
    = Some "https://inspector.example/start?doc_id=1207".
Proof.
  assert (H : numeral "1207") by (split; [done|reflexivity]).
  split; [exact H|]. split; [reflexivity|].
  apply (href_of_document (Some "https://inspector.example") "1207" "/" H).
  reflexivity.
Defined.

(** ** The answers of the field listing *)

(** X21: what the field listing answers with. A list of names is sent only
    with status 200, only when pdftk closed with status zero, and it is the
    list parsed from what pdftk printed; every other answer is a JSON error
    with status 400, 404 or 500. With status 500 the text is the message of
    what [spawn] threw, or it gives the exit status of pdftk, as a decimal
    numeral, or [null] after a signal, and what pdftk wrote to its error
    stream. *)
Theorem get_fields_answers (e : env) (template : query_value) (st st' : state)
  (resp : response) :
  get_fields e template st = (Ok (Some resp), st') →
  match body resp with
  | JsonFields names =>
      status resp = 200
      ∧ ∃ stdout stderr,
          dump e = DumpRan stdout stderr (Some 0%Z)
          ∧ names = parse_fields e stdout
  | JsonError msg =>
      status resp = 400 ∨ status resp = 404
      ∨ (status resp = 500
         ∧ ((∃ err, dump e = DumpSpawnThrows err ∧ msg = message err)
            ∨ (∃ stdout stderr n,
                 dump e = DumpRan stdout stderr (Some n)
                 ∧ n ≠ 0%Z
                 ∧ msg = "pdftk exited with code "
                         +:+ NilZero.string_of_int (Z.to_int n)
                         +:+ ": " +:+ stderr)
            ∨ (∃ stdout stderr,
                 dump e = DumpRan stdout stderr None
                 ∧ msg = "pdftk exited with code null: " +:+ stderr)))
  | PdfAttachment _ => False
  end.
Proof.
  unfold get_fields, try_catch.
  destruct (truthy template); cbn [negb];
    [|intros [= <- <-]; cbn; auto].
  destruct (validateTemplatePath _ _ _) as [p|];
    [|intros [= <- <-]; cbn; auto].
  erewrite bind_ok by apply existsSync_result.
  destruct (bool_decide _); cbn [negb]; [|intros [= <- <-]; cbn; auto].
  unfold mbind, M_bind, extractFields.
  destruct (dump e) as [err|err|stdout stderr code|] eqn:Hd; [|done| |done].
  - intros [= <- <-]. cbn. right. right. split; [done|]. left.
    by exists err.
  - destruct code as [n|].
    + destruct (decide (n = 0%Z)) as [->|Hn].
      * intros [= <- <-]. cbn. split; [done|]. by exists stdout, stderr.
      * cbn. apply Z.eqb_neq in Hn as Hn'. rewrite Hn'. cbn.
        intros [= <- <-]. cbn. right. right. split; [done|]. right. left.
        by exists stdout, stderr, n.
    + intros [= <- <-]. cbn. right. right. split; [done|]. right. right.
      by exists stdout, stderr.
Qed.

Lemma get_fields_answers_witness :
  get_fields dump_failure (QString "fire.pdf") (initial templates)
  = (Ok (Some (Response 500
                 (JsonError "pdftk exited with code 1: Error: not a PDF"))),
     add_trace (IoSpawn ["pdftk"; "/templates/fire.pdf"; "dump_data_fields"])
       (add_trace (IoExists "/templates/fire.pdf") (initial templates)))
  ∧ (status (Response 500
               (JsonError "pdftk exited with code 1: Error: not a PDF")) = 400
     ∨ status (Response 500
                 (JsonError "pdftk exited with code 1: Error: not a PDF"))
       = 404
     ∨ (status (Response 500
                  (JsonError "pdftk exited with code 1: Error: not a PDF"))
        = 500
        ∧ ((∃ err,
              dump dump_failure = DumpSpawnThrows err
              ∧ "pdftk exited with code 1: Error: not a PDF" = message err)
           ∨ (∃ stdout stderr n,
                dump dump_failure = DumpRan stdout stderr (Some n)
                ∧ n ≠ 0%Z
                ∧ "pdftk exited with code 1: Error: not a PDF"
                  = "pdftk exited with code "
                    +:+ NilZero.string_of_int (Z.to_int n)
                    +:+ ": " +:+ stderr)
           ∨ (∃ stdout stderr,
                dump dump_failure = DumpRan stdout stderr None
                ∧ "pdftk exited with code 1: Error: not a PDF"
                  = "pdftk exited with code null: " +:+ stderr)))).
Proof.
  split; [reflexivity|].
  apply (get_fields_answers dump_failure (QString "fire.pdf")
           (initial templates)
           (add_trace
              (IoSpawn ["pdftk"; "/templates/fire.pdf"; "dump_data_fields"])
              (add_trace (IoExists "/templates/fire.pdf")
                 (initial templates)))
           (Response 500
              (JsonError "pdftk exited with code 1: Error: not a PDF"))).
  reflexivity.
Defined.
